(** * Glass window decoration: geometry, colours and animation state

    A shallow embedding of [kdecoration/glassdecoration.cpp] and
    [kdecoration/glassbutton.cpp].

    Conventions of the embedding:
    - [qreal] values are exact rationals ([Q]); [int] values are [Z];
      a conversion from [qreal] to [int] truncates toward zero ([to_int]).
    - A member function that mutates the object is a function from the old
      object state to the new one.  Two signals are followed, because the
      functions read back what their slots write: [valueChanged] of an
      animation, whose slot stores the progress value, and
      [geometryChanged] of a button, on which its group lays its buttons
      out again.  Otherwise a function is embedded on its own, without the
      slots its changes would trigger ([bordersChanged] above all).
    - Dereferencing a null [m_internalSettings] is a failure of the
      [option] error monad.
    - The Qt value classes, [QVariantAnimation] and the button group of
      KDecoration3 are embedded after the behaviour of the libraries, as
      far as the sources use them.
    - Library functions and constants defined outside the two source files
      ([KDecoration3::snapToPixelGrid], [KDecoration3::pixelSize],
      [KColorUtils::mix], the constants of [glass.h]) are parameters,
      gathered in the records [HostLib] and [Metrics]; the inline
      predicates of [glassdecoration.h] are inputs of the state. *)

From Stdlib Require Import ZArith QArith Qround Qminmax Qabs.
From Stdlib Require Import List Bool String Lia Lqa.
Import ListNotations.

Local Open Scope Z_scope.
Local Open Scope Q_scope.

(* ------------------------------------------------------------------ *)
(** ** Numbers *)

Definition qreal := Q.

(** Conversion [qreal -> int]: truncation toward zero. *)
Definition to_int (x : qreal) : Z := Z.quot (Qnum x) (Zpos (Qden x)).

(** Conversion [int -> qreal]. *)
Definition of_int (n : Z) : qreal := inject_Z n.

Definition Qltb (x y : Q) : bool :=
  match x ?= y with Lt => true | _ => false end.

Definition Qgtb (x y : Q) : bool := Qltb y x.

(** The error monad used for null-pointer dereferences. *)
Definition bind {A B : Type} (m : option A) (k : A -> option B) : option B :=
  match m with
  | Some a => k a
  | None => None
  end.

Notation "x <- m ;; k" := (bind m (fun x => k))
  (at level 61, m at next level, right associativity).

(* ------------------------------------------------------------------ *)
(** ** Qt value types *)

Module Qt.

Record QPointF := mkPoint { px : qreal; py : qreal }.

Record QSizeF := mkSize { sw : qreal; sh : qreal }.

(** [QRectF] stores its top-left corner and its size. *)
Record QRectF := mkRect { rx : qreal; ry : qreal; rw : qreal; rh : qreal }.

Record QMarginsF :=
  mkMargins { mleft : qreal; mtop : qreal; mright : qreal; mbottom : qreal }.

(** [QRect()] converted to [QRectF]. *)
Definition nullRect : QRectF := mkRect 0 0 0 0.

Definition rectOf (p : QPointF) (s : QSizeF) : QRectF :=
  mkRect (px p) (py p) (sw s) (sh s).

(** [QRect(x, y, w, h)] built from [qreal] arguments: every argument is
    converted to [int] first. *)
Definition intRect (x y w h : qreal) : QRectF :=
  mkRect (of_int (to_int x)) (of_int (to_int y))
         (of_int (to_int w)) (of_int (to_int h)).

Definition left (r : QRectF) : qreal := rx r.
Definition right (r : QRectF) : qreal := rx r + rw r.
Definition top (r : QRectF) : qreal := ry r.
Definition bottom (r : QRectF) : qreal := ry r + rh r.
Definition topLeft (r : QRectF) : QPointF := mkPoint (rx r) (ry r).

(** [operator==] of [QPointF], [QSizeF] and [QRectF] compares coordinate
    by coordinate.  (Qt compares [qreal] coordinates up to rounding noise;
    exact rationals have none.) *)
Definition point_eqb (p q : QPointF) : bool :=
  Qeq_bool (px p) (px q) && Qeq_bool (py p) (py q).

Definition size_eqb (s t : QSizeF) : bool :=
  Qeq_bool (sw s) (sw t) && Qeq_bool (sh s) (sh t).

Definition rect_eqb (r s : QRectF) : bool :=
  Qeq_bool (rx r) (rx s) && Qeq_bool (ry r) (ry s)
  && Qeq_bool (rw r) (rw s) && Qeq_bool (rh r) (rh s).

(** [Qt::LayoutDirection], as [QGuiApplication::layoutDirection] reports
    it (never [LayoutDirectionAuto]). *)
Inductive LayoutDirection := LeftToRight | RightToLeft.

(** [QRectF::setTop] moves the top edge and leaves the bottom edge. *)
Definition setTop (r : QRectF) (t : qreal) : QRectF :=
  mkRect (rx r) t (rw r) (rh r - (t - ry r)).

Definition setHeight (r : QRectF) (h : qreal) : QRectF :=
  mkRect (rx r) (ry r) (rw r) h.

Definition moveLeft (r : QRectF) (x : qreal) : QRectF :=
  mkRect x (ry r) (rw r) (rh r).

(** [QRectF::adjust(dx1, dy1, dx2, dy2)]. *)
Definition adjusted (r : QRectF) (dx1 dy1 dx2 dy2 : qreal) : QRectF :=
  mkRect (rx r + dx1) (ry r + dy1) (rw r + dx2 - dx1) (rh r + dy2 - dy1).

Definition marginsRemoved (r : QRectF) (m : QMarginsF) : QRectF :=
  mkRect (rx r + mleft m) (ry r + mtop m)
         (rw r - mleft m - mright m) (rh r - mtop m - mbottom m).

(** [Qt::Alignment] values that occur in the sources. *)
Inductive Alignment :=
| AlignCenter
| AlignVCenter_AlignLeft
| AlignVCenter_AlignRight.

(** [QColor]: the default-constructed colour is invalid. *)
Inductive QColor :=
| InvalidColor
| Rgba (r g b a : Z).

Definition isValid (c : QColor) : bool :=
  match c with InvalidColor => false | Rgba _ _ _ _ => true end.

Definition setAlpha (c : QColor) (alpha : Z) : QColor :=
  match c with
  | InvalidColor => InvalidColor
  | Rgba r g b _ => Rgba r g b alpha
  end.

Definition alpha (c : QColor) : Z :=
  match c with InvalidColor => 255 | Rgba _ _ _ a => a end.

(** [QColorConstants]. *)
Definition Red : QColor := Rgba 255 0 0 255.
Definition Yellow : QColor := Rgba 255 255 0 255.
Definition Green : QColor := Rgba 0 255 0 255.
Definition LightGray : QColor := Rgba 192 192 192 255.

(** [QPainterPath] as the sequence of operations that built it. *)
Inductive PathElement :=
| RectElement (r : QRectF)
| RoundedRectElement (r : QRectF) (xRadius yRadius : qreal).

Inductive QPainterPath :=
| EmptyPath
| AddElement (p : QPainterPath) (e : PathElement)
| Intersected (p clip : QPainterPath).

Definition addRect (p : QPainterPath) (r : QRectF) : QPainterPath :=
  AddElement p (RectElement r).

Definition addRoundedRect (p : QPainterPath) (r : QRectF) (xr yr : qreal)
  : QPainterPath :=
  AddElement p (RoundedRectElement r xr yr).

End Qt.

Import Qt.

(* ------------------------------------------------------------------ *)
(** ** Qt's animation class, as far as the decoration drives it

    [QVariantAnimation] with start value [0.0], end value [1.0] and a
    single loop.  Time is in milliseconds.  An operation that may emit
    [valueChanged] returns the emitted value next to the new state. *)

Module QAbstractAnimation.

Inductive State := Stopped | Paused | Running.
Inductive Direction := Forward | Backward.
Inductive EasingCurve := Linear | InOutQuad.

Definition State_eqb (a b : State) : bool :=
  match a, b with
  | Stopped, Stopped | Paused, Paused | Running, Running => true
  | _, _ => false
  end.

Definition Direction_eqb (a b : Direction) : bool :=
  match a, b with
  | Forward, Forward | Backward, Backward => true
  | _, _ => false
  end.

Record QVariantAnimation := mkAnimation {
  state : State;
  direction : Direction;
  currentTime : Z;
  duration : Z;
  easingCurve : EasingCurve;
  currentValue : option qreal    (* [None]: no value computed yet *)
}.

Definition newAnimation : QVariantAnimation :=
  mkAnimation Stopped Forward 0%Z 250%Z Linear None.

Definition setEasingCurve (a : QVariantAnimation) (e : EasingCurve)
  : QVariantAnimation :=
  mkAnimation (state a) (direction a) (currentTime a) (duration a)
              e (currentValue a).

Definition qBound (lo x hi : qreal) : qreal := Qmax lo (Qmin hi x).

(** [QEasingCurve::valueForProgress]. *)
Definition valueForProgress (e : EasingCurve) (progress : qreal) : qreal :=
  let p := qBound 0 progress 1 in
  match e with
  | Linear => p
  | InOutQuad =>
      let t := p * 2 in
      if Qltb t 1 then t * t / 2
      else let t' := t - 1 in - (1 # 2) * (t' * (t' - 2) - 1)
  end.

(** Value of the animation at its current time. *)
Definition interpolated (a : QVariantAnimation) : qreal :=
  let endProgress :=
    match direction a with Forward => 1 | Backward => 0 end in
  valueForProgress (easingCurve a)
    (if (duration a =? 0)%Z then endProgress
     else of_int (currentTime a) / of_int (duration a)).

Definition value_eqb (v : option qreal) (x : qreal) : bool :=
  match v with
  | Some y => Qeq_bool y x
  | None => false
  end.

(** [setDuration]: a negative duration is refused and an unchanged one
    ignored; a new duration makes the animation recompute its current
    value at its current time (emitting it when it changed). *)
Definition setDuration (a : QVariantAnimation) (msecs : Z)
  : QVariantAnimation * option qreal :=
  if (msecs <? 0)%Z then (a, None)
  else if (duration a =? msecs)%Z then (a, None)
  else
    let a1 := mkAnimation (state a) (direction a) (currentTime a) msecs
                          (easingCurve a) (currentValue a) in
    let v := interpolated a1 in
    let emitted := if value_eqb (currentValue a) v then None else Some v in
    (mkAnimation (state a) (direction a) (currentTime a) msecs
                 (easingCurve a) (Some v),
     emitted).

(** [setCurrentTime]: clamps the time to [0, duration], recomputes the
    current value (emitting it when it changed) and stops the animation
    at the end point of its direction. *)
Definition setCurrentTime (a : QVariantAnimation) (msecs : Z)
  : QVariantAnimation * option qreal :=
  let t := Z.min (duration a) (Z.max msecs 0) in
  let a1 := mkAnimation (state a) (direction a) t (duration a)
                        (easingCurve a) (currentValue a) in
  let v := interpolated a1 in
  let emitted := if value_eqb (currentValue a) v then None else Some v in
  let atEnd :=
    match direction a with
    | Forward => (t =? duration a)%Z
    | Backward => (t =? 0)%Z
    end in
  (mkAnimation (if atEnd then Stopped else state a) (direction a) t
               (duration a) (easingCurve a) (Some v),
   emitted).

(** [setDirection]: a stopped animation is rewound to the start point of
    the new direction; a running one keeps its current time. *)
Definition setDirection (a : QVariantAnimation) (d : Direction)
  : QVariantAnimation :=
  if Direction_eqb (direction a) d then a
  else
    let t :=
      match state a with
      | Stopped => match d with Backward => duration a | Forward => 0%Z end
      | _ => currentTime a
      end in
    mkAnimation (state a) d t (duration a) (easingCurve a) (currentValue a).

(** [start]: no effect on a running animation; a stopped one is rewound
    to the start point of its direction and set running. *)
Definition start (a : QVariantAnimation) : QVariantAnimation * option qreal :=
  match state a with
  | Running => (a, None)
  | Paused =>
      (mkAnimation Running (direction a) (currentTime a) (duration a)
                   (easingCurve a) (currentValue a), None)
  | Stopped =>
      let t := match direction a with
               | Forward => 0%Z
               | Backward => duration a
               end in
      setCurrentTime
        (mkAnimation Running (direction a) t (duration a)
                     (easingCurve a) (currentValue a)) t
  end.

(** One tick of the animation timer, [delta] milliseconds long. *)
Definition advance (a : QVariantAnimation) (delta : Z)
  : QVariantAnimation * option qreal :=
  match state a with
  | Running =>
      setCurrentTime a
        (match direction a with
         | Forward => currentTime a + delta
         | Backward => currentTime a - delta
         end)%Z
  | _ => (a, None)
  end.

End QAbstractAnimation.

(* ------------------------------------------------------------------ *)
(** ** The KDecoration3 interface consumed by the decoration *)

Module KDecoration3.

Inductive ColorGroup := Inactive | Active | Warning.
Inductive ColorRole := Frame | TitleBar | Foreground.

Module BorderSize.
(** [Unmapped] stands for any value outside the enumeration. *)
Inductive t :=
| None | NoSides | Tiny | Normal | Large | VeryLarge
| Huge | VeryHuge | Oversized | Unmapped.
End BorderSize.

Inductive DecorationButtonType :=
| Menu | ApplicationMenu | OnAllDesktops | Minimize | Maximize | Close
| ContextHelp | Shade | KeepBelow | KeepAbove | Custom | Spacer.

Record DecoratedWindow := mkWindow {
  isActive : bool;
  isShaded : bool;
  width : qreal;
  scale : qreal;
  nextScale : qreal;
  caption : string;
  color : ColorGroup -> ColorRole -> QColor;
  palette_Highlight : QColor
}.

Record DecorationSettings := mkSettings {
  smallSpacing : Z;
  largeSpacing : Z;
  gridUnit : Z;
  borderSize : BorderSize.t;
  isAlphaChannelSupported : bool;
  font_height : Z;                      (* [QFontMetrics(font()).height()] *)
  fontMetrics_boundingRect : string -> QRectF
}.

End KDecoration3.

Import KDecoration3.

(* ------------------------------------------------------------------ *)
(** ** The painter, as the list of primitives it was asked to draw *)

Module QPainter.

Inductive CapStyle := FlatCap | SquareCap | RoundCap.
Inductive JoinStyle := MiterJoin | BevelJoin | RoundJoin.

Inductive QPen :=
| NoPen
| Pen (c : QColor) (widthF : qreal) (cap : CapStyle) (join : JoinStyle).

Inductive QBrush :=
| NoBrush
| SolidBrush (c : QColor).

Inductive PathCommand :=
| MoveTo (x y : qreal)
| ArcTo (r : QRectF) (startAngle sweepLength : qreal)
| CubicTo (c1 c2 endPoint : QPointF).

Inductive Shape :=
| Ellipse (r : QRectF)
| Line (p1 p2 : QPointF)
| Polyline (points : list QPointF)
| Polygon (points : list QPointF)
| Rect (r : QRectF)
| Path (commands : list PathCommand).

Inductive Transform :=
| Translate (p : QPointF)
| Scale (sx sy : qreal).

(** One primitive on the canvas, with the pen, brush and transformation
    that were current when it was drawn. *)
Record Drawn := mkDrawn {
  shape : Shape;
  drawnPen : QPen;
  drawnBrush : QBrush;
  drawnTransform : list Transform
}.

Record t := mkPainter {
  pen : QPen;
  brush : QBrush;
  antialiasing : bool;
  transform : list Transform;      (* innermost transformation last *)
  canvas : list Drawn              (* in drawing order *)
}.

Definition fresh : t := mkPainter NoPen NoBrush false [] [].

Definition setRenderHints_Antialiasing (p : t) : t :=
  mkPainter (pen p) (brush p) true (transform p) (canvas p).

Definition setPen (p : t) (q : QPen) : t :=
  mkPainter q (brush p) (antialiasing p) (transform p) (canvas p).

Definition setBrush (p : t) (b : QBrush) : t :=
  mkPainter (pen p) b (antialiasing p) (transform p) (canvas p).

Definition translate (p : t) (o : QPointF) : t :=
  mkPainter (pen p) (brush p) (antialiasing p)
            (transform p ++ [Translate o]) (canvas p).

Definition scale (p : t) (sx sy : qreal) : t :=
  mkPainter (pen p) (brush p) (antialiasing p)
            (transform p ++ [Scale sx sy]) (canvas p).

Definition draw (p : t) (s : Shape) : t :=
  mkPainter (pen p) (brush p) (antialiasing p) (transform p)
            (canvas p ++ [mkDrawn s (pen p) (brush p) (transform p)]).

Definition drawEllipse (p : t) (r : QRectF) : t := draw p (Ellipse r).
Definition drawLine (p : t) (p1 p2 : QPointF) : t := draw p (Line p1 p2).
Definition drawPolyline (p : t) (pts : list QPointF) : t := draw p (Polyline pts).
Definition drawPolygon (p : t) (pts : list QPointF) : t := draw p (Polygon pts).
Definition drawRect (p : t) (r : QRectF) : t := draw p (Rect r).
Definition drawPath (p : t) (cs : list PathCommand) : t := draw p (Path cs).

End QPainter.

(* ------------------------------------------------------------------ *)
(** ** Glass *)

Module Glass.

(** Constants of [glass.h], which is not part of the two source files:
    the title-bar metrics (in units of the small spacing), the pen width
    of the button glyphs and the [BorderSize] bit of the exception mask. *)
Record Metrics := mkMetrics {
  TitleBar_TopMargin : Z;
  TitleBar_BottomMargin : Z;
  TitleBar_SideMargin : Z;
  TitleBar_ButtonSpacing : Z;
  PenWidth_Symbol : qreal;
  Mask_BorderSize : Z
}.

(** Library functions the sources call: [KDecoration3::snapToPixelGrid],
    [KDecoration3::pixelSize] and [KColorUtils::mix]. *)
Record HostLib := mkHostLib {
  snapToPixelGrid : qreal -> qreal -> qreal;
  pixelSize : qreal -> qreal;
  mix : QColor -> QColor -> qreal -> QColor
}.

(** The theme configuration ([InternalSettings], generated code). *)
Module InternalSettings.

Inductive EnumBorderSize :=
| BorderNone | BorderNoSides | BorderTiny | BorderNormal | BorderLarge
| BorderVeryLarge | BorderHuge | BorderVeryHuge | BorderOversized
| BorderUnmapped.

Inductive EnumButtonSize :=
| ButtonTiny | ButtonSmall | ButtonDefault | ButtonLarge
| ButtonVeryLarge | ButtonUnmapped.

Inductive EnumTitleAlignment :=
| AlignLeft | AlignCenter | AlignCenterFullWidth | AlignRight
| AlignUnmapped.

Record t := mkInternalSettings {
  mask : Z;
  borderSize : EnumBorderSize;
  buttonSize : EnumButtonSize;
  cornerRadius : Z;
  animationsEnabled : bool;
  animationsDuration : Z;
  titleAlignment : EnumTitleAlignment;
  outlineCloseButton : bool;
  drawTitleBarSeparator : bool
}.

End InternalSettings.

(** State of one button: the [KDecoration3::DecorationButton] part and
    the members [Glass::Button] adds.  The setters of [Glass::Button] are
    inline functions of [glassbutton.h], which is not among the source
    files: each one stores its argument in the member it is named after. *)
Module ButtonState.

Inductive Flag := FlagNone | FlagStandalone | FlagFirstInList | FlagLastInList.

Record t := mkButton {
  type : DecorationButtonType;
  isHovered : bool;
  isPressed : bool;
  isChecked : bool;
  isVisible : bool;
  geometry : QRectF;
  preferredSize : QSizeF;
  m_padding : QMarginsF;
  m_offset : QPointF;
  m_iconSize : QSizeF;
  m_flag : Flag;
  m_animation : QAbstractAnimation.QVariantAnimation;
  m_opacity : qreal
}.

(** [DecorationButton::size]. *)
Definition size (b : t) : QSizeF := mkSize (rw (geometry b)) (rh (geometry b)).

(** The store of [DecorationButton::setGeometry]; the comparison before
    it and the signal after it are those of
    [DecorationButtonGroup.setButtonGeometry]. *)
Definition withGeometry (b : t) (g : QRectF) : t :=
  mkButton (type b) (isHovered b) (isPressed b) (isChecked b) (isVisible b) g
           (preferredSize b) (m_padding b) (m_offset b) (m_iconSize b)
           (m_flag b) (m_animation b) (m_opacity b).

(** [DecorationButton::setPreferredSize]. *)
Definition setPreferredSize (b : t) (s : QSizeF) : t :=
  mkButton (type b) (isHovered b) (isPressed b) (isChecked b) (isVisible b)
           (geometry b) s (m_padding b) (m_offset b) (m_iconSize b)
           (m_flag b) (m_animation b) (m_opacity b).

(** Modelled from the spec: [Button::setPadding] of [glassbutton.h]
    stores the padding of the button. *)
Definition setPadding (b : t) (m : QMarginsF) : t :=
  mkButton (type b) (isHovered b) (isPressed b) (isChecked b) (isVisible b)
           (geometry b) (preferredSize b) m (m_offset b) (m_iconSize b)
           (m_flag b) (m_animation b) (m_opacity b).

(** Modelled from the spec: [Button::setLeftPadding] of [glassbutton.h]
    stores the left padding and keeps the other three. *)
Definition setLeftPadding (b : t) (v : qreal) : t :=
  setPadding b (mkMargins v (mtop (m_padding b)) (mright (m_padding b))
                          (mbottom (m_padding b))).

(** Modelled from the spec: [Button::setRightPadding] of [glassbutton.h]
    stores the right padding and keeps the other three. *)
Definition setRightPadding (b : t) (v : qreal) : t :=
  setPadding b (mkMargins (mleft (m_padding b)) (mtop (m_padding b)) v
                          (mbottom (m_padding b))).

(** Modelled from the spec: [Button::setOffset] of [glassbutton.h] stores
    the offset of the button. *)
Definition setOffset (b : t) (o : QPointF) : t :=
  mkButton (type b) (isHovered b) (isPressed b) (isChecked b) (isVisible b)
           (geometry b) (preferredSize b) (m_padding b) o (m_iconSize b)
           (m_flag b) (m_animation b) (m_opacity b).

(** Modelled from the spec: [Button::setIconSize] of [glassbutton.h]
    stores the icon size. *)
Definition setIconSize (b : t) (s : QSizeF) : t :=
  mkButton (type b) (isHovered b) (isPressed b) (isChecked b) (isVisible b)
           (geometry b) (preferredSize b) (m_padding b) (m_offset b) s
           (m_flag b) (m_animation b) (m_opacity b).

(** Modelled from the spec: [Button::setFlag] of [glassbutton.h] stores
    the flag ("flagged as first in list"). *)
Definition setFlag (b : t) (f : Flag) : t :=
  mkButton (type b) (isHovered b) (isPressed b) (isChecked b) (isVisible b)
           (geometry b) (preferredSize b) (m_padding b) (m_offset b)
           (m_iconSize b) f (m_animation b) (m_opacity b).

(** The new state of the animation object [m_animation] points to. *)
Definition setAnimation (b : t) (a : QAbstractAnimation.QVariantAnimation) : t :=
  mkButton (type b) (isHovered b) (isPressed b) (isChecked b) (isVisible b)
           (geometry b) (preferredSize b) (m_padding b) (m_offset b)
           (m_iconSize b) (m_flag b) a (m_opacity b).

(** Modelled from the spec: [Button::setOpacity] of [glassbutton.h], the
    progress value of the button's animation, stored as
    [Decoration::setOpacity] stores the window's. *)
Definition setOpacity (b : t) (value : qreal) : t :=
  if Qeq_bool (m_opacity b) value then b
  else mkButton (type b) (isHovered b) (isPressed b) (isChecked b)
                (isVisible b) (geometry b) (preferredSize b) (m_padding b)
                (m_offset b) (m_iconSize b) (m_flag b) (m_animation b) value.

End ButtonState.

(** [KDecoration3::DecorationButtonGroup].  The library keeps a group laid
    out: whenever the position or the spacing of the group changes, or the
    geometry of one of its buttons, [updateLayout] recomputes the size of
    the group and moves its visible buttons into a row that starts at the
    position of the group.  The layout direction is the application's. *)
Module DecorationButtonGroup.

Record t := mkGroup {
  buttons : list ButtonState.t;
  pos : QPointF;
  spacing : qreal;
  groupSize : QSizeF
}.

Definition geometry (g : t) : QRectF := rectOf (pos g) (groupSize g).

Definition setButtons (g : t) (bs : list ButtonState.t) : t :=
  mkGroup bs (pos g) (spacing g) (groupSize g).

Definition isEmpty (g : t) : bool :=
  match buttons g with [] => true | _ :: _ => false end.

(** The first loop of [updateLayout], started with [width] and [height]:
    the widths of the visible buttons add up, with the spacing after
    every one that is not the last of the list; the height is the
    largest one. *)
Fixpoint rowSize (spacing : qreal) (l : list ButtonState.t)
         (width height : qreal) : QSizeF :=
  match l with
  | [] => mkSize width height
  | b :: rest =>
      if ButtonState.isVisible b then
        let height := Qmax height (rh (ButtonState.geometry b)) in
        let width := width + rw (ButtonState.geometry b) in
        let width :=
          match rest with [] => width | _ :: _ => width + spacing end in
        rowSize spacing rest width height
      else rowSize spacing rest width height
  end.

(** [DecorationButton::setGeometry] as the layout calls it, with the
    button's own size: nothing is stored when the geometry is the same,
    and the signal of the button is ignored while the layout runs. *)
Definition place (b : ButtonState.t) (p : QPointF) : ButtonState.t :=
  let r := rectOf p (ButtonState.size b) in
  if rect_eqb (ButtonState.geometry b) r then b
  else ButtonState.withGeometry b r.

(** The second loop of [updateLayout], from the left and from the
    right. *)
Fixpoint placeLeftToRight (y spacing : qreal) (l : list ButtonState.t)
         (leftPosition : qreal) : list ButtonState.t :=
  match l with
  | [] => []
  | b :: rest =>
      if ButtonState.isVisible b then
        place b (mkPoint leftPosition y)
        :: placeLeftToRight y spacing rest
             (leftPosition + (rw (ButtonState.geometry b) + spacing))
      else b :: placeLeftToRight y spacing rest leftPosition
  end.

Fixpoint placeRightToLeft (y spacing : qreal) (l : list ButtonState.t)
         (rightPosition : qreal) : list ButtonState.t :=
  match l with
  | [] => []
  | b :: rest =>
      if ButtonState.isVisible b then
        place b (mkPoint (rightPosition - rw (ButtonState.geometry b)) y)
        :: placeRightToLeft y spacing rest
             (rightPosition - (rw (ButtonState.geometry b) + spacing))
      else b :: placeRightToLeft y spacing rest rightPosition
  end.

(** [DecorationButtonGroup::Private::updateLayout]. *)
Definition updateLayout (layoutDirection : LayoutDirection) (g : t) : t :=
  let pos := pos g in
  (* first calculate new size *)
  let size := rowSize (spacing g) (buttons g) 0 0 in
  let width := sw size in
  let g := if size_eqb (groupSize g) size then g
           else mkGroup (buttons g) pos (spacing g) size in
  let leftPosition := px pos in
  let rightPosition := px pos + width in
  setButtons g
    match layoutDirection with
    | LeftToRight =>
        placeLeftToRight (py pos) (spacing g) (buttons g) leftPosition
    | RightToLeft =>
        placeRightToLeft (py pos) (spacing g) (buttons g) rightPosition
    end.

(** [DecorationButtonGroup::setPos]. *)
Definition setPos (layoutDirection : LayoutDirection) (g : t) (p : QPointF)
  : t :=
  if point_eqb (pos g) p then g
  else updateLayout layoutDirection
         (mkGroup (buttons g) p (spacing g) (groupSize g)).

(** [DecorationButtonGroup::setSpacing]. *)
Definition setSpacing (layoutDirection : LayoutDirection) (g : t) (s : qreal)
  : t :=
  if Qeq_bool (spacing g) s then g
  else updateLayout layoutDirection
         (mkGroup (buttons g) (pos g) s (groupSize g)).

(** Apply [f] to the [k]-th element of a list. *)
Fixpoint updateAt {A : Type} (k : nat) (f : A -> A) (l : list A) {struct l}
  : list A :=
  match l with
  | [] => []
  | x :: rest =>
      match k with
      | O => f x :: rest
      | S k' => x :: updateAt k' f rest
      end
  end.

(** A call on the [k]-th button of the group that changes the button
    alone: no signal the group listens to is emitted. *)
Definition onButton (g : t) (k : nat) (f : ButtonState.t -> ButtonState.t)
  : t :=
  setButtons g (updateAt k f (buttons g)).

(** [DecorationButton::setGeometry] on the [k]-th button of the group:
    nothing happens when the geometry is the same; otherwise it is stored
    and [geometryChanged] makes the group lay its buttons out again. *)
Definition setButtonGeometry (layoutDirection : LayoutDirection) (g : t)
           (k : nat) (r : QRectF) : t :=
  match nth_error (buttons g) k with
  | None => g
  | Some b =>
      if rect_eqb (ButtonState.geometry b) r then g
      else updateLayout layoutDirection
             (onButton g k (fun b => ButtonState.withGeometry b r))
  end.

(** The row [updateLayout] puts the visible buttons into. *)
Fixpoint rowLeftToRight (y spacing : qreal) (l : list ButtonState.t)
         (leftPosition : qreal) : Prop :=
  match l with
  | [] => True
  | b :: rest =>
      if ButtonState.isVisible b then
        (rx (ButtonState.geometry b) == leftPosition
         /\ ry (ButtonState.geometry b) == y)
        /\ rowLeftToRight y spacing rest
             (leftPosition + (rw (ButtonState.geometry b) + spacing))
      else rowLeftToRight y spacing rest leftPosition
  end.

Fixpoint rowRightToLeft (y spacing : qreal) (l : list ButtonState.t)
         (rightPosition : qreal) : Prop :=
  match l with
  | [] => True
  | b :: rest =>
      if ButtonState.isVisible b then
        (rx (ButtonState.geometry b)
         == rightPosition - rw (ButtonState.geometry b)
         /\ ry (ButtonState.geometry b) == y)
        /\ rowRightToLeft y spacing rest
             (rightPosition - (rw (ButtonState.geometry b) + spacing))
      else rowRightToLeft y spacing rest rightPosition
  end.

(** The state [updateLayout] leaves a group in, and so the state of a
    group whenever the library is not running: the size of the group is
    the size of the row of its visible buttons, and these stand in that
    row. *)
Definition laidOut (layoutDirection : LayoutDirection) (g : t) : Prop :=
  let size := rowSize (spacing g) (buttons g) 0 0 in
  (sw (groupSize g) == sw size /\ sh (groupSize g) == sh size)
  /\ match layoutDirection with
     | LeftToRight =>
         rowLeftToRight (py (pos g)) (spacing g) (buttons g) (px (pos g))
     | RightToLeft =>
         rowRightToLeft (py (pos g)) (spacing g) (buttons g)
                        (px (pos g) + sw size)
     end.

End DecorationButtonGroup.

(** *** [Glass::Decoration] ([glassdecoration.cpp]) *)
Module Decoration.

(** What the decoration reads from its host and from the inline
    predicates of [glassdecoration.h]; none of it is written by the
    functions below. *)
Record Host := mkHost {
  window : DecoratedWindow;
  settings : DecorationSettings;
  size : QSizeF;
  hideTitleBar : bool;
  isMaximized : bool;
  isMaximizedHorizontally : bool;
  isMaximizedVertically : bool;
  isLeftEdge : bool;
  isRightEdge : bool;
  isTopEdge : bool;
  hasNoBorders : bool;
  hasNoSideBorders : bool
}.

Record t := mkDecoration {
  host : Host;
  m_internalSettings : option InternalSettings.t;
  m_animation : QAbstractAnimation.QVariantAnimation;
  m_opacity : qreal;
  m_titleRect : QRectF;
  m_titleBarPath : QPainterPath;
  m_windowPath : QPainterPath;
  m_leftButtons : DecorationButtonGroup.t;
  m_rightButtons : DecorationButtonGroup.t;
  borders : QMarginsF;
  resizeOnlyBorders : QMarginsF;
  titleBar : QRectF
}.

Definition rect (d : t) : QRectF := rectOf (mkPoint 0 0) (size (host d)).
Definition borderLeft (d : t) : qreal := mleft (borders d).
Definition borderTop (d : t) : qreal := mtop (borders d).
Definition borderRight (d : t) : qreal := mright (borders d).
Definition borderBottom (d : t) : qreal := mbottom (borders d).

Definition setInternalSettings (d : t) (s : option InternalSettings.t) : t :=
  mkDecoration (host d) s (m_animation d) (m_opacity d) (m_titleRect d)
               (m_titleBarPath d) (m_windowPath d) (m_leftButtons d)
               (m_rightButtons d) (borders d) (resizeOnlyBorders d)
               (titleBar d).

Definition setAnimation (d : t) (a : QAbstractAnimation.QVariantAnimation) : t :=
  mkDecoration (host d) (m_internalSettings d) a (m_opacity d)
               (m_titleRect d) (m_titleBarPath d) (m_windowPath d)
               (m_leftButtons d) (m_rightButtons d) (borders d)
               (resizeOnlyBorders d) (titleBar d).

Definition setShapes (d : t) (r : QRectF) (tb wp : QPainterPath) : t :=
  mkDecoration (host d) (m_internalSettings d) (m_animation d)
               (m_opacity d) r tb wp (m_leftButtons d) (m_rightButtons d)
               (borders d) (resizeOnlyBorders d) (titleBar d).

Definition setButtonGroups (d : t) (l r : DecorationButtonGroup.t) : t :=
  mkDecoration (host d) (m_internalSettings d) (m_animation d)
               (m_opacity d) (m_titleRect d) (m_titleBarPath d)
               (m_windowPath d) l r (borders d) (resizeOnlyBorders d)
               (titleBar d).

Definition setBorders (d : t) (m : QMarginsF) : t :=
  mkDecoration (host d) (m_internalSettings d) (m_animation d)
               (m_opacity d) (m_titleRect d) (m_titleBarPath d)
               (m_windowPath d) (m_leftButtons d) (m_rightButtons d) m
               (resizeOnlyBorders d) (titleBar d).

Definition setResizeOnlyBorders (d : t) (m : QMarginsF) : t :=
  mkDecoration (host d) (m_internalSettings d) (m_animation d)
               (m_opacity d) (m_titleRect d) (m_titleBarPath d)
               (m_windowPath d) (m_leftButtons d) (m_rightButtons d)
               (borders d) m (titleBar d).

Definition setTitleBar (d : t) (r : QRectF) : t :=
  mkDecoration (host d) (m_internalSettings d) (m_animation d)
               (m_opacity d) (m_titleRect d) (m_titleBarPath d)
               (m_windowPath d) (m_leftButtons d) (m_rightButtons d)
               (borders d) (resizeOnlyBorders d) r.

(** [Decoration::setOpacity]; the repaint request [update()] leaves the
    state as it is. *)
Definition setOpacity (d : t) (value : qreal) : t :=
  if Qeq_bool (m_opacity d) value then d
  else mkDecoration (host d) (m_internalSettings d) (m_animation d) value
                    (m_titleRect d) (m_titleBarPath d) (m_windowPath d)
                    (m_leftButtons d) (m_rightButtons d) (borders d)
                    (resizeOnlyBorders d) (titleBar d).

(** The slot connected to [valueChanged] in [Decoration::init]. *)
Definition on_valueChanged (d : t) (emitted : option qreal) : t :=
  match emitted with
  | Some value => setOpacity d value
  | None => d
  end.

(** The progress value follows the animation: once the animation has
    computed a value, [m_opacity] holds it. *)
Definition inSync (d : t) : Prop :=
  match QAbstractAnimation.currentValue (m_animation d) with
  | Some value => m_opacity d == value
  | None => True
  end.

Section Methods.

Context (M : Metrics) (K : HostLib).

(** [Decoration::titleBarColor]. *)
Definition titleBarColor (d : t) : QColor :=
  let c := window (host d) in
  if hideTitleBar (host d) then color c Inactive TitleBar
  else if QAbstractAnimation.State_eqb
            (QAbstractAnimation.state (m_animation d))
            QAbstractAnimation.Running
  then mix K (color c Inactive TitleBar) (color c Active TitleBar)
           (m_opacity d)
  else color c (if isActive c then Active else Inactive) TitleBar.

(** [Decoration::outlineColor]. *)
Definition outlineColor (d : t) : option QColor :=
  let c := window (host d) in
  s <- m_internalSettings d ;;
  if negb (InternalSettings.drawTitleBarSeparator s) then Some InvalidColor
  else if QAbstractAnimation.State_eqb
            (QAbstractAnimation.state (m_animation d))
            QAbstractAnimation.Running
  then
    let color := palette_Highlight c in
    Some (setAlpha color (to_int (of_int (alpha color) * m_opacity d)))
  else if isActive c then Some (palette_Highlight c)
  else Some InvalidColor.

(** [Decoration::fontColor]. *)
Definition fontColor (d : t) : QColor :=
  let c := window (host d) in
  color c (if isActive c then Active else Inactive) Foreground.

(** [Decoration::updateTitleBar]. *)
Definition updateTitleBar (d : t) : t :=
  let s := settings (host d) in
  let maximized := isMaximized (host d) in
  let width :=
    if maximized then KDecoration3.width (window (host d))
    else KDecoration3.width (window (host d))
         - of_int (2 * smallSpacing s * TitleBar_SideMargin M) in
  let height :=
    if maximized || isTopEdge (host d) then borderTop d
    else borderTop d - of_int (smallSpacing s * TitleBar_TopMargin M) in
  let x :=
    if maximized then 0
    else of_int (smallSpacing s * TitleBar_SideMargin M) in
  let y :=
    if maximized || isTopEdge (host d) then 0
    else of_int (smallSpacing s * TitleBar_TopMargin M) in
  setTitleBar d (mkRect x y width height).

(** [Decoration::updateAnimationState]. *)
Definition updateAnimationState (d : t) : option t :=
  s <- m_internalSettings d ;;
  if InternalSettings.animationsEnabled s then
    let c := window (host d) in
    let a := QAbstractAnimation.setDirection (m_animation d)
               (if isActive c then QAbstractAnimation.Forward
                else QAbstractAnimation.Backward) in
    if negb (QAbstractAnimation.State_eqb (QAbstractAnimation.state a)
                                          QAbstractAnimation.Running)
    then
      let '(a', emitted) := QAbstractAnimation.start a in
      Some (on_valueChanged (setAnimation d a') emitted)
    else Some (setAnimation d a)
  else Some d.

(** One tick of the animation timer while the decoration is alive. *)
Definition animationTick (d : t) (delta : Z) : t :=
  let '(a', emitted) := QAbstractAnimation.advance (m_animation d) delta in
  on_valueChanged (setAnimation d a') emitted.

(** [Decoration::borderSize]. *)
Definition borderSize (d : t) (bottom : bool) (scale : qreal) : qreal :=
  let pixelSize := pixelSize K scale in
  let baseSize :=
    Qmax pixelSize
         (snapToPixelGrid K (of_int (smallSpacing (settings (host d)))) scale) in
  let fromSettings :=
    match KDecoration3.borderSize (settings (host d)) with
    | BorderSize.None => 0
    | BorderSize.NoSides =>
        if bottom then snapToPixelGrid K (Qmax 4 baseSize) scale else 0
    | BorderSize.Unmapped                                  (* default: *)
    | BorderSize.Tiny =>
        if bottom then snapToPixelGrid K (Qmax 4 baseSize) scale
        else baseSize
    | BorderSize.Normal => baseSize * 2
    | BorderSize.Large => baseSize * 3
    | BorderSize.VeryLarge => baseSize * 4
    | BorderSize.Huge => baseSize * 5
    | BorderSize.VeryHuge => baseSize * 6
    | BorderSize.Oversized => baseSize * 10
    end in
  match m_internalSettings d with
  | Some s =>
      if negb (Z.land (InternalSettings.mask s) (Mask_BorderSize M) =? 0)%Z
      then
        match InternalSettings.borderSize s with
        | InternalSettings.BorderNone => 0
        | InternalSettings.BorderNoSides =>
            if bottom then snapToPixelGrid K (Qmax 4 baseSize) scale else 0
        | InternalSettings.BorderUnmapped                  (* default: *)
        | InternalSettings.BorderTiny =>
            if bottom then snapToPixelGrid K (Qmax 4 baseSize) scale
            else baseSize
        | InternalSettings.BorderNormal => baseSize * 2
        | InternalSettings.BorderLarge => baseSize * 3
        | InternalSettings.BorderVeryLarge => baseSize * 4
        | InternalSettings.BorderHuge => baseSize * 5
        | InternalSettings.BorderVeryHuge => baseSize * 6
        | InternalSettings.BorderOversized => baseSize * 10
        end
      else fromSettings
  | None => fromSettings
  end.

(** [Decoration::buttonSize]; the result type [int] truncates. *)
Definition buttonSize (d : t) : option Z :=
  let baseSize := gridUnit (settings (host d)) in
  s <- m_internalSettings d ;;
  Some match InternalSettings.buttonSize s with
       | InternalSettings.ButtonTiny => baseSize
       | InternalSettings.ButtonSmall => to_int (of_int baseSize * (3 # 2))
       | InternalSettings.ButtonUnmapped                   (* default: *)
       | InternalSettings.ButtonDefault => (baseSize * 2)%Z
       | InternalSettings.ButtonLarge => to_int (of_int baseSize * (5 # 2))
       | InternalSettings.ButtonVeryLarge => to_int (of_int baseSize * (7 # 2))
       end.

(** [Decoration::captionHeight]. *)
Definition captionHeight (d : t) : option Z :=
  if hideTitleBar (host d) then Some (to_int (borderTop d))
  else buttonSize d.

(** [Decoration::recalculateBorders]. *)
Definition recalculateBorders (d : t) : option t :=
  let c := window (host d) in
  let s := settings (host d) in
  let scale := nextScale c in
  (* left, right and bottom borders *)
  let left := borderSize d false scale in
  let right := borderSize d false scale in
  let bottom := borderSize d true scale in
  let top := 0 in
  top <- (if hideTitleBar (host d) then Some bottom
          else
            bs <- buttonSize d ;;
            let top :=
              top + snapToPixelGrid K
                      (of_int (Z.max (font_height s) bs)) scale in
            (* padding below *)
            let baseSize := (smallSpacing s * 2)%Z in
            Some (top + snapToPixelGrid K
                          (of_int (baseSize * TitleBar_BottomMargin M))
                          scale)) ;;
  let d := setBorders d (mkMargins left top right bottom) in
  (* extended sizes *)
  let extSize :=
    snapToPixelGrid K (of_int (largeSpacing (settings (host d))))
                    (nextScale (window (host d))) in
  let extSides :=
    if hasNoBorders (host d)
    then (if negb (isMaximizedHorizontally (host d)) then extSize else 0)
    else if hasNoSideBorders (host d)
            && negb (isMaximizedHorizontally (host d))
         then extSize else 0 in
  let extBottom :=
    if hasNoBorders (host d)
    then (if negb (isMaximizedVertically (host d)) then extSize else 0)
    else 0 in
  Some (setResizeOnlyBorders d (mkMargins extSides 0 extSides extBottom)).


(** [Decoration::reconfigure]; [provided] is the configuration handed
    out by the settings provider for this decoration. *)
Definition reconfigure (d : t) (provided : InternalSettings.t) : option t :=
  let d := setInternalSettings d (Some provided) in
  (* animation *)
  let '(a, emitted) :=
    QAbstractAnimation.setDuration (m_animation d)
      (InternalSettings.animationsDuration provided) in
  let d := on_valueChanged (setAnimation d a) emitted in
  (* borders *)
  recalculateBorders d.

(** [Decoration::calculateWindowAndTitleBarShapes]. *)
Definition calculateWindowAndTitleBarShapes (d : t) (windowShapeOnly : bool)
  : option t :=
  let c := window (host d) in
  let s := settings (host d) in
  title <-
    (if negb windowShapeOnly || isShaded c then
       (* set titleBar geometry and path *)
       let titleRect := intRect 0 0 (sw (size (host d))) (borderTop d) in
       let path := EmptyPath in
       if isMaximized (host d) || negb (isAlphaChannelSupported s) then
         Some (titleRect, addRect path titleRect)
       else if isShaded c then
         i <- m_internalSettings d ;;
         let radius := of_int (InternalSettings.cornerRadius i) in
         Some (titleRect, addRoundedRect path titleRect radius radius)
       else
         i <- m_internalSettings d ;;
         let radius := of_int (InternalSettings.cornerRadius i) in
         let clipRect := addRect EmptyPath titleRect in
         let path :=
           addRoundedRect path
             (adjusted titleRect
                (if isLeftEdge (host d) then - radius else 0)
                (if isTopEdge (host d) then - radius else 0)
                (if isRightEdge (host d) then radius else 0)
                radius)
             radius radius in
         Some (titleRect, Intersected path clipRect)
     else Some (m_titleRect d, m_titleBarPath d)) ;;
  let '(titleRect, titleBarPath) := title in
  (* set windowPath *)
  let path := EmptyPath in
  windowPath <-
    (if negb (isShaded c) then
       if isAlphaChannelSupported s && negb (isMaximized (host d)) then
         i <- m_internalSettings d ;;
         let radius := of_int (InternalSettings.cornerRadius i) in
         Some (addRoundedRect path (rect d) radius radius)
       else Some (addRect path (rect d))
     else Some titleBarPath) ;;
  Some (setShapes d titleRect titleBarPath windowPath).

(** [Decoration::updateButtonsGeometry], part "adjust button position":
    the body of the loop, run on the [k]-th button of the group [g]. *)
Definition adjustButton (layoutDirection : LayoutDirection) (d : t)
           (g : DecorationButtonGroup.t) (k : nat) : DecorationButtonGroup.t :=
  let s := settings (host d) in
  match nth_error (DecorationButtonGroup.buttons g) k with
  | None => g
  | Some btn =>
      let verticalOffset : Z :=
        if isTopEdge (host d)
        then (smallSpacing s * TitleBar_TopMargin M)%Z else 0%Z in
      let preferredSize := ButtonState.preferredSize btn in
      let bHeight : Z := to_int (sh preferredSize + of_int verticalOffset) in
      let bWidth : Z := to_int (sw preferredSize) in
      let g := DecorationButtonGroup.setButtonGeometry layoutDirection g k
                 (rectOf (mkPoint 0 0)
                         (mkSize (of_int bWidth) (of_int bHeight))) in
      let g := DecorationButtonGroup.onButton g k
                 (fun btn => ButtonState.setPadding btn
                               (mkMargins 0 (of_int verticalOffset) 0 0)) in
      let g := DecorationButtonGroup.onButton g k
                 (fun btn => ButtonState.setOffset btn
                               (mkPoint 0 (of_int verticalOffset))) in
      DecorationButtonGroup.onButton g k
        (fun btn => ButtonState.setIconSize btn
                      (mkSize (of_int bHeight) (of_int bWidth)))
  end.

(** The loop over the buttons of one group, in the order of the group. *)
Definition adjustButtons (layoutDirection : LayoutDirection) (d : t)
           (g : DecorationButtonGroup.t) : DecorationButtonGroup.t :=
  fold_left (adjustButton layoutDirection d)
            (seq 0 (List.length (DecorationButtonGroup.buttons g))) g.

(** [Decoration::updateButtonsGeometry], part "left buttons". *)
Definition leftButtonsBlock (layoutDirection : LayoutDirection) (d : t)
           (g : DecorationButtonGroup.t) : DecorationButtonGroup.t :=
  let s := settings (host d) in
  if negb (DecorationButtonGroup.isEmpty g) then
    (* spacing *)
    let g := DecorationButtonGroup.setSpacing layoutDirection g
               (of_int (smallSpacing s * TitleBar_ButtonSpacing M)) in
    (* padding *)
    let vPadding : Z :=
      if isTopEdge (host d) then 0%Z
      else (smallSpacing s * TitleBar_TopMargin M)%Z in
    let hPadding : Z := (smallSpacing s * TitleBar_SideMargin M)%Z in
    if isLeftEdge (host d) then
      let front := 0%nat in
      match nth_error (DecorationButtonGroup.buttons g) front with
      | None => g                            (* not reached: [g] has buttons *)
      | Some button =>
          let geometry :=
            adjusted (ButtonState.geometry button)
                     (- of_int hPadding) 0 0 0 in
          let g := DecorationButtonGroup.setButtonGeometry layoutDirection
                     g front geometry in
          let g := DecorationButtonGroup.onButton g front
                     (fun button =>
                        ButtonState.setFlag button
                          ButtonState.FlagFirstInList) in
          let g := DecorationButtonGroup.onButton g front
                     (fun button =>
                        ButtonState.setLeftPadding button
                          (of_int hPadding)) in
          let g := DecorationButtonGroup.onButton g front
                     (fun button =>
                        ButtonState.setIconSize button
                          (ButtonState.preferredSize button)) in
          DecorationButtonGroup.setPos layoutDirection g
            (mkPoint 0 (of_int vPadding))
      end
    else
      DecorationButtonGroup.setPos layoutDirection g
        (mkPoint (of_int hPadding + borderLeft d) (of_int vPadding))
  else g.

(** [Decoration::updateButtonsGeometry], part "right buttons". *)
Definition rightButtonsBlock (layoutDirection : LayoutDirection) (d : t)
           (g : DecorationButtonGroup.t) : DecorationButtonGroup.t :=
  let s := settings (host d) in
  if negb (DecorationButtonGroup.isEmpty g) then
    (* spacing *)
    let g := DecorationButtonGroup.setSpacing layoutDirection g
               (of_int (smallSpacing s * TitleBar_ButtonSpacing M)) in
    (* padding *)
    let vPadding : Z :=
      if isTopEdge (host d) then 0%Z
      else (smallSpacing s * TitleBar_TopMargin M)%Z in
    let hPadding : Z := (smallSpacing s * TitleBar_SideMargin M)%Z in
    if isRightEdge (host d) then
      let back := (List.length (DecorationButtonGroup.buttons g) - 1)%nat in
      match nth_error (DecorationButtonGroup.buttons g) back with
      | None => g                            (* not reached: [g] has buttons *)
      | Some button =>
          let geometry :=
            adjusted (ButtonState.geometry button)
                     0 0 (of_int hPadding) 0 in
          let g := DecorationButtonGroup.setButtonGeometry layoutDirection
                     g back geometry in
          let g := DecorationButtonGroup.onButton g back
                     (fun button =>
                        ButtonState.setFlag button
                          ButtonState.FlagFirstInList) in
          let g := DecorationButtonGroup.onButton g back
                     (fun button =>
                        ButtonState.setRightPadding button
                          (of_int hPadding)) in
          let g := DecorationButtonGroup.onButton g back
                     (fun button =>
                        ButtonState.setIconSize button
                          (ButtonState.preferredSize button)) in
          DecorationButtonGroup.setPos layoutDirection g
            (mkPoint (sw (size (host d))
                      - rw (DecorationButtonGroup.geometry g))
                     (of_int vPadding))
      end
    else
      DecorationButtonGroup.setPos layoutDirection g
        (mkPoint (sw (size (host d))
                  - rw (DecorationButtonGroup.geometry g)
                  - of_int hPadding - borderRight d)
                 (of_int vPadding))
  else g.

(** [Decoration::updateButtonsGeometry]: the loop runs over the buttons of
    the left group, then over those of the right group; a call on a button
    reaches the group of that button alone.  [layoutDirection] is the
    layout direction of the application. *)
Definition updateButtonsGeometry (layoutDirection : LayoutDirection) (d : t)
  : t :=
  (* adjust button position *)
  let leftButtons := adjustButtons layoutDirection d (m_leftButtons d) in
  let rightButtons := adjustButtons layoutDirection d (m_rightButtons d) in
  (* left buttons *)
  let leftButtons := leftButtonsBlock layoutDirection d leftButtons in
  (* right buttons *)
  let rightButtons := rightButtonsBlock layoutDirection d rightButtons in
  setButtonGroups d leftButtons rightButtons.

(** [Decoration::captionRect]. *)
Definition captionRect (d : t) : option (QRectF * Alignment) :=
  if hideTitleBar (host d) then Some (nullRect, AlignCenter)
  else
    let c := window (host d) in
    let s := settings (host d) in
    let width := sw (size (host d)) in
    let sideMargin := of_int (TitleBar_SideMargin M * smallSpacing s) in
    let leftOffset :=
      snapToPixelGrid K
        (if DecorationButtonGroup.isEmpty (m_leftButtons d)
         then sideMargin
         else rx (DecorationButtonGroup.geometry (m_leftButtons d))
              + rw (DecorationButtonGroup.geometry (m_leftButtons d))
              + sideMargin)
        (scale c) in
    let rightOffset :=
      snapToPixelGrid K
        (if DecorationButtonGroup.isEmpty (m_rightButtons d)
         then sideMargin
         else width
              - rx (DecorationButtonGroup.geometry (m_rightButtons d))
              + sideMargin)
        (scale c) in
    let yOffset :=
      snapToPixelGrid K (of_int (smallSpacing s * TitleBar_TopMargin M))
                      (scale c) in
    ch <- captionHeight d ;;
    let maxRect :=
      mkRect leftOffset yOffset (width - leftOffset - rightOffset)
             (of_int ch) in
    i <- m_internalSettings d ;;
    match InternalSettings.titleAlignment i with
    | InternalSettings.AlignLeft => Some (maxRect, AlignVCenter_AlignLeft)
    | InternalSettings.AlignRight => Some (maxRect, AlignVCenter_AlignRight)
    | InternalSettings.AlignCenter => Some (maxRect, AlignCenter)
    | InternalSettings.AlignUnmapped                       (* default: *)
    | InternalSettings.AlignCenterFullWidth =>
        (* full caption rect *)
        let fullRect := intRect 0 yOffset width (of_int ch) in
        let boundingRect := fontMetrics_boundingRect s (caption c) in
        (* text bounding rect *)
        let boundingRect := setTop boundingRect yOffset in
        let boundingRect := setHeight boundingRect (of_int ch) in
        let boundingRect :=
          moveLeft boundingRect ((width - rw boundingRect) / 2) in
        if Qltb (left boundingRect) leftOffset then
          Some (maxRect, AlignVCenter_AlignLeft)
        else if Qgtb (right boundingRect) (width - rightOffset) then
          Some (maxRect, AlignVCenter_AlignRight)
        else Some (fullRect, AlignCenter)
    end.

End Methods.

End Decoration.

(** *** [Glass::Button] ([glassbutton.cpp])

    The argument [d] of the functions below is the result of
    [qobject_cast<Decoration *>(decoration())]: [None] when the cast
    fails.  The outer [option] of a result is the error monad. *)
Module Button.

Import ButtonState.

Section Methods.

Context (M : Metrics) (K : HostLib).

(** [Button::foregroundColor]. *)
Definition foregroundColor (d : option Decoration.t) (b : ButtonState.t)
  : option QColor :=
  match d with
  | None => Some InvalidColor
  | Some d =>
      if isPressed b then Some (Decoration.titleBarColor K d)
      else
        outlined <-
          (match type b with
           | Close =>
               i <- Decoration.m_internalSettings d ;;
               Some (InternalSettings.outlineCloseButton i)
           | _ => Some false
           end) ;;
        if outlined then Some (Decoration.titleBarColor K d)
        else if (match type b with
                 | KeepBelow | KeepAbove | Shade => true
                 | _ => false
                 end) && isChecked b
        then Some (Decoration.titleBarColor K d)
        else if QAbstractAnimation.State_eqb
                  (QAbstractAnimation.state (m_animation b))
                  QAbstractAnimation.Running
        then Some (mix K (Decoration.fontColor d)
                         (Decoration.titleBarColor K d) (m_opacity b))
        else if isHovered b then Some (Decoration.titleBarColor K d)
        else Some (Decoration.fontColor d)
  end.

(** [Button::backgroundColor]. *)
Definition backgroundColor (d : option Decoration.t) (b : ButtonState.t)
  : QColor :=
  match d with
  | None => InvalidColor
  | Some d =>
      let c := Decoration.window (Decoration.host d) in
      if isActive c then
        if isPressed b then
          match type b with
          | Close => Red
          | Minimize => Yellow
          | Maximize => Green
          | _ => mix K (Decoration.titleBarColor K d)
                       (Decoration.fontColor d) (3 # 10)
          end
        else
          let alpha := 128%Z in
          let alpha := if isHovered b then 192%Z else alpha in
          match type b with
          | Close => setAlpha Red alpha
          | Minimize => setAlpha Yellow alpha
          | Maximize => setAlpha Green alpha
          | _ => InvalidColor
          end
      else
        let color := setAlpha LightGray 128 in
        match type b with
        | Close | Minimize | Maximize => color
        | _ => InvalidColor
        end
  end.

(** [Button::drawIcon].  In exact arithmetic [40 / width] is [0] for
    [width = 0], where the source divides a floating-point number by
    zero; statements about the pen width assume [0 < width]. *)
Definition drawIcon (d : option Decoration.t) (b : ButtonState.t)
           (painter : QPainter.t) : option QPainter.t :=
  let painter := QPainter.setRenderHints_Antialiasing painter in
  let rect := marginsRemoved (geometry b) (m_padding b) in
  let width := rw rect in
  let painter := QPainter.translate painter (topLeft rect) in
  let painter := QPainter.scale painter (width / 40) (width / 40) in
  (* render background *)
  let backgroundColor := backgroundColor d b in
  let painter :=
    if isValid backgroundColor then
      let painter := QPainter.setPen painter QPainter.NoPen in
      let painter :=
        QPainter.setBrush painter (QPainter.SolidBrush backgroundColor) in
      QPainter.drawEllipse painter (mkRect 0 0 36 36)
    else painter in
  (* render mark *)
  foregroundColor <- foregroundColor d b ;;
  if isValid foregroundColor then
    (* setup painter *)
    let pen :=
      QPainter.Pen foregroundColor
                   (PenWidth_Symbol M * Qmax 1 (40 / width))
                   QPainter.RoundCap QPainter.MiterJoin in
    let painter := QPainter.setPen painter pen in
    let painter := QPainter.setBrush painter QPainter.NoBrush in
    Some
      match type b with
      | Close => painter          (* the strokes are commented out *)
      | Maximize => painter       (* the strokes are commented out *)
      | Minimize => painter       (* the strokes are commented out *)
      | OnAllDesktops =>
          let painter := QPainter.setPen painter QPainter.NoPen in
          let painter :=
            QPainter.setBrush painter (QPainter.SolidBrush foregroundColor) in
          if isChecked b then
            (* outer ring *)
            let painter := QPainter.drawEllipse painter (mkRect 6 6 24 24) in
            (* center dot *)
            let backgroundColor := backgroundColor in
            let backgroundColor :=
              match d with
              | Some d' =>
                  if negb (isValid backgroundColor)
                  then Decoration.titleBarColor K d'
                  else backgroundColor
              | None => backgroundColor
              end in
            if isValid backgroundColor then
              let painter :=
                QPainter.setBrush painter
                  (QPainter.SolidBrush backgroundColor) in
              QPainter.drawEllipse painter (mkRect 16 16 4 4)
            else painter
          else
            let painter :=
              QPainter.drawPolygon painter
                [mkPoint 13 13; mkPoint 24 6; mkPoint 30 12; mkPoint 19 22] in
            let painter := QPainter.setPen painter pen in
            let painter :=
              QPainter.drawLine painter (mkPoint 11 15) (mkPoint 21 25) in
            QPainter.drawLine painter (mkPoint 24 12) (mkPoint 9 27)
      | Shade =>
          if isChecked b then
            let painter :=
              QPainter.drawLine painter (mkPoint 8 11) (mkPoint 28 11) in
            QPainter.drawPolyline painter
              [mkPoint 8 16; mkPoint 18 26; mkPoint 28 16]
          else
            let painter :=
              QPainter.drawLine painter (mkPoint 8 11) (mkPoint 28 11) in
            QPainter.drawPolyline painter
              [mkPoint 8 26; mkPoint 18 16; mkPoint 28 26]
      | KeepBelow =>
          let painter :=
            QPainter.drawPolyline painter
              [mkPoint 8 10; mkPoint 18 20; mkPoint 28 10] in
          QPainter.drawPolyline painter
            [mkPoint 8 18; mkPoint 18 28; mkPoint 28 18]
      | KeepAbove =>
          let painter :=
            QPainter.drawPolyline painter
              [mkPoint 8 18; mkPoint 18 8; mkPoint 28 18] in
          QPainter.drawPolyline painter
            [mkPoint 8 26; mkPoint 18 16; mkPoint 28 26]
      | ApplicationMenu =>
          let painter := QPainter.drawRect painter (mkRect 7 9 22 2) in
          let painter := QPainter.drawRect painter (mkRect 7 17 22 2) in
          QPainter.drawRect painter (mkRect 7 25 22 2)
      | ContextHelp =>
          let path :=
            [QPainter.MoveTo 10 12;
             QPainter.ArcTo (mkRect 10 7 16 10) 180 (-180);
             QPainter.CubicTo (mkPoint 25 19) (mkPoint 18 15)
                              (mkPoint 18 23)] in
          let painter := QPainter.drawPath painter path in
          QPainter.drawRect painter (mkRect 18 30 1 1)
      | _ => painter                                       (* default: *)
      end
  else Some painter.

(** The slot connected to [valueChanged] in the constructor. *)
Definition on_valueChanged (b : ButtonState.t) (emitted : option qreal)
  : ButtonState.t :=
  match emitted with
  | Some value => setOpacity b value
  | None => b
  end.

(** [Button::reconfigure]. *)
Definition reconfigure (d : option Decoration.t) (b : ButtonState.t)
  : option ButtonState.t :=
  match d with
  | None => Some b
  | Some d =>
      buttonSize <- Decoration.buttonSize d ;;
      let b :=
        match type b with
        | Spacer =>
            setPreferredSize b
              (mkSize (of_int buttonSize * (1 # 2)) (of_int buttonSize))
        | _ =>
            setPreferredSize b
              (mkSize (of_int buttonSize) (of_int buttonSize))
        end in
      i <- Decoration.m_internalSettings d ;;
      let '(a, emitted) :=
        QAbstractAnimation.setDuration (m_animation b)
          (InternalSettings.animationsDuration i) in
      Some (on_valueChanged (setAnimation b a) emitted)
  end.

(** [Button::updateAnimationState]. *)
Definition updateAnimationState (d : option Decoration.t)
           (b : ButtonState.t) (hovered : bool) : option ButtonState.t :=
  match d with
  | None => Some b
  | Some d =>
      i <- Decoration.m_internalSettings d ;;
      if negb (InternalSettings.animationsEnabled i) then Some b
      else
        let a := QAbstractAnimation.setDirection (m_animation b)
                   (if hovered then QAbstractAnimation.Forward
                    else QAbstractAnimation.Backward) in
        if negb (QAbstractAnimation.State_eqb
                   (QAbstractAnimation.state a) QAbstractAnimation.Running)
        then
          let '(a', emitted) := QAbstractAnimation.start a in
          Some (on_valueChanged (setAnimation b a') emitted)
        else Some (setAnimation b a)
  end.

(** One tick of the animation timer while the button is alive. *)
Definition animationTick (b : ButtonState.t) (delta : Z) : ButtonState.t :=
  let '(a', emitted) := QAbstractAnimation.advance (m_animation b) delta in
  on_valueChanged (setAnimation b a') emitted.

End Methods.

End Button.

End Glass.

Import Glass.

(* ------------------------------------------------------------------ *)
(** ** Shadow parameters (the unnamed namespace of [glassdecoration.cpp]) *)

Module ShadowParams.

Record QPoint := mkQPoint { x : Z; y : Z }.

Record t := mkShadowParams {
  offset : QPoint;
  radius : Z;
  opacity : qreal
}.

(** [ShadowParams()]. *)
Definition default : t := mkShadowParams (mkQPoint 0 0) 0 0.

End ShadowParams.

Module CompositeShadowParams.

Record t := mkComposite {
  offset : ShadowParams.QPoint;
  shadow1 : ShadowParams.t;
  shadow2 : ShadowParams.t
}.

(** [CompositeShadowParams() = default]. *)
Definition default : t :=
  mkComposite (ShadowParams.mkQPoint 0 0) ShadowParams.default
              ShadowParams.default.

(** [CompositeShadowParams::isNone]. *)
Definition isNone (c : t) : bool :=
  (Z.max (ShadowParams.radius (shadow1 c)) (ShadowParams.radius (shadow2 c))
   =? 0)%Z.

End CompositeShadowParams.

Module Shadow.

(** The values of [InternalSettings::ShadowSize]; [ShadowUnmapped] stands
    for any other [int]. *)
Inductive EnumShadowSize :=
| ShadowNone | ShadowSmall | ShadowMedium | ShadowLarge | ShadowVeryLarge
| ShadowUnmapped.

(** [s_shadowParams]. *)
Definition s_shadowParams : list CompositeShadowParams.t :=
  [ (* None *)
    CompositeShadowParams.default;
    (* Small *)
    CompositeShadowParams.mkComposite
      (ShadowParams.mkQPoint 0 4)
      (ShadowParams.mkShadowParams (ShadowParams.mkQPoint 0 0) 16 1)
      (ShadowParams.mkShadowParams (ShadowParams.mkQPoint 0 (-2)) 8 (4 # 10));
    (* Medium *)
    CompositeShadowParams.mkComposite
      (ShadowParams.mkQPoint 0 8)
      (ShadowParams.mkShadowParams (ShadowParams.mkQPoint 0 0) 32 (9 # 10))
      (ShadowParams.mkShadowParams (ShadowParams.mkQPoint 0 (-4)) 16 (3 # 10));
    (* Large *)
    CompositeShadowParams.mkComposite
      (ShadowParams.mkQPoint 0 12)
      (ShadowParams.mkShadowParams (ShadowParams.mkQPoint 0 0) 48 (8 # 10))
      (ShadowParams.mkShadowParams (ShadowParams.mkQPoint 0 (-6)) 24 (2 # 10));
    (* Very large *)
    CompositeShadowParams.mkComposite
      (ShadowParams.mkQPoint 0 16)
      (ShadowParams.mkShadowParams (ShadowParams.mkQPoint 0 0) 64 (7 # 10))
      (ShadowParams.mkShadowParams (ShadowParams.mkQPoint 0 (-8)) 32 (1 # 10)) ].

(** [s_shadowParams[i]] for an index inside the array. *)
Definition at_index (i : nat) : CompositeShadowParams.t :=
  nth i s_shadowParams CompositeShadowParams.default.

(** [lookupShadowParams]. *)
Definition lookupShadowParams (size : EnumShadowSize) : CompositeShadowParams.t :=
  match size with
  | ShadowNone => at_index 0
  | ShadowSmall => at_index 1
  | ShadowMedium => at_index 2
  | ShadowLarge => at_index 3
  | ShadowVeryLarge => at_index 4
  | ShadowUnmapped =>
      (* Fallback to the Large size. *)
      at_index 3
  end.

End Shadow.

(* ------------------------------------------------------------------ *)
(** ** Measuring what was drawn

    The points that bound a primitive: the corners of the rectangle of an
    ellipse, a rectangle or an arc, the end points of a line, the vertices
    of a polygon, the end and control points of a curve.  A primitive lies
    in the convex hull of these points. *)

Module Extent.

Definition corners (r : QRectF) : list QPointF :=
  [mkPoint (rx r) (ry r); mkPoint (rx r + rw r) (ry r + rh r)].

Definition commandPoints (c : QPainter.PathCommand) : list QPointF :=
  match c with
  | QPainter.MoveTo x y => [mkPoint x y]
  | QPainter.ArcTo r _ _ => corners r
  | QPainter.CubicTo c1 c2 e => [c1; c2; e]
  end.

Definition shapePoints (s : QPainter.Shape) : list QPointF :=
  match s with
  | QPainter.Ellipse r => corners r
  | QPainter.Line p1 p2 => [p1; p2]
  | QPainter.Polyline pts => pts
  | QPainter.Polygon pts => pts
  | QPainter.Rect r => corners r
  | QPainter.Path cs => flat_map commandPoints cs
  end.

(** The point lies in the square [[lo, hi] x [lo, hi]]. *)
Definition inSquareb (lo hi : qreal) (p : QPointF) : bool :=
  Qle_bool lo (px p) && Qle_bool (px p) hi
  && Qle_bool lo (py p) && Qle_bool (py p) hi.

(** Every bounding point of every primitive lies in the square. *)
Definition withinSquareb (lo hi : qreal) (drawn : list QPainter.Drawn) : bool :=
  forallb (fun g => forallb (inSquareb lo hi)
                            (shapePoints (QPainter.shape g)))
          drawn.

End Extent.

(* ------------------------------------------------------------------ *)
(** ** The layout of the buttons: what it keeps and what it establishes

    Relations between a button before and after a call, used to state
    what [updateButtonsGeometry] and the layout of the library do. *)

Module Layout.

(** Every member of a button but its geometry. *)
Definition fields (b : ButtonState.t) :=
  (ButtonState.type b, ButtonState.isHovered b, ButtonState.isPressed b,
   ButtonState.isChecked b, ButtonState.isVisible b,
   ButtonState.preferredSize b, ButtonState.m_padding b,
   ButtonState.m_offset b, ButtonState.m_iconSize b, ButtonState.m_flag b,
   ButtonState.m_animation b, ButtonState.m_opacity b).

(** What the layout of the library does to a button: it moves it. *)
Definition moved (b b' : ButtonState.t) : Prop :=
  fields b' = fields b /\ ButtonState.size b' = ButtonState.size b.

(** The members of a button [updateButtonsGeometry] never writes. *)
Definition core (b : ButtonState.t) :=
  (ButtonState.type b, ButtonState.isHovered b, ButtonState.isPressed b,
   ButtonState.isChecked b, ButtonState.isVisible b,
   ButtonState.preferredSize b, ButtonState.m_animation b,
   ButtonState.m_opacity b).

(** What an edge block of [updateButtonsGeometry] does to the button at
    the screen edge: it makes it [dx] wider and flags it. *)
Definition widened (dx : qreal) (b b' : ButtonState.t) : Prop :=
  core b' = core b
  /\ ButtonState.m_flag b' = ButtonState.FlagFirstInList
  /\ rw (ButtonState.geometry b') == rw (ButtonState.geometry b) + dx
  /\ rh (ButtonState.geometry b') == rh (ButtonState.geometry b)
  /\ mtop (ButtonState.m_padding b') = mtop (ButtonState.m_padding b)
  /\ ButtonState.m_offset b' = ButtonState.m_offset b.

(** What [updateButtonsGeometry] keeps of a button: everything but its
    geometry, padding, offset and icon size; its flag is kept or becomes
    [FlagFirstInList]. *)
Definition sameButton (b b' : ButtonState.t) : Prop :=
  ButtonState.type b' = ButtonState.type b
  /\ ButtonState.isHovered b' = ButtonState.isHovered b
  /\ ButtonState.isPressed b' = ButtonState.isPressed b
  /\ ButtonState.isChecked b' = ButtonState.isChecked b
  /\ ButtonState.isVisible b' = ButtonState.isVisible b
  /\ ButtonState.preferredSize b' = ButtonState.preferredSize b
  /\ ButtonState.m_animation b' = ButtonState.m_animation b
  /\ ButtonState.m_opacity b' = ButtonState.m_opacity b
  /\ (ButtonState.m_flag b' = ButtonState.m_flag b
      \/ ButtonState.m_flag b' = ButtonState.FlagFirstInList).

(** Two lists are related element by element, the relation knowing the
    index. *)
Definition pointwise {A : Type} (R : nat -> A -> A -> Prop) (l l' : list A)
  : Prop :=
  List.length l' = List.length l
  /\ forall j b b',
      nth_error l j = Some b -> nth_error l' j = Some b' -> R j b b'.

Section Passes.

Context (M : Metrics).

(** The quantities of [updateButtonsGeometry]. *)
Definition verticalOffset (h : Decoration.Host) : Z :=
  if Decoration.isTopEdge h
  then (smallSpacing (Decoration.settings h) * TitleBar_TopMargin M)%Z
  else 0%Z.

Definition vPadding (h : Decoration.Host) : Z :=
  if Decoration.isTopEdge h then 0%Z
  else (smallSpacing (Decoration.settings h) * TitleBar_TopMargin M)%Z.

Definition hPadding (h : Decoration.Host) : Z :=
  (smallSpacing (Decoration.settings h) * TitleBar_SideMargin M)%Z.

Definition bWidth (b : ButtonState.t) : Z :=
  to_int (sw (ButtonState.preferredSize b)).

Definition bHeight (h : Decoration.Host) (b : ButtonState.t) : Z :=
  to_int (sh (ButtonState.preferredSize b) + of_int (verticalOffset h)).

(** What the loop of [updateButtonsGeometry] establishes for a button. *)
Definition sized (h : Decoration.Host) (b : ButtonState.t) : Prop :=
  rw (ButtonState.geometry b) == of_int (bWidth b)
  /\ rh (ButtonState.geometry b) == of_int (bHeight h b)
  /\ ButtonState.m_padding b = mkMargins 0 (of_int (verticalOffset h)) 0 0
  /\ ButtonState.m_offset b = mkPoint 0 (of_int (verticalOffset h)).

(** What [updateButtonsGeometry] establishes for a button, from the
    button [b] it started with to the button [b'] it ends with;
    [widened] tells whether the button is the one at the screen edge. *)
Definition arranged (h : Decoration.Host) (widened : bool)
           (b b' : ButtonState.t) : Prop :=
  core b' = core b
  /\ ButtonState.m_flag b'
     = (if widened then ButtonState.FlagFirstInList else ButtonState.m_flag b)
  /\ rw (ButtonState.geometry b')
     == of_int (bWidth b) + (if widened then of_int (hPadding h) else 0)
  /\ rh (ButtonState.geometry b') == of_int (bHeight h b)
  /\ mtop (ButtonState.m_padding b') = of_int (verticalOffset h)
  /\ ButtonState.m_offset b' = mkPoint 0 (of_int (verticalOffset h)).

(** The calls both edge blocks of [updateButtonsGeometry] make on the
    button at the screen edge, the [k]-th of the group: [dx1] and [dx2] are
    the arguments of [QRectF::adjust], [sidePadding] the call that sets
    the padding of that side. *)
Definition widen (layoutDirection : LayoutDirection)
           (g : DecorationButtonGroup.t) (k : nat) (dx1 dx2 : qreal)
           (sidePadding : ButtonState.t -> ButtonState.t)
  : DecorationButtonGroup.t :=
  match nth_error (DecorationButtonGroup.buttons g) k with
  | None => g
  | Some button =>
      let geometry := adjusted (ButtonState.geometry button) dx1 0 dx2 0 in
      let g := DecorationButtonGroup.setButtonGeometry layoutDirection
                 g k geometry in
      let g := DecorationButtonGroup.onButton g k
                 (fun button =>
                    ButtonState.setFlag button ButtonState.FlagFirstInList) in
      let g := DecorationButtonGroup.onButton g k sidePadding in
      DecorationButtonGroup.onButton g k
        (fun button =>
           ButtonState.setIconSize button (ButtonState.preferredSize button))
  end.

End Passes.

End Layout.

(* ------------------------------------------------------------------ *)
(** ** Concrete inputs

    A host library, the constants of [glass.h] and one decorated window,
    used to evaluate the definitions above on explicit inputs. *)

Module Sample.

(** [std::round]: halves are rounded away from zero. *)
Definition round (x : qreal) : Z :=
  if Qltb x 0 then (- Qfloor (- x + (1 # 2)))%Z else Qfloor (x + (1 # 2)).

(** The scale helpers of KDecoration3. *)
Definition snapToPixelGrid (value scale : qreal) : qreal :=
  of_int (round (value * scale)) / scale.

Definition pixelSize (scale : qreal) : qreal := 1 / scale.

(** A linear blend of the channels, standing in for [KColorUtils::mix]. *)
Definition blend (x y : Z) (bias : qreal) : Z :=
  to_int (of_int x + (of_int y - of_int x) * bias).

Definition mix (c1 c2 : QColor) (bias : qreal) : QColor :=
  if Qle_bool bias 0 then c1
  else if Qle_bool 1 bias then c2
  else match c1, c2 with
       | Rgba r1 g1 b1 a1, Rgba r2 g2 b2 a2 =>
           Rgba (blend r1 r2 bias) (blend g1 g2 bias) (blend b1 b2 bias)
                (blend a1 a2 bias)
       | _, _ => InvalidColor
       end.

Definition lib : HostLib := mkHostLib snapToPixelGrid pixelSize mix.

Definition metrics : Metrics := mkMetrics 2 2 2 2 (101 # 100) 16.

Definition colors (g : ColorGroup) (r : ColorRole) : QColor :=
  match g, r with
  | Active, TitleBar => Rgba 49 54 59 255
  | Active, Foreground => Rgba 252 252 252 255
  | Active, Frame => Rgba 61 174 233 255
  | _, TitleBar => Rgba 42 46 50 255
  | _, Foreground => Rgba 161 169 177 255
  | _, Frame => Rgba 35 38 41 255
  end.

Definition window (active shaded : bool) (caption : string) : DecoratedWindow :=
  mkWindow active shaded 800 1 1 caption colors (Rgba 61 174 233 255).

(** Every character of the caption is 8 units wide. *)
Definition boundingRect (text : string) : QRectF :=
  mkRect 0 (-14) (of_int (8 * Z.of_nat (String.length text))) 18.

Definition settings (border : BorderSize.t) (alpha : bool) : DecorationSettings :=
  mkSettings 4 8 18 border alpha 18 boundingRect.

Definition internalSettings
           (mask : Z) (border : InternalSettings.EnumBorderSize)
           (alignment : InternalSettings.EnumTitleAlignment)
  : InternalSettings.t :=
  InternalSettings.mkInternalSettings
    mask border InternalSettings.ButtonDefault 6 true 200 alignment false false.

Definition animation (s : QAbstractAnimation.State)
           (dir : QAbstractAnimation.Direction) (time : Z)
  : QAbstractAnimation.QVariantAnimation :=
  QAbstractAnimation.mkAnimation s dir time 200
    QAbstractAnimation.InOutQuad None.

Definition button (type : DecorationButtonType) (hovered pressed checked : bool)
  : ButtonState.t :=
  ButtonState.mkButton type hovered pressed checked true
    (mkRect 0 0 36 36) (mkSize 36 36) (mkMargins 0 0 0 0) (mkPoint 0 0)
    (mkSize 36 36) ButtonState.FlagNone
    (animation QAbstractAnimation.Stopped QAbstractAnimation.Forward 0) 0.

Definition leftGroup : DecorationButtonGroup.t :=
  DecorationButtonGroup.mkGroup
    [button Menu false false false; button OnAllDesktops false false false]
    (mkPoint 8 0) 8 (mkSize 80 36).

Definition rightGroup : DecorationButtonGroup.t :=
  DecorationButtonGroup.mkGroup
    [button Minimize false false false; button Maximize false false false;
     button Close false false false]
    (mkPoint 668 0) 8 (mkSize 124 36).

Definition host (w : DecoratedWindow) (s : DecorationSettings)
           (hidden leftEdge rightEdge : bool) : Decoration.Host :=
  Decoration.mkHost w s (mkSize 800 600) hidden false false false
                    leftEdge rightEdge false false false.

Definition decoration (h : Decoration.Host) (i : option InternalSettings.t)
           (a : QAbstractAnimation.QVariantAnimation) (opacity : qreal)
  : Decoration.t :=
  Decoration.mkDecoration h i a opacity nullRect EmptyPath EmptyPath
    leftGroup rightGroup (mkMargins 4 44 4 4) (mkMargins 0 0 0 0)
    (mkRect 8 8 784 36).

(** An active window with the theme's defaults. *)
Definition plain : Decoration.t :=
  decoration
    (host (window true false "Glass") (settings BorderSize.Normal true)
          false false false)
    (Some (internalSettings 0 InternalSettings.BorderNormal
                            InternalSettings.AlignCenterFullWidth))
    (animation QAbstractAnimation.Stopped QAbstractAnimation.Forward 0) 1.


(** A theme that overrides the border size with "no sides". *)
Definition themed : Decoration.t :=
  decoration
    (host (window true false "Glass") (settings BorderSize.Normal true)
          false false false)
    (Some (internalSettings 16 InternalSettings.BorderNoSides
                            InternalSettings.AlignCenterFullWidth))
    (animation QAbstractAnimation.Stopped QAbstractAnimation.Forward 0) 1.


(** The same window with its title bar hidden. *)
Definition hidden : Decoration.t :=
  decoration
    (host (window true false "Glass") (settings BorderSize.Normal true)
          true false false)
    (Some (internalSettings 0 InternalSettings.BorderNormal
                            InternalSettings.AlignCenterFullWidth))
    (animation QAbstractAnimation.Running QAbstractAnimation.Forward 50)
    (1 # 8).

(** A shaded window, with and without rounded corners. *)
Definition shaded (alpha : bool) : Decoration.t :=
  decoration
    (host (window true true "Glass") (settings BorderSize.Normal alpha)
          false false false)
    (Some (internalSettings 0 InternalSettings.BorderNormal
                            InternalSettings.AlignCenterFullWidth))
    (animation QAbstractAnimation.Stopped QAbstractAnimation.Forward 0) 1.

(** An inactive window. *)
Definition inactive : Decoration.t :=
  decoration
    (host (window false false "Glass") (settings BorderSize.Normal true)
          false false false)
    (Some (internalSettings 0 InternalSettings.BorderNormal
                            InternalSettings.AlignCenterFullWidth))
    (animation QAbstractAnimation.Stopped QAbstractAnimation.Backward 0) 0.


(** A window that lost focus 50 ms into its activation animation. *)
Definition deactivated : Decoration.t :=
  decoration
    (host (window false false "Glass") (settings BorderSize.Normal true)
          false false false)
    (Some (internalSettings 0 InternalSettings.BorderNormal
                            InternalSettings.AlignCenterFullWidth))
    (animation QAbstractAnimation.Running QAbstractAnimation.Forward 50)
    (1 # 8).

(** A button the pointer left 50 ms into its hover animation. *)
Definition leftButton : ButtonState.t :=
  ButtonState.mkButton Shade false false false true
    (mkRect 0 0 36 36) (mkSize 36 36) (mkMargins 0 0 0 0) (mkPoint 0 0)
    (mkSize 36 36) ButtonState.FlagNone
    (animation QAbstractAnimation.Running QAbstractAnimation.Forward 50)
    (1 # 8).

(** The host reports a change of the window's activity. *)
Definition setActive (d : Decoration.t) (active : bool) : Decoration.t :=
  let h := Decoration.host d in
  let w := Decoration.window h in
  Decoration.mkDecoration
    (Decoration.mkHost
       (mkWindow active (isShaded w) (width w) (scale w) (nextScale w)
                 (caption w) (color w) (palette_Highlight w))
       (Decoration.settings h) (Decoration.size h)
       (Decoration.hideTitleBar h) (Decoration.isMaximized h)
       (Decoration.isMaximizedHorizontally h)
       (Decoration.isMaximizedVertically h) (Decoration.isLeftEdge h)
       (Decoration.isRightEdge h) (Decoration.isTopEdge h)
       (Decoration.hasNoBorders h) (Decoration.hasNoSideBorders h))
    (Decoration.m_internalSettings d) (Decoration.m_animation d)
    (Decoration.m_opacity d) (Decoration.m_titleRect d)
    (Decoration.m_titleBarPath d) (Decoration.m_windowPath d)
    (Decoration.m_leftButtons d) (Decoration.m_rightButtons d)
    (Decoration.borders d) (Decoration.resizeOnlyBorders d)
    (Decoration.titleBar d).


(** A window tiled against the left and the right screen edge. *)
Definition tiled : Decoration.t :=
  decoration
    (host (window true false "Glass") (settings BorderSize.Normal true)
          false true true)
    (Some (internalSettings 0 InternalSettings.BorderNormal
                            InternalSettings.AlignCenterFullWidth))
    (animation QAbstractAnimation.Stopped QAbstractAnimation.Forward 0) 1.

(** Captions of 117 and 76 characters: 936 and 608 units wide. *)
Definition longCaption : string :=
  "A caption that is so long that it neither fits between the button groups nor into the whole width of the title bar  .".

Definition mediumCaption : string :=
  "A caption that fits into the window, not between the buttons when centred.  ".

Definition captioned (text : string)
           (alignment : InternalSettings.EnumTitleAlignment) : Decoration.t :=
  decoration
    (host (window true false text) (settings BorderSize.Normal true)
          false false false)
    (Some (internalSettings 0 InternalSettings.BorderNormal alignment))
    (animation QAbstractAnimation.Stopped QAbstractAnimation.Forward 0) 1.


(** The shapes on the canvas of a painter, each with the pen it was
    drawn with. *)
Definition drawnShapes (p : option QPainter.t)
  : option (list (QPainter.Shape * QPainter.QPen)) :=
  option_map
    (fun p' => map (fun g => (QPainter.shape g, QPainter.drawnPen g))
                   (QPainter.canvas p'))
    p.


(** A window whose separator is drawn, 50 ms into its activation. *)
Definition separated : Decoration.t :=
  decoration
    (host (window true false "Glass") (settings BorderSize.Normal true)
          false false false)
    (Some (InternalSettings.mkInternalSettings
             0 InternalSettings.BorderNormal InternalSettings.ButtonDefault 6
             true 200 InternalSettings.AlignCenterFullWidth false true))
    (animation QAbstractAnimation.Running QAbstractAnimation.Forward 50)
    (1 # 8).

(** A maximized window. *)
Definition maximized : Decoration.t :=
  Decoration.mkDecoration
    (Decoration.mkHost (window true false "Glass")
                       (settings BorderSize.Normal true) (mkSize 800 600)
                       false true true true true true true false false)
    (Some (internalSettings 0 InternalSettings.BorderNormal
                            InternalSettings.AlignCenterFullWidth))
    (animation QAbstractAnimation.Stopped QAbstractAnimation.Forward 0) 1
    nullRect EmptyPath EmptyPath leftGroup rightGroup
    (mkMargins 0 44 0 0) (mkMargins 0 0 0 0) (mkRect 0 0 800 44).


(** A window that has just become active, with animations of duration 0. *)
Definition instant : Decoration.t :=
  decoration
    (host (window true false "Glass") (settings BorderSize.Normal true)
          false false false)
    (Some (internalSettings 0 InternalSettings.BorderNormal
                            InternalSettings.AlignCenterFullWidth))
    (QAbstractAnimation.mkAnimation
       QAbstractAnimation.Stopped QAbstractAnimation.Backward 0 0
       QAbstractAnimation.InOutQuad None)
    0.

(** A window 50 ms before the end of its deactivation. *)
Definition fading : Decoration.t :=
  decoration
    (host (window false false "Glass") (settings BorderSize.Normal true)
          false false false)
    (Some (internalSettings 0 InternalSettings.BorderNormal
                            InternalSettings.AlignCenterFullWidth))
    (animation QAbstractAnimation.Running QAbstractAnimation.Backward 50)
    (1 # 8).


(** A spacer button. *)
Definition spacer : ButtonState.t := button Spacer false false false.

(** A button of the sample theme where the layout of its group has put
    it. *)
Definition buttonAt (type : DecorationButtonType) (x y : qreal)
  : ButtonState.t :=
  ButtonState.mkButton type false false false true
    (mkRect x y 36 36) (mkSize 36 36) (mkMargins 0 0 0 0) (mkPoint 0 0)
    (mkSize 36 36) ButtonState.FlagNone
    (animation QAbstractAnimation.Stopped QAbstractAnimation.Forward 0) 0.

(** The two groups laid out by the library, 8 units between the
    buttons. *)
Definition leftRow : DecorationButtonGroup.t :=
  DecorationButtonGroup.mkGroup
    [buttonAt Menu 12 8; buttonAt OnAllDesktops 56 8]
    (mkPoint 12 8) 8 (mkSize 80 36).

Definition rightRow : DecorationButtonGroup.t :=
  DecorationButtonGroup.mkGroup
    [buttonAt Minimize 664 8; buttonAt Maximize 708 8; buttonAt Close 752 8]
    (mkPoint 664 8) 8 (mkSize 124 36).

(** The sample window with its groups laid out, each side at a screen
    edge or away from it. *)
Definition arranged (leftEdge rightEdge : bool) : Decoration.t :=
  Decoration.mkDecoration
    (host (window true false "Glass") (settings BorderSize.Normal true)
          false leftEdge rightEdge)
    (Some (internalSettings 0 InternalSettings.BorderNormal
                            InternalSettings.AlignCenterFullWidth))
    (animation QAbstractAnimation.Stopped QAbstractAnimation.Forward 0) 1
    nullRect EmptyPath EmptyPath leftRow rightRow
    (mkMargins 4 44 4 4) (mkMargins 0 0 0 0) (mkRect 8 8 784 36).

(** The geometry and the flag of the buttons of a group. *)
Definition placement (g : DecorationButtonGroup.t)
  : list (QRectF * ButtonState.Flag) :=
  map (fun b => (ButtonState.geometry b, ButtonState.m_flag b))
      (DecorationButtonGroup.buttons g).

End Sample.

(* ------------------------------------------------------------------ *)
(** * Properties *)

(** ** Arithmetic helpers *)

Lemma Qltb_spec (x y : Q) : Qltb x y = true <-> x < y.
Proof.
  unfold Qltb. rewrite Qlt_alt. destruct (x ?= y); split; congruence.
Qed.

Lemma Qltb_false (x y : Q) : Qltb x y = false <-> y <= x.
Proof.
  rewrite <- Bool.not_true_iff_false, Qltb_spec. split.
  - apply Qnot_lt_le.
  - apply Qle_not_lt.
Qed.

Lemma to_int_of_int (n : Z) : to_int (of_int n) = n.
Proof. unfold to_int, of_int; simpl. apply Z.quot_1_r. Qed.

(** ** Borders *)

Section Borders.

Context (M : Metrics) (K : HostLib).

Import Decoration.

(** C3.  For every display scale and theme, with
    [base = max(pixelSize, snapped smallSpacing)]: category None gives 0
    for bottom and sides; NoSides gives sides 0 and bottom the snapped
    [max(4, base)]; Tiny, and any value outside the enumeration, gives
    that same bottom and sides [base] (unsnapped, [base] times 1); Normal,
    Large, VeryLarge, Huge, VeryHuge and Oversized give bottom = sides =
    [base] times 2, 3, 4, 5, 6 and 10.  This holds for the theme's own
    category when its mask selects it and for the host's category
    otherwise. *)
Theorem borderSize_by_category (d : Decoration.t) (scale : qreal) :
  let base :=
    Qmax (pixelSize K scale)
         (snapToPixelGrid K (of_int (smallSpacing (settings (host d)))) scale) in
  let snapped := snapToPixelGrid K (Qmax 4 base) scale in
  let bottom := borderSize M K d true scale in
  let sides := borderSize M K d false scale in
  (forall i,
      m_internalSettings d = Some i ->
      Z.land (InternalSettings.mask i) (Mask_BorderSize M) <> 0%Z ->
      match InternalSettings.borderSize i with
      | InternalSettings.BorderNone => bottom = 0 /\ sides = 0
      | InternalSettings.BorderNoSides => bottom = snapped /\ sides = 0
      | InternalSettings.BorderTiny
      | InternalSettings.BorderUnmapped =>
          bottom = snapped /\ sides = base /\ sides == base * 1
      | InternalSettings.BorderNormal => bottom = base * 2 /\ sides = base * 2
      | InternalSettings.BorderLarge => bottom = base * 3 /\ sides = base * 3
      | InternalSettings.BorderVeryLarge => bottom = base * 4 /\ sides = base * 4
      | InternalSettings.BorderHuge => bottom = base * 5 /\ sides = base * 5
      | InternalSettings.BorderVeryHuge => bottom = base * 6 /\ sides = base * 6
      | InternalSettings.BorderOversized => bottom = base * 10 /\ sides = base * 10
      end)
  /\
  ((m_internalSettings d = None
    \/ exists i, m_internalSettings d = Some i
                 /\ Z.land (InternalSettings.mask i) (Mask_BorderSize M) = 0%Z) ->
   match KDecoration3.borderSize (settings (host d)) with
   | BorderSize.None => bottom = 0 /\ sides = 0
   | BorderSize.NoSides => bottom = snapped /\ sides = 0
   | BorderSize.Tiny
   | BorderSize.Unmapped =>
       bottom = snapped /\ sides = base /\ sides == base * 1
   | BorderSize.Normal => bottom = base * 2 /\ sides = base * 2
   | BorderSize.Large => bottom = base * 3 /\ sides = base * 3
   | BorderSize.VeryLarge => bottom = base * 4 /\ sides = base * 4
   | BorderSize.Huge => bottom = base * 5 /\ sides = base * 5
   | BorderSize.VeryHuge => bottom = base * 6 /\ sides = base * 6
   | BorderSize.Oversized => bottom = base * 10 /\ sides = base * 10
   end).
Proof.
  intros base snapped bottom sides. split.
  - intros i Hi Hmask.
    apply Z.eqb_neq in Hmask.
    subst bottom sides. unfold borderSize. rewrite Hi, Hmask. simpl negb. cbv iota.
    fold base. fold snapped.
    destruct (InternalSettings.borderSize i); repeat split; ring.
  - intros Hsrc.
    assert (Hsel : forall bottom',
               borderSize M K d bottom' scale =
               match KDecoration3.borderSize (settings (host d)) with
               | BorderSize.None => 0
               | BorderSize.NoSides => if bottom' then snapped else 0
               | BorderSize.Unmapped
               | BorderSize.Tiny => if bottom' then snapped else base
               | BorderSize.Normal => base * 2
               | BorderSize.Large => base * 3
               | BorderSize.VeryLarge => base * 4
               | BorderSize.Huge => base * 5
               | BorderSize.VeryHuge => base * 6
               | BorderSize.Oversized => base * 10
               end).
    { intros bottom'. unfold borderSize.
      destruct Hsrc as [Hnone | [i [Hi Hmask]]].
      - rewrite Hnone. reflexivity.
      - apply Z.eqb_eq in Hmask. rewrite Hi, Hmask. reflexivity. }
    subst bottom sides. rewrite !Hsel.
    destruct (KDecoration3.borderSize (settings (host d)));
      repeat split; ring.
Qed.

End Borders.

Section BordersWitness.

Import Decoration.

Lemma borderSize_by_category_witness :
  (borderSize Sample.metrics Sample.lib Sample.themed true 1
   = Sample.snapToPixelGrid
       (Qmax 4 (Qmax (Sample.pixelSize 1) (Sample.snapToPixelGrid (of_int 4) 1))) 1
   /\ borderSize Sample.metrics Sample.lib Sample.themed false 1 = 0)
  /\
  (borderSize Sample.metrics Sample.lib Sample.plain true 1
   = Qmax (Sample.pixelSize 1) (Sample.snapToPixelGrid (of_int 4) 1) * 2
   /\ borderSize Sample.metrics Sample.lib Sample.plain false 1
      = Qmax (Sample.pixelSize 1) (Sample.snapToPixelGrid (of_int 4) 1) * 2).
Proof.
  split.
  - refine (proj1 (borderSize_by_category Sample.metrics Sample.lib Sample.themed 1)
                  _ eq_refl _).
    vm_compute. discriminate.
  - refine (proj2 (borderSize_by_category Sample.metrics Sample.lib Sample.plain 1) _).
    right. eexists. split; reflexivity.
Defined.

End BordersWitness.

Section TitleBarHeight.

Context (M : Metrics) (K : HostLib).

Import Decoration.

Lemma buttonSize_total (d : Decoration.t) (i : InternalSettings.t) :
  m_internalSettings d = Some i -> exists bs, buttonSize d = Some bs.
Proof.
  intros Hi. unfold buttonSize. rewrite Hi. simpl. eexists. reflexivity.
Qed.

(** C8.  [recalculateBorders] with a hidden title bar makes the top border
    equal to the bottom border; with a visible title bar the top border is
    the snapped [max(font height, button size)] plus the snapped
    [2 * smallSpacing * TitleBar_BottomMargin]. *)
Theorem recalculateBorders_top (d : Decoration.t) :
  let s := settings (host d) in
  let scale := nextScale (window (host d)) in
  (hideTitleBar (host d) = true ->
   exists d', recalculateBorders M K d = Some d'
              /\ borderTop d' = borderBottom d')
  /\
  (hideTitleBar (host d) = false ->
   forall i, m_internalSettings d = Some i ->
   exists d' bs,
     recalculateBorders M K d = Some d'
     /\ buttonSize d = Some bs
     /\ borderTop d'
        == snapToPixelGrid K (of_int (Z.max (font_height s) bs)) scale
           + snapToPixelGrid K
               (of_int (2 * smallSpacing s * TitleBar_BottomMargin M)) scale).
Proof.
  intros s scale. split.
  - intros Hhide. unfold recalculateBorders. rewrite Hhide. simpl.
    eexists. split; reflexivity.
  - intros Hhide i Hi.
    destruct (buttonSize_total d i Hi) as [bs Hbs].
    assert (Hpad : (2 * smallSpacing s * TitleBar_BottomMargin M
                    = smallSpacing s * 2 * TitleBar_BottomMargin M)%Z) by ring.
    rewrite Hpad. clear Hpad.
    unfold recalculateBorders. rewrite Hhide, Hbs.
    cbv beta iota zeta delta [bind].
    eexists. exists bs. split; [reflexivity |]. split; [reflexivity |].
    unfold borderTop, setResizeOnlyBorders, setBorders.
    cbv beta iota delta [borders mtop].
    subst s scale. ring.
Qed.

End TitleBarHeight.

Section TitleBarHeightWitness.

Import Decoration.

Lemma recalculateBorders_top_witness :
  (exists d',
      recalculateBorders Sample.metrics Sample.lib Sample.hidden = Some d'
      /\ borderTop d' = borderBottom d')
  /\
  (exists d' bs,
      recalculateBorders Sample.metrics Sample.lib Sample.plain = Some d'
      /\ buttonSize Sample.plain = Some bs
      /\ borderTop d'
         == Sample.snapToPixelGrid (of_int (Z.max 18 bs)) 1
            + Sample.snapToPixelGrid (of_int (2 * 4 * 2)) 1).
Proof.
  split.
  - exact (proj1 (recalculateBorders_top Sample.metrics Sample.lib Sample.hidden)
                 eq_refl).
  - exact (proj2 (recalculateBorders_top Sample.metrics Sample.lib Sample.plain)
                 eq_refl _ eq_refl).
Defined.

Example recalculateBorders_plain :
  option_map borders
    (recalculateBorders Sample.metrics Sample.lib Sample.plain)
  = Some (mkMargins (4 * 2) (0 + (36 / 1) + (16 / 1)) (4 * 2) (4 * 2)).
Proof. vm_compute. reflexivity. Qed.

End TitleBarHeightWitness.

(** ** Outlines *)

Section Shapes.

Import Decoration.

(** C4.  After [calculateWindowAndTitleBarShapes] on a shaded window the
    window outline is the title-bar outline, whatever the maximized flag,
    the alpha-channel flag and the [windowShapeOnly] argument are; the
    call succeeds whenever the theme configuration is loaded or no corner
    radius is needed. *)
Theorem shaded_window_path_is_title_bar_path
        (d : Decoration.t) (windowShapeOnly : bool) :
  isShaded (window (host d)) = true ->
  (forall d',
      calculateWindowAndTitleBarShapes d windowShapeOnly = Some d' ->
      m_windowPath d' = m_titleBarPath d')
  /\
  ((m_internalSettings d <> None
    \/ isMaximized (host d) = true
    \/ isAlphaChannelSupported (settings (host d)) = false) ->
   exists d', calculateWindowAndTitleBarShapes d windowShapeOnly = Some d').
Proof.
  intros Hshaded. unfold calculateWindowAndTitleBarShapes.
  rewrite Hshaded, Bool.orb_true_r. cbn [negb].
  split.
  - intros d'.
    destruct (isMaximized (host d) || negb (isAlphaChannelSupported (settings (host d)))).
    + cbn. intros [= <-]. reflexivity.
    + destruct (m_internalSettings d); cbn; [| discriminate].
      intros [= <-]. reflexivity.
  - intros Hok.
    destruct (isMaximized (host d)) eqn:Hmax; cbn.
    + eexists; reflexivity.
    + destruct (isAlphaChannelSupported (settings (host d))) eqn:Halpha; cbn.
      * destruct (m_internalSettings d) eqn:Hi; cbn.
        -- eexists; reflexivity.
        -- destruct Hok as [Hne | [Hm | Ha]]; congruence.
      * eexists; reflexivity.
Qed.

(** When the window is maximized or the host has no alpha channel, both
    outlines are plain rectangles. *)
Lemma rectangular_outlines (d d' : Decoration.t) :
  isMaximized (host d) || negb (isAlphaChannelSupported (settings (host d))) = true ->
  calculateWindowAndTitleBarShapes d false = Some d' ->
  m_titleBarPath d' = addRect EmptyPath (m_titleRect d')
  /\ (isShaded (window (host d)) = false ->
      m_windowPath d' = addRect EmptyPath (rect d)).
Proof.
  intros Hplain. unfold calculateWindowAndTitleBarShapes.
  cbn [negb orb]. rewrite Hplain. cbn.
  destruct (isShaded (window (host d))); cbn.
  - intros [= <-]. split; [reflexivity | discriminate].
  - replace (isAlphaChannelSupported (settings (host d))
             && negb (isMaximized (host d))) with false.
    + intros [= <-]. split; reflexivity.
    + destruct (isMaximized (host d)),
        (isAlphaChannelSupported (settings (host d))); simpl in *; congruence.
Qed.

End Shapes.

Section ShapesWitness.

Import Decoration.

Lemma shaded_window_path_is_title_bar_path_witness :
  (forall d',
      calculateWindowAndTitleBarShapes (Sample.shaded true) false = Some d' ->
      m_windowPath d' = m_titleBarPath d')
  /\ exists d', calculateWindowAndTitleBarShapes (Sample.shaded true) false = Some d'.
Proof.
  destruct (shaded_window_path_is_title_bar_path (Sample.shaded true) false eq_refl)
    as [Hsame Hruns].
  split; [exact Hsame |].
  apply Hruns. left. discriminate.
Defined.

Example shaded_rounded_outline :
  option_map m_windowPath
    (calculateWindowAndTitleBarShapes (Sample.shaded true) true)
  = Some (addRoundedRect EmptyPath (intRect 0 0 800 44) (of_int 6) (of_int 6)).
Proof. reflexivity. Qed.

Example shaded_plain_outline :
  option_map m_windowPath
    (calculateWindowAndTitleBarShapes (Sample.shaded false) true)
  = Some (addRect EmptyPath (intRect 0 0 800 44)).
Proof. reflexivity. Qed.

End ShapesWitness.

(** ** Colours *)

Section Colours.

Context (K : HostLib).

Import Decoration ButtonState.

Lemma State_eqb_eq (a b : QAbstractAnimation.State) :
  QAbstractAnimation.State_eqb a b = true <-> a = b.
Proof. destruct a, b; simpl; split; congruence. Qed.

Lemma State_eqb_neq (a b : QAbstractAnimation.State) :
  QAbstractAnimation.State_eqb a b = false <-> a <> b.
Proof. destruct a, b; simpl; split; congruence. Qed.

(** C10.  With a hidden title bar [titleBarColor] is the host's inactive
    title-bar colour, whether or not the window is active and whether or
    not the animation runs; the cross-fade of the inactive and the active
    colour is returned only for a visible title bar whose animation runs,
    and a visible title bar at rest has the colour of its activity. *)
Theorem titleBarColor_hidden (d : Decoration.t) :
  let c := window (host d) in
  let a := Decoration.m_animation d in
  (hideTitleBar (host d) = true ->
   titleBarColor K d = color c Inactive TitleBar)
  /\
  (hideTitleBar (host d) = false ->
   QAbstractAnimation.state a = QAbstractAnimation.Running ->
   titleBarColor K d
   = mix K (color c Inactive TitleBar) (color c Active TitleBar)
         (Decoration.m_opacity d))
  /\
  (hideTitleBar (host d) = false ->
   QAbstractAnimation.state a <> QAbstractAnimation.Running ->
   titleBarColor K d
   = color c (if isActive c then Active else Inactive) TitleBar).
Proof.
  intros c a. unfold titleBarColor. fold c. fold a.
  split; [| split].
  - intros ->. reflexivity.
  - intros -> ->. reflexivity.
  - intros -> Hrest. apply State_eqb_neq in Hrest. rewrite Hrest. reflexivity.
Qed.

Lemma inactive_background (d : Decoration.t) (b : ButtonState.t) :
  isActive (window (host d)) = false ->
  Button.backgroundColor K (Some d) b
  = match type b with
    | Close | Minimize | Maximize => setAlpha LightGray 128
    | _ => InvalidColor
    end.
Proof.
  intros Hinactive. unfold Button.backgroundColor. rewrite Hinactive.
  destruct (type b); reflexivity.
Qed.

(** C9.  While the window is inactive (and the button is not pressed) the
    background of a Close, Minimize or Maximize button is light gray at
    alpha 128, the same for a hovered and for an unhovered button; every
    other button type has the invalid colour. *)
Theorem backgroundColor_inactive (d : Decoration.t) (b : ButtonState.t) :
  isActive (window (host d)) = false ->
  isPressed b = false ->
  Button.backgroundColor K (Some d) b
  = match type b with
    | Close | Minimize | Maximize => Rgba 192 192 192 128
    | _ => InvalidColor
    end.
Proof.
  intros Hinactive _. rewrite inactive_background by assumption.
  destruct (type b); reflexivity.
Qed.

(** The background of a button of an inactive window depends on the type
    of the button alone: not on hover, not on the pressed state. *)
Corollary backgroundColor_inactive_ignores_hover
          (d : Decoration.t) (b1 b2 : ButtonState.t) :
  isActive (window (host d)) = false ->
  type b1 = type b2 ->
  Button.backgroundColor K (Some d) b1 = Button.backgroundColor K (Some d) b2.
Proof.
  intros Hinactive Htype.
  rewrite !inactive_background by assumption.
  rewrite Htype. reflexivity.
Qed.

(** C5.  The foreground colour of a button follows this precedence:
    pressed, then an outlined Close button, then a checked
    KeepBelow/KeepAbove/Shade button (each the title-bar colour), then a
    running animation (the font colour cross-faded with the title-bar
    colour by the button's progress), then hovered (title-bar colour);
    otherwise the font colour. *)
Theorem foregroundColor_precedence
        (d : Decoration.t) (i : InternalSettings.t) (b : ButtonState.t) :
  Decoration.m_internalSettings d = Some i ->
  let titleBar := titleBarColor K d in
  let font := fontColor d in
  let outlinedClose :=
    match type b with
    | Close => InternalSettings.outlineCloseButton i
    | _ => false
    end in
  let checkedToggle :=
    match type b with
    | KeepBelow | KeepAbove | Shade => isChecked b
    | _ => false
    end in
  Button.foregroundColor K (Some d) b
  = Some (if isPressed b then titleBar
          else if outlinedClose then titleBar
          else if checkedToggle then titleBar
          else if QAbstractAnimation.State_eqb
                    (QAbstractAnimation.state (m_animation b))
                    QAbstractAnimation.Running
          then mix K font titleBar (m_opacity b)
          else if isHovered b then titleBar
          else font).
Proof.
  intros Hi titleBar font outlinedClose checkedToggle.
  unfold Button.foregroundColor. rewrite Hi.
  subst outlinedClose checkedToggle.
  destruct (isPressed b); [reflexivity |].
  destruct (type b); cbn [bind andb];
    repeat match goal with
           | |- context [if ?c then _ else _] => destruct c; try reflexivity
           end.
Qed.

End Colours.

Section ColoursWitness.

Import Decoration ButtonState.

Lemma titleBarColor_hidden_witness :
  titleBarColor Sample.lib Sample.hidden = Rgba 42 46 50 255
  /\ titleBarColor Sample.lib Sample.plain = Rgba 49 54 59 255.
Proof.
  split.
  - exact (proj1 (titleBarColor_hidden Sample.lib Sample.hidden) eq_refl).
  - refine (proj2 (proj2 (titleBarColor_hidden Sample.lib Sample.plain))
                  eq_refl _).
    discriminate.
Defined.

Lemma backgroundColor_inactive_witness :
  Button.backgroundColor Sample.lib (Some Sample.inactive)
                         (Sample.button Close true false false)
  = Rgba 192 192 192 128
  /\ Button.backgroundColor Sample.lib (Some Sample.inactive)
                            (Sample.button Shade true false false)
     = InvalidColor.
Proof.
  split.
  - exact (backgroundColor_inactive Sample.lib Sample.inactive
             (Sample.button Close true false false) eq_refl eq_refl).
  - exact (backgroundColor_inactive Sample.lib Sample.inactive
             (Sample.button Shade true false false) eq_refl eq_refl).
Defined.

Lemma foregroundColor_precedence_witness :
  Button.foregroundColor Sample.lib (Some Sample.plain)
                         (Sample.button Shade true false true)
  = Some (Rgba 49 54 59 255)
  /\ Button.foregroundColor Sample.lib (Some Sample.plain)
                            (Sample.button Shade false false false)
     = Some (Rgba 252 252 252 255).
Proof.
  split.
  - exact (foregroundColor_precedence Sample.lib Sample.plain _
             (Sample.button Shade true false true) eq_refl).
  - exact (foregroundColor_precedence Sample.lib Sample.plain _
             (Sample.button Shade false false false) eq_refl).
Defined.

End ColoursWitness.

(** ** Animation *)

Section Animation.

Import QAbstractAnimation.

Lemma setDirection_state (a : QVariantAnimation) (dir : Direction) :
  state (setDirection a dir) = state a.
Proof.
  unfold setDirection. destruct (Direction_eqb (direction a) dir); reflexivity.
Qed.

Lemma setDirection_direction (a : QVariantAnimation) (dir : Direction) :
  direction (setDirection a dir) = dir.
Proof.
  unfold setDirection.
  destruct (direction a) eqn:Ha, dir; simpl; auto.
Qed.

Lemma setDirection_duration (a : QVariantAnimation) (dir : Direction) :
  duration (setDirection a dir) = duration a.
Proof.
  unfold setDirection. destruct (Direction_eqb (direction a) dir); reflexivity.
Qed.

(** A running animation keeps its time and its value when redirected. *)
Lemma setDirection_running (a : QVariantAnimation) (dir : Direction) :
  state a = Running ->
  currentTime (setDirection a dir) = currentTime a
  /\ currentValue (setDirection a dir) = currentValue a.
Proof.
  intros Hrun. unfold setDirection.
  destruct (Direction_eqb (direction a) dir); simpl; [tauto |].
  rewrite Hrun. tauto.
Qed.

Lemma advance_running_time (a : QVariantAnimation) (delta : Z) :
  state a = Running ->
  currentTime (fst (advance a delta))
  = Z.min (duration a)
          (Z.max (match direction a with
                  | Forward => currentTime a + delta
                  | Backward => currentTime a - delta
                  end) 0).
Proof.
  intros Hrun. unfold advance. rewrite Hrun. reflexivity.
Qed.

End Animation.

Section Retarget.

Import QAbstractAnimation.

Lemma decoration_on_valueChanged_animation (d : Decoration.t) (e : option qreal) :
  Decoration.m_animation (Decoration.on_valueChanged d e)
  = Decoration.m_animation d.
Proof.
  destruct e as [v |]; simpl; [| reflexivity].
  unfold Decoration.setOpacity.
  destruct (Qeq_bool (Decoration.m_opacity d) v); reflexivity.
Qed.

Lemma button_on_valueChanged_animation (b : ButtonState.t) (e : option qreal) :
  ButtonState.m_animation (Button.on_valueChanged b e)
  = ButtonState.m_animation b.
Proof.
  destruct e as [v |]; simpl; [| reflexivity].
  unfold ButtonState.setOpacity.
  destruct (Qeq_bool (ButtonState.m_opacity b) v); reflexivity.
Qed.

(** C6.  When the target direction is set while the animation is running,
    for the window and for a button alike, [updateAnimationState] leaves
    the progress value and the animation's current time as they are and
    the animation running, turned toward the new target; the next timer
    tick moves on from that current time. *)
Theorem retarget_keeps_progress :
  (forall (d : Decoration.t) (i : InternalSettings.t),
      Decoration.m_internalSettings d = Some i ->
      state (Decoration.m_animation d) = Running ->
      exists d',
        Decoration.updateAnimationState d = Some d'
        /\ Decoration.m_opacity d' = Decoration.m_opacity d
        /\ currentTime (Decoration.m_animation d')
           = currentTime (Decoration.m_animation d)
        /\ state (Decoration.m_animation d') = Running
        /\ (InternalSettings.animationsEnabled i = true ->
            let target :=
              if isActive (Decoration.window (Decoration.host d))
              then Forward else Backward in
            direction (Decoration.m_animation d') = target
            /\ forall delta,
                currentTime
                  (Decoration.m_animation (Decoration.animationTick d' delta))
                = Z.min (duration (Decoration.m_animation d))
                        (Z.max (match target with
                                | Forward =>
                                    currentTime (Decoration.m_animation d) + delta
                                | Backward =>
                                    currentTime (Decoration.m_animation d) - delta
                                end) 0)))
  /\
  (forall (d : Decoration.t) (i : InternalSettings.t)
          (b : ButtonState.t) (hovered : bool),
      Decoration.m_internalSettings d = Some i ->
      state (ButtonState.m_animation b) = Running ->
      exists b',
        Button.updateAnimationState (Some d) b hovered = Some b'
        /\ ButtonState.m_opacity b' = ButtonState.m_opacity b
        /\ currentTime (ButtonState.m_animation b')
           = currentTime (ButtonState.m_animation b)
        /\ state (ButtonState.m_animation b') = Running
        /\ (InternalSettings.animationsEnabled i = true ->
            let target := if hovered then Forward else Backward in
            direction (ButtonState.m_animation b') = target
            /\ forall delta,
                currentTime
                  (ButtonState.m_animation (Button.animationTick b' delta))
                = Z.min (duration (ButtonState.m_animation b))
                        (Z.max (match target with
                                | Forward =>
                                    currentTime (ButtonState.m_animation b) + delta
                                | Backward =>
                                    currentTime (ButtonState.m_animation b) - delta
                                end) 0))).
Proof.
  split.
  - intros d i Hi Hrun.
    unfold Decoration.updateAnimationState. rewrite Hi. cbn [bind].
    destruct (InternalSettings.animationsEnabled i) eqn:Hen.
    + set (target := if isActive (Decoration.window (Decoration.host d))
                     then Forward else Backward).
      pose proof (setDirection_state (Decoration.m_animation d) target) as Hst.
      rewrite Hrun in Hst. rewrite Hst. cbn [State_eqb negb].
      destruct (setDirection_running (Decoration.m_animation d) target Hrun)
        as [Htime _].
      eexists. split; [reflexivity |].
      cbn [Decoration.setAnimation Decoration.m_opacity Decoration.m_animation].
      repeat split; try assumption.
      * apply setDirection_direction.
      * intros delta. unfold Decoration.animationTick.
        cbn [Decoration.setAnimation Decoration.m_animation].
        destruct (advance (setDirection (Decoration.m_animation d) target) delta)
          as [a' e] eqn:Hadv.
        rewrite decoration_on_valueChanged_animation.
        cbn [Decoration.setAnimation Decoration.m_animation].
        change a' with (fst (a', e)). rewrite <- Hadv.
        rewrite advance_running_time by assumption.
        rewrite setDirection_duration, setDirection_direction, Htime.
        reflexivity.
    + exists d. repeat split; try assumption. all: discriminate.
  - intros d i b hovered Hi Hrun.
    unfold Button.updateAnimationState. rewrite Hi. cbn [bind].
    destruct (InternalSettings.animationsEnabled i) eqn:Hen; cbn [negb].
    + set (target := if hovered then Forward else Backward).
      pose proof (setDirection_state (ButtonState.m_animation b) target) as Hst.
      rewrite Hrun in Hst. rewrite Hst. cbn [State_eqb negb].
      destruct (setDirection_running (ButtonState.m_animation b) target Hrun)
        as [Htime _].
      eexists. split; [reflexivity |].
      cbn [ButtonState.setAnimation ButtonState.m_opacity ButtonState.m_animation].
      repeat split; try assumption.
      * apply setDirection_direction.
      * intros delta. unfold Button.animationTick.
        cbn [ButtonState.setAnimation ButtonState.m_animation].
        destruct (advance (setDirection (ButtonState.m_animation b) target) delta)
          as [a' e] eqn:Hadv.
        rewrite button_on_valueChanged_animation.
        cbn [ButtonState.setAnimation ButtonState.m_animation].
        change a' with (fst (a', e)). rewrite <- Hadv.
        rewrite advance_running_time by assumption.
        rewrite setDirection_duration, setDirection_direction, Htime.
        reflexivity.
    + exists b. repeat split; try assumption. all: discriminate.
Qed.

(** The progress value after a tick of a running window animation is the
    easing curve at the new current time. *)
Lemma animationTick_opacity (d : Decoration.t) (delta : Z) :
  state (Decoration.m_animation d) = Running ->
  Decoration.inSync d ->
  let a := Decoration.m_animation d in
  let time :=
    Z.min (duration a)
          (Z.max (match direction a with
                  | Forward => currentTime a + delta
                  | Backward => currentTime a - delta
                  end) 0) in
  Decoration.m_opacity (Decoration.animationTick d delta)
  == valueForProgress (easingCurve a)
       (if (duration a =? 0)%Z
        then match direction a with Forward => 1 | Backward => 0 end
        else of_int time / of_int (duration a)).
Proof.
  intros Hrun Hsync a time.
  unfold Decoration.animationTick, advance. rewrite Hrun. fold a.
  unfold setCurrentTime, interpolated.
  cbn [QAbstractAnimation.duration QAbstractAnimation.direction
       QAbstractAnimation.currentTime QAbstractAnimation.easingCurve].
  fold time.
  set (v := valueForProgress _ _).
  unfold Decoration.inSync in Hsync. fold a in Hsync.
  destruct (currentValue a) as [old |] eqn:Hold; cbn [value_eqb].
  - destruct (Qeq_bool old v) eqn:Hsame.
    + cbn. apply Qeq_bool_iff in Hsame. rewrite Hsync. exact Hsame.
    + cbn. unfold Decoration.setOpacity. cbn.
      destruct (Qeq_bool (Decoration.m_opacity d) v) eqn:Heq; cbn.
      * apply Qeq_bool_iff. exact Heq.
      * reflexivity.
  - cbn. unfold Decoration.setOpacity. cbn.
    destruct (Qeq_bool (Decoration.m_opacity d) v) eqn:Heq; cbn.
    + apply Qeq_bool_iff. exact Heq.
    + reflexivity.
Qed.

End Retarget.

Section RetargetWitness.

Import QAbstractAnimation.

Lemma retarget_keeps_progress_witness :
  (exists d',
      Decoration.updateAnimationState Sample.deactivated = Some d'
      /\ Decoration.m_opacity d' = 1 # 8
      /\ currentTime (Decoration.m_animation d') = 50%Z
      /\ direction (Decoration.m_animation d') = Backward
      /\ currentTime (Decoration.m_animation (Decoration.animationTick d' 20))
         = 30%Z)
  /\
  (exists b',
      Button.updateAnimationState (Some Sample.plain) Sample.leftButton false
      = Some b'
      /\ ButtonState.m_opacity b' = 1 # 8
      /\ currentTime (ButtonState.m_animation b') = 50%Z
      /\ direction (ButtonState.m_animation b') = Backward
      /\ currentTime (ButtonState.m_animation (Button.animationTick b' 20))
         = 30%Z).
Proof.
  split.
  - destruct (proj1 retarget_keeps_progress Sample.deactivated _ eq_refl eq_refl)
      as [d' [Hrun [Hop [Htime [_ Hnext]]]]].
    destruct (Hnext eq_refl) as [Hdir Htick].
    exists d'. repeat split; try assumption. exact (Htick 20%Z).
  - destruct (proj2 retarget_keeps_progress Sample.plain _ Sample.leftButton
                    false eq_refl eq_refl)
      as [b' [Hrun [Hop [Htime [_ Hnext]]]]].
    destruct (Hnext eq_refl) as [Hdir Htick].
    exists b'. repeat split; try assumption. exact (Htick 20%Z).
Defined.

(** A window is activated, loses focus 50 ms later and is ticked for
    another 20 ms: the progress goes 0, 1/8, 1/8, 9/200. *)
Example activate_then_deactivate :
  let d0 := Sample.setActive Sample.inactive true in
  exists d1 d3,
    Decoration.updateAnimationState d0 = Some d1
    /\ Decoration.m_opacity d1 == 0
    /\ let d2 := Decoration.animationTick d1 50 in
       Decoration.m_opacity d2 == 1 # 8
       /\ Decoration.updateAnimationState (Sample.setActive d2 false) = Some d3
       /\ Decoration.m_opacity d3 == 1 # 8
       /\ state (Decoration.m_animation d3) = Running
       /\ Decoration.m_opacity (Decoration.animationTick d3 20) == 9 # 200.
Proof.
  eexists. eexists. split; [vm_compute; reflexivity |].
  split; [vm_compute; reflexivity |].
  cbv zeta. split; [vm_compute; reflexivity |].
  split; [vm_compute; reflexivity |].
  repeat split; vm_compute; reflexivity.
Qed.

End RetargetWitness.

(** ** Button layout: lists related element by element *)

Section Pointwise.

Context {A : Type}.

Lemma pointwise_refl (R : nat -> A -> A -> Prop) (l : list A) :
  (forall j b, R j b b) -> Layout.pointwise R l l.
Proof.
  intros Hrefl. split; [reflexivity |].
  intros j b b' Hb Hb'. rewrite Hb in Hb'. injection Hb' as <-. apply Hrefl.
Qed.

Lemma pointwise_weaken (R R' : nat -> A -> A -> Prop) (l l' : list A) :
  (forall j b b', nth_error l j = Some b -> R j b b' -> R' j b b') ->
  Layout.pointwise R l l' -> Layout.pointwise R' l l'.
Proof.
  intros Himp [Hlen Hall]. split; [exact Hlen |].
  intros j b b' Hb Hb'. apply (Himp j b b' Hb). apply Hall; assumption.
Qed.

Lemma pointwise_trans (R1 R2 R3 : nat -> A -> A -> Prop) (l1 l2 l3 : list A) :
  Layout.pointwise R1 l1 l2 -> Layout.pointwise R2 l2 l3 ->
  (forall j a b c, nth_error l1 j = Some a ->
                   R1 j a b -> R2 j b c -> R3 j a c) ->
  Layout.pointwise R3 l1 l3.
Proof.
  intros [Hlen1 Hall1] [Hlen2 Hall2] Hcomp.
  split; [congruence |].
  intros j a c Ha Hc.
  destruct (nth_error l2 j) as [b |] eqn:Hb.
  - apply (Hcomp j a b c Ha); [apply Hall1 | apply Hall2]; assumption.
  - apply nth_error_None in Hb.
    assert (Hj : (j < List.length l1)%nat)
      by (apply nth_error_Some; congruence).
    lia.
Qed.


Lemma pointwise_nth_back (R : nat -> A -> A -> Prop) (l l' : list A)
      (j : nat) (b' : A) :
  Layout.pointwise R l l' -> nth_error l' j = Some b' ->
  exists b, nth_error l j = Some b /\ R j b b'.
Proof.
  intros [Hlen Hall] Hb'.
  destruct (nth_error l j) as [b |] eqn:Hb.
  - exists b. split; [reflexivity |]. apply Hall; assumption.
  - apply nth_error_None in Hb.
    assert (Hj : (j < List.length l')%nat)
      by (apply nth_error_Some; congruence).
    lia.
Qed.

Lemma Forall2_pointwise (R : A -> A -> Prop) (l l' : list A) :
  Forall2 R l l' -> Layout.pointwise (fun _ => R) l l'.
Proof.
  intros Hall. split.
  - symmetry. apply (Forall2_length Hall).
  - induction Hall as [| x y l l' Hxy Hall IH]; intros j b b' Hb Hb'.
    + destruct j; discriminate.
    + destruct j as [| j]; cbn in Hb, Hb'.
      * injection Hb as <-. injection Hb' as <-. exact Hxy.
      * apply (IH j); assumption.
Qed.

Lemma pointwise_Forall2 (R : A -> A -> Prop) (l l' : list A) :
  Layout.pointwise (fun _ => R) l l' -> Forall2 R l l'.
Proof.
  revert l'. induction l as [| x l IH]; intros [| y l'] [Hlen Hall];
    try discriminate.
  - constructor.
  - constructor.
    + apply (Hall 0%nat); reflexivity.
    + apply IH. split; [cbn in Hlen; lia |].
      intros j b b' Hb Hb'. apply (Hall (S j)); assumption.
Qed.

Lemma pointwise_updateAt (k : nat) (f : A -> A) (l : list A) :
  Layout.pointwise (fun j b b' => b' = if Nat.eqb j k then f b else b)
                   l (DecorationButtonGroup.updateAt k f l).
Proof.
  revert k. induction l as [| x l IH]; intros k.
  - split; [reflexivity |]. intros [| j]; discriminate.
  - destruct k as [| k]; cbn [DecorationButtonGroup.updateAt].
    + split; [reflexivity |].
      intros [| j] b b' Hb Hb'; cbn in *; congruence.
    + destruct (IH k) as [Hlen Hall]. split; [cbn; lia |].
      intros [| j] b b' Hb Hb'; cbn in *; [congruence |].
      apply Hall; assumption.
Qed.

End Pointwise.

(** ** The layout of the library *)

Section LibraryLayout.

Import ButtonState.

Lemma rect_eqb_true (r s : QRectF) :
  rect_eqb r s = true ->
  rx r == rx s /\ ry r == ry s /\ rw r == rw s /\ rh r == rh s.
Proof.
  unfold rect_eqb. rewrite !Bool.andb_true_iff, !Qeq_bool_iff. tauto.
Qed.

Lemma moved_refl (b : ButtonState.t) : Layout.moved b b.
Proof. split; reflexivity. Qed.

Lemma moved_trans (a b c : ButtonState.t) :
  Layout.moved a b -> Layout.moved b c -> Layout.moved a c.
Proof. intros [H1 H2] [H3 H4]. split; congruence. Qed.

Lemma moved_isVisible (b b' : ButtonState.t) :
  Layout.moved b b' -> isVisible b' = isVisible b.
Proof. intros [H _]. unfold Layout.fields in H. congruence. Qed.

Lemma moved_rw (b b' : ButtonState.t) :
  Layout.moved b b' -> rw (geometry b') = rw (geometry b).
Proof. intros [_ H]. unfold size in H. congruence. Qed.

Lemma moved_rh (b b' : ButtonState.t) :
  Layout.moved b b' -> rh (geometry b') = rh (geometry b).
Proof. intros [_ H]. unfold size in H. congruence. Qed.

Lemma place_moved (b : ButtonState.t) (p : QPointF) :
  Layout.moved b (DecorationButtonGroup.place b p).
Proof.
  unfold DecorationButtonGroup.place.
  destruct (rect_eqb _ _); split; reflexivity.
Qed.

Lemma place_at (b : ButtonState.t) (p : QPointF) :
  rx (geometry (DecorationButtonGroup.place b p)) == px p
  /\ ry (geometry (DecorationButtonGroup.place b p)) == py p.
Proof.
  unfold DecorationButtonGroup.place.
  destruct (rect_eqb _ _) eqn:Hsame.
  - apply rect_eqb_true in Hsame. cbn in Hsame. tauto.
  - cbn. split; reflexivity.
Qed.

Lemma placeLeftToRight_moved (y sp : qreal) (l : list ButtonState.t) (x : qreal) :
  Forall2 Layout.moved l (DecorationButtonGroup.placeLeftToRight y sp l x).
Proof.
  revert x. induction l as [| b l IH]; intros x; cbn.
  - constructor.
  - destruct (isVisible b); constructor;
      auto using place_moved, moved_refl.
Qed.

Lemma placeRightToLeft_moved (y sp : qreal) (l : list ButtonState.t) (x : qreal) :
  Forall2 Layout.moved l (DecorationButtonGroup.placeRightToLeft y sp l x).
Proof.
  revert x. induction l as [| b l IH]; intros x; cbn.
  - constructor.
  - destruct (isVisible b); constructor;
      auto using place_moved, moved_refl.
Qed.

(** The size of the row depends on the sizes and the visibility of the
    buttons alone. *)
Lemma rowSize_ext (sp : qreal) (l l' : list ButtonState.t) (w h : qreal) :
  Forall2 (fun b b' => isVisible b' = isVisible b
                       /\ rw (geometry b') = rw (geometry b)
                       /\ rh (geometry b') = rh (geometry b)) l l' ->
  DecorationButtonGroup.rowSize sp l' w h
  = DecorationButtonGroup.rowSize sp l w h.
Proof.
  intros Hall. revert w h.
  induction Hall as [| b b' l l' [Hv [Hw Hh]] Hall IH]; intros w h; cbn.
  - reflexivity.
  - rewrite Hv, Hw, Hh.
    destruct (isVisible b); [| apply IH].
    rewrite IH. destruct Hall; reflexivity.
Qed.

Lemma rowSize_moved (sp : qreal) (l l' : list ButtonState.t) (w h : qreal) :
  Forall2 Layout.moved l l' ->
  DecorationButtonGroup.rowSize sp l' w h
  = DecorationButtonGroup.rowSize sp l w h.
Proof.
  intros Hall. apply rowSize_ext.
  eapply Forall2_impl; [| exact Hall].
  intros b b' Hm.
  auto using moved_isVisible, moved_rw, moved_rh.
Qed.

Lemma placeLeftToRight_row (y sp : qreal) (l : list ButtonState.t) (x : qreal) :
  DecorationButtonGroup.rowLeftToRight
    y sp (DecorationButtonGroup.placeLeftToRight y sp l x) x.
Proof.
  revert x. induction l as [| b l IH]; intros x; cbn.
  - exact I.
  - destruct (isVisible b) eqn:Hv; cbn.
    + rewrite (moved_isVisible _ _ (place_moved b (mkPoint x y))), Hv.
      split; [apply (place_at b (mkPoint x y)) |].
      rewrite (moved_rw _ _ (place_moved b (mkPoint x y))). apply IH.
    + rewrite Hv. apply IH.
Qed.

Lemma placeRightToLeft_row (y sp : qreal) (l : list ButtonState.t) (x : qreal) :
  DecorationButtonGroup.rowRightToLeft
    y sp (DecorationButtonGroup.placeRightToLeft y sp l x) x.
Proof.
  revert x. induction l as [| b l IH]; intros x; cbn.
  - exact I.
  - destruct (isVisible b) eqn:Hv; cbn.
    + rewrite (moved_isVisible _ _ (place_moved b _)), Hv.
      rewrite (moved_rw _ _ (place_moved b _)).
      split; [apply (place_at b (mkPoint (x - rw (geometry b)) y)) |].
      apply IH.
    + rewrite Hv. apply IH.
Qed.

(** The rows depend on the geometry and the visibility of the buttons
    alone. *)
Lemma rowLeftToRight_ext (y sp : qreal) (l l' : list ButtonState.t) (x : qreal) :
  Forall2 (fun b b' => geometry b' = geometry b
                       /\ isVisible b' = isVisible b) l l' ->
  DecorationButtonGroup.rowLeftToRight y sp l x ->
  DecorationButtonGroup.rowLeftToRight y sp l' x.
Proof.
  intros Hall. revert x.
  induction Hall as [| b b' l l' [Hg Hv] Hall IH]; intros x; cbn.
  - trivial.
  - rewrite Hv, Hg. destruct (isVisible b); [| apply IH].
    intros [Hat Hrest]. split; [exact Hat | apply IH; exact Hrest].
Qed.

Lemma rowRightToLeft_ext (y sp : qreal) (l l' : list ButtonState.t) (x : qreal) :
  Forall2 (fun b b' => geometry b' = geometry b
                       /\ isVisible b' = isVisible b) l l' ->
  DecorationButtonGroup.rowRightToLeft y sp l x ->
  DecorationButtonGroup.rowRightToLeft y sp l' x.
Proof.
  intros Hall. revert x.
  induction Hall as [| b b' l l' [Hg Hv] Hall IH]; intros x; cbn.
  - trivial.
  - rewrite Hv, Hg. destruct (isVisible b); [| apply IH].
    intros [Hat Hrest]. split; [exact Hat | apply IH; exact Hrest].
Qed.

Lemma laidOut_ext (dir : LayoutDirection) (g g' : DecorationButtonGroup.t) :
  DecorationButtonGroup.pos g' = DecorationButtonGroup.pos g ->
  DecorationButtonGroup.spacing g' = DecorationButtonGroup.spacing g ->
  DecorationButtonGroup.groupSize g' = DecorationButtonGroup.groupSize g ->
  Forall2 (fun b b' => geometry b' = geometry b
                       /\ isVisible b' = isVisible b)
          (DecorationButtonGroup.buttons g)
          (DecorationButtonGroup.buttons g') ->
  DecorationButtonGroup.laidOut dir g ->
  DecorationButtonGroup.laidOut dir g'.
Proof.
  intros Hpos Hsp Hsize Hall.
  unfold DecorationButtonGroup.laidOut. cbv zeta.
  rewrite Hpos, Hsp, Hsize.
  rewrite (rowSize_ext _ (DecorationButtonGroup.buttons g)
                       (DecorationButtonGroup.buttons g')).
  - intros [Hgroup Hrow]. split; [exact Hgroup |].
    destruct dir.
    + eapply rowLeftToRight_ext; eassumption.
    + eapply rowRightToLeft_ext; eassumption.
  - eapply Forall2_impl; [| exact Hall].
    intros b b' [Hg Hv]. rewrite Hg. auto.
Qed.

Lemma updateLayout_buttons (dir : LayoutDirection) (g : DecorationButtonGroup.t) :
  DecorationButtonGroup.buttons (DecorationButtonGroup.updateLayout dir g)
  = match dir with
    | LeftToRight =>
        DecorationButtonGroup.placeLeftToRight
          (py (DecorationButtonGroup.pos g)) (DecorationButtonGroup.spacing g)
          (DecorationButtonGroup.buttons g) (px (DecorationButtonGroup.pos g))
    | RightToLeft =>
        DecorationButtonGroup.placeRightToLeft
          (py (DecorationButtonGroup.pos g)) (DecorationButtonGroup.spacing g)
          (DecorationButtonGroup.buttons g)
          (px (DecorationButtonGroup.pos g)
           + sw (DecorationButtonGroup.rowSize
                   (DecorationButtonGroup.spacing g)
                   (DecorationButtonGroup.buttons g) 0 0))
    end.
Proof.
  unfold DecorationButtonGroup.updateLayout. cbv zeta.
  destruct (size_eqb _ _); reflexivity.
Qed.

Lemma updateLayout_pos (dir : LayoutDirection) (g : DecorationButtonGroup.t) :
  DecorationButtonGroup.pos (DecorationButtonGroup.updateLayout dir g)
  = DecorationButtonGroup.pos g.
Proof.
  unfold DecorationButtonGroup.updateLayout. cbv zeta.
  destruct (size_eqb _ _); reflexivity.
Qed.

Lemma updateLayout_spacing (dir : LayoutDirection) (g : DecorationButtonGroup.t) :
  DecorationButtonGroup.spacing (DecorationButtonGroup.updateLayout dir g)
  = DecorationButtonGroup.spacing g.
Proof.
  unfold DecorationButtonGroup.updateLayout. cbv zeta.
  destruct (size_eqb _ _); reflexivity.
Qed.

Lemma updateLayout_moved (dir : LayoutDirection) (g : DecorationButtonGroup.t) :
  Forall2 Layout.moved
          (DecorationButtonGroup.buttons g)
          (DecorationButtonGroup.buttons
             (DecorationButtonGroup.updateLayout dir g)).
Proof.
  rewrite updateLayout_buttons.
  destruct dir; auto using placeLeftToRight_moved, placeRightToLeft_moved.
Qed.

(** [updateLayout] leaves the group laid out. *)
Lemma updateLayout_laidOut (dir : LayoutDirection) (g : DecorationButtonGroup.t) :
  DecorationButtonGroup.laidOut dir (DecorationButtonGroup.updateLayout dir g).
Proof.
  unfold DecorationButtonGroup.laidOut. cbv zeta.
  rewrite updateLayout_spacing, updateLayout_pos.
  rewrite (rowSize_moved _ _ _ 0 0 (updateLayout_moved dir g)).
  split.
  - unfold DecorationButtonGroup.updateLayout. cbv zeta.
    destruct (size_eqb _ _) eqn:Hsame; cbn.
    + unfold size_eqb in Hsame.
      rewrite Bool.andb_true_iff, !Qeq_bool_iff in Hsame. exact Hsame.
    + split; reflexivity.
  - rewrite updateLayout_buttons.
    destruct dir; auto using placeLeftToRight_row, placeRightToLeft_row.
Qed.

End LibraryLayout.

(** ** The calls on a group *)

Section GroupCalls.

Import ButtonState.

Context (dir : LayoutDirection).

Lemma setSpacing_spec (g : DecorationButtonGroup.t) (s : qreal) :
  let g' := DecorationButtonGroup.setSpacing dir g s in
  Layout.pointwise (fun _ => Layout.moved)
                   (DecorationButtonGroup.buttons g)
                   (DecorationButtonGroup.buttons g')
  /\ DecorationButtonGroup.pos g' = DecorationButtonGroup.pos g
  /\ (DecorationButtonGroup.laidOut dir g ->
      DecorationButtonGroup.laidOut dir g').
Proof.
  unfold DecorationButtonGroup.setSpacing.
  destruct (Qeq_bool _ _).
  - split; [apply pointwise_refl; auto using moved_refl |]. tauto.
  - split; [apply Forall2_pointwise;
            apply (updateLayout_moved
                     dir (DecorationButtonGroup.mkGroup _ _ _ _)) |].
    rewrite updateLayout_pos.
    split; [reflexivity |].
    intros _. apply updateLayout_laidOut.
Qed.

Lemma setPos_spec (g : DecorationButtonGroup.t) (p : QPointF) :
  let g' := DecorationButtonGroup.setPos dir g p in
  Layout.pointwise (fun _ => Layout.moved)
                   (DecorationButtonGroup.buttons g)
                   (DecorationButtonGroup.buttons g')
  /\ DecorationButtonGroup.spacing g' = DecorationButtonGroup.spacing g
  /\ px (DecorationButtonGroup.pos g') == px p
  /\ py (DecorationButtonGroup.pos g') == py p
  /\ (DecorationButtonGroup.laidOut dir g ->
      DecorationButtonGroup.laidOut dir g').
Proof.
  unfold DecorationButtonGroup.setPos.
  destruct (point_eqb _ _) eqn:Hsame.
  - unfold point_eqb in Hsame.
    rewrite Bool.andb_true_iff, !Qeq_bool_iff in Hsame.
    split; [apply pointwise_refl; auto using moved_refl |]. tauto.
  - split; [apply Forall2_pointwise;
            apply (updateLayout_moved dir (DecorationButtonGroup.mkGroup _ _ _ _)) |].
    rewrite updateLayout_pos, updateLayout_spacing. cbn.
    split; [reflexivity |]. split; [reflexivity |]. split; [reflexivity |].
    intros _. apply updateLayout_laidOut.
Qed.

(** A call that changes neither the geometry nor the visibility of a
    button leaves the layout as it is. *)
Lemma onButton_spec (g : DecorationButtonGroup.t) (k : nat)
      (f : ButtonState.t -> ButtonState.t) :
  (forall b, geometry (f b) = geometry b /\ isVisible (f b) = isVisible b) ->
  let g' := DecorationButtonGroup.onButton g k f in
  Layout.pointwise (fun j b b' => b' = if Nat.eqb j k then f b else b)
                   (DecorationButtonGroup.buttons g)
                   (DecorationButtonGroup.buttons g')
  /\ DecorationButtonGroup.pos g' = DecorationButtonGroup.pos g
  /\ DecorationButtonGroup.spacing g' = DecorationButtonGroup.spacing g
  /\ DecorationButtonGroup.groupSize g' = DecorationButtonGroup.groupSize g
  /\ (DecorationButtonGroup.laidOut dir g ->
      DecorationButtonGroup.laidOut dir g').
Proof.
  intros Hf g'. subst g'. unfold DecorationButtonGroup.onButton. cbn.
  split; [apply pointwise_updateAt |].
  split; [reflexivity |]. split; [reflexivity |]. split; [reflexivity |].
  apply laidOut_ext; try reflexivity. cbn.
  apply pointwise_Forall2.
  eapply pointwise_weaken; [| apply (pointwise_updateAt k f)].
  intros j b b' _ ->. cbv beta.
  destruct (Nat.eqb j k); [apply Hf | split; reflexivity].
Qed.

(** [setGeometry] on the [k]-th button: that button gets the size asked
    for, every other button keeps its own, and only positions change
    besides. *)
Lemma setButtonGeometry_spec (g : DecorationButtonGroup.t) (k : nat)
      (r : QRectF) :
  let g' := DecorationButtonGroup.setButtonGeometry dir g k r in
  Layout.pointwise
    (fun j b b' =>
       Layout.fields b' = Layout.fields b
       /\ if Nat.eqb j k
          then rw (geometry b') == rw r /\ rh (geometry b') == rh r
          else size b' = size b)
    (DecorationButtonGroup.buttons g)
    (DecorationButtonGroup.buttons g')
  /\ DecorationButtonGroup.pos g' = DecorationButtonGroup.pos g
  /\ DecorationButtonGroup.spacing g' = DecorationButtonGroup.spacing g
  /\ (DecorationButtonGroup.laidOut dir g ->
      DecorationButtonGroup.laidOut dir g').
Proof.
  unfold DecorationButtonGroup.setButtonGeometry.
  destruct (nth_error (DecorationButtonGroup.buttons g) k) as [btn |] eqn:Hk.
  - destruct (rect_eqb (geometry btn) r) eqn:Hsame.
    + split; [| tauto].
      split; [reflexivity |].
      intros j b b' Hb Hb'. rewrite Hb in Hb'. injection Hb' as <-.
      split; [reflexivity |].
      destruct (Nat.eqb j k) eqn:Hj; [| reflexivity].
      apply Nat.eqb_eq in Hj. subst j.
      rewrite Hk in Hb. injection Hb as <-.
      apply rect_eqb_true in Hsame. tauto.
    + split.
      * eapply pointwise_trans.
        -- apply (pointwise_updateAt k (fun b => withGeometry b r)).
        -- apply Forall2_pointwise.
           apply (updateLayout_moved dir
                    (DecorationButtonGroup.onButton g k _)).
        -- cbv beta. intros j a b c _ -> [Hfields Hsize].
           unfold size in Hsize.
           destruct (Nat.eqb j k).
           ++ split; [rewrite Hfields; reflexivity |].
              cbn in Hsize. injection Hsize as -> ->. split; reflexivity.
           ++ split; [exact Hfields | exact Hsize].
      * rewrite updateLayout_pos, updateLayout_spacing. cbn.
        split; [reflexivity |]. split; [reflexivity |].
        intros _. apply updateLayout_laidOut.
  - split; [| tauto].
    split; [reflexivity |].
    intros j b b' Hb Hb'. rewrite Hb in Hb'. injection Hb' as <-.
    split; [reflexivity |].
    destruct (Nat.eqb j k) eqn:Hj; [| reflexivity].
    apply Nat.eqb_eq in Hj. subst j. congruence.
Qed.

End GroupCalls.

(** ** The loop of [updateButtonsGeometry] *)

Section ButtonLoop.

Import ButtonState.

Context (M : Metrics) (dir : LayoutDirection).

Lemma fields_kept (b b' : ButtonState.t) :
  Layout.fields b' = Layout.fields b ->
  Layout.core b' = Layout.core b
  /\ m_flag b' = m_flag b
  /\ preferredSize b' = preferredSize b
  /\ m_padding b' = m_padding b
  /\ m_offset b' = m_offset b
  /\ isVisible b' = isVisible b.
Proof.
  unfold Layout.fields, Layout.core. intros H. injection H. intros.
  repeat split; congruence.
Qed.

Lemma core_kept (b b' : ButtonState.t) :
  Layout.core b' = Layout.core b ->
  preferredSize b' = preferredSize b /\ isVisible b' = isVisible b.
Proof.
  unfold Layout.core. intros H. injection H. intros. split; congruence.
Qed.

Lemma moved_sized (h : Decoration.Host) (b b' : ButtonState.t) :
  Layout.fields b' = Layout.fields b -> size b' = size b ->
  Layout.sized M h b -> Layout.sized M h b'.
Proof.
  intros Hfields Hsize.
  destruct (fields_kept b b' Hfields) as [_ [_ [Hpref [Hpad [Hoff _]]]]].
  unfold size in Hsize. injection Hsize as Hw Hh.
  unfold Layout.sized, Layout.bWidth, Layout.bHeight.
  rewrite Hw, Hh, Hpref, Hpad, Hoff. trivial.
Qed.

Lemma adjustButton_spec (d : Decoration.t) (g : DecorationButtonGroup.t)
      (k : nat) :
  let g' := Decoration.adjustButton M dir d g k in
  Layout.pointwise
    (fun j b b' =>
       Layout.core b' = Layout.core b
       /\ m_flag b' = m_flag b
       /\ (j = k \/ Layout.sized M (Decoration.host d) b ->
           Layout.sized M (Decoration.host d) b'))
    (DecorationButtonGroup.buttons g)
    (DecorationButtonGroup.buttons g')
  /\ DecorationButtonGroup.pos g' = DecorationButtonGroup.pos g
  /\ DecorationButtonGroup.spacing g' = DecorationButtonGroup.spacing g
  /\ (DecorationButtonGroup.laidOut dir g ->
      DecorationButtonGroup.laidOut dir g').
Proof.
  unfold Decoration.adjustButton. cbv zeta.
  destruct (nth_error (DecorationButtonGroup.buttons g) k) as [btn |] eqn:Hk.
  - fold (Layout.verticalOffset M (Decoration.host d)).
    fold (Layout.bWidth btn). fold (Layout.bHeight M (Decoration.host d) btn).
    set (vo := Layout.verticalOffset M (Decoration.host d)).
    set (r := rectOf _ _).
    destruct (setButtonGeometry_spec dir g k r)
      as [H1 [Hpos1 [Hsp1 Hlaid1]]].
    set (g1 := DecorationButtonGroup.setButtonGeometry dir g k r) in *.
    set (f2 := fun btn => setPadding btn (mkMargins 0 (of_int vo) 0 0)).
    destruct (onButton_spec dir g1 k f2)
      as [H2 [Hpos2 [Hsp2 [_ Hlaid2]]]];
      [intros b; split; reflexivity |].
    set (g2 := DecorationButtonGroup.onButton g1 k f2) in *.
    set (f3 := fun btn => setOffset btn (mkPoint 0 (of_int vo))).
    destruct (onButton_spec dir g2 k f3)
      as [H3 [Hpos3 [Hsp3 [_ Hlaid3]]]];
      [intros b; split; reflexivity |].
    set (g3 := DecorationButtonGroup.onButton g2 k f3) in *.
    set (f4 := fun btn => setIconSize btn _).
    destruct (onButton_spec dir g3 k f4)
      as [H4 [Hpos4 [Hsp4 [_ Hlaid4]]]];
      [intros b; split; reflexivity |].
    set (g4 := DecorationButtonGroup.onButton g3 k f4) in *.
    split; [| split; [congruence | split; [congruence |]]];
      [| intros Hl; apply Hlaid4, Hlaid3, Hlaid2, Hlaid1; exact Hl].
    assert (H23 : Layout.pointwise
                    (fun j b b' =>
                       b' = if Nat.eqb j k then f3 (f2 b) else b)
                    (DecorationButtonGroup.buttons g1)
                    (DecorationButtonGroup.buttons g3)).
    { eapply pointwise_trans; [exact H2 | exact H3 |].
      cbv beta. intros j a b c _ -> ->. destruct (Nat.eqb j k); reflexivity. }
    assert (H234 : Layout.pointwise
                     (fun j b b' =>
                        b' = if Nat.eqb j k then f4 (f3 (f2 b)) else b)
                     (DecorationButtonGroup.buttons g1)
                     (DecorationButtonGroup.buttons g4)).
    { eapply pointwise_trans; [exact H23 | exact H4 |].
      cbv beta. intros j a b c _ -> ->. destruct (Nat.eqb j k); reflexivity. }
    eapply pointwise_trans; [exact H1 | exact H234 |].
    cbv beta. intros j a b c Ha [Hfields Hsize] ->.
    destruct (fields_kept a b Hfields) as [Hcore [Hflag [Hpref _]]].
    destruct (Nat.eqb j k) eqn:Hj.
    + apply Nat.eqb_eq in Hj. subst j.
      rewrite Hk in Ha. injection Ha as <-.
      split; [exact Hcore |]. split; [exact Hflag |]. intros _.
      destruct Hsize as [Hw Hh].
      unfold Layout.sized, Layout.bWidth, Layout.bHeight.
      subst f4 f3 f2. cbn. rewrite Hpref.
      subst r. cbn in Hw, Hh.
      split; [exact Hw |]. split; [exact Hh |]. split; reflexivity.
    + split; [exact Hcore |]. split; [exact Hflag |].
      intros [-> | Hsized]; [rewrite Nat.eqb_refl in Hj; discriminate |].
      exact (moved_sized _ a b Hfields Hsize Hsized).
  - split; [| tauto].
    split; [reflexivity |].
    intros j b b' Hb Hb'. rewrite Hb in Hb'. injection Hb' as <-.
    split; [reflexivity |]. split; [reflexivity |].
    intros [-> | Hsized]; [congruence | exact Hsized].
Qed.

Lemma adjustButtons_fold (d : Decoration.t) (ks : list nat)
      (g : DecorationButtonGroup.t) :
  let g' := fold_left (Decoration.adjustButton M dir d) ks g in
  Layout.pointwise
    (fun j b b' =>
       Layout.core b' = Layout.core b
       /\ m_flag b' = m_flag b
       /\ (In j ks \/ Layout.sized M (Decoration.host d) b ->
           Layout.sized M (Decoration.host d) b'))
    (DecorationButtonGroup.buttons g)
    (DecorationButtonGroup.buttons g')
  /\ DecorationButtonGroup.pos g' = DecorationButtonGroup.pos g
  /\ DecorationButtonGroup.spacing g' = DecorationButtonGroup.spacing g
  /\ (DecorationButtonGroup.laidOut dir g ->
      DecorationButtonGroup.laidOut dir g').
Proof.
  revert g. induction ks as [| k ks IH]; intros g; cbn [fold_left].
  - split; [| tauto]. apply pointwise_refl. intros j b. cbn. tauto.
  - destruct (adjustButton_spec d g k) as [H1 [Hpos1 [Hsp1 Hlaid1]]].
    destruct (IH (Decoration.adjustButton M dir d g k))
      as [H2 [Hpos2 [Hsp2 Hlaid2]]].
    split; [| split; [congruence | split; [congruence | tauto]]].
    eapply pointwise_trans; [exact H1 | exact H2 |].
    cbv beta. intros j a b c _ [Hc1 [Hf1 Hs1]] [Hc2 [Hf2 Hs2]].
    split; [congruence |]. split; [congruence |].
    intros [[<- | Hin] | Hsized]; auto.
Qed.

(** After the loop every button has its size, padding and offset. *)
Lemma adjustButtons_spec (d : Decoration.t) (g : DecorationButtonGroup.t) :
  let g' := Decoration.adjustButtons M dir d g in
  Layout.pointwise
    (fun _ b b' =>
       Layout.core b' = Layout.core b
       /\ m_flag b' = m_flag b
       /\ Layout.sized M (Decoration.host d) b')
    (DecorationButtonGroup.buttons g)
    (DecorationButtonGroup.buttons g')
  /\ DecorationButtonGroup.pos g' = DecorationButtonGroup.pos g
  /\ DecorationButtonGroup.spacing g' = DecorationButtonGroup.spacing g
  /\ (DecorationButtonGroup.laidOut dir g ->
      DecorationButtonGroup.laidOut dir g').
Proof.
  unfold Decoration.adjustButtons.
  destruct (adjustButtons_fold
              d (seq 0 (List.length (DecorationButtonGroup.buttons g))) g)
    as [H [Hpos [Hsp Hlaid]]].
  split; [| tauto].
  eapply pointwise_weaken; [| exact H].
  cbv beta. intros j b b' Hb [Hcore [Hflag Hsized]].
  split; [exact Hcore |]. split; [exact Hflag |].
  apply Hsized. left. apply in_seq.
  assert (Hj : (j < List.length (DecorationButtonGroup.buttons g))%nat)
    by (apply nth_error_Some; congruence).
  lia.
Qed.

End ButtonLoop.

(** ** The two edge blocks of [updateButtonsGeometry] *)

Section EdgeBlocks.

Import ButtonState.

Context (M : Metrics) (dir : LayoutDirection).

Lemma widened_after_moved (dx : qreal) (a b c : ButtonState.t) :
  Layout.moved a b -> Layout.widened dx b c -> Layout.widened dx a c.
Proof.
  intros Hab [Hcore [Hflag [Hw [Hh [Hpad Hoff]]]]].
  destruct (fields_kept _ _ (proj1 Hab)) as [Hc [_ [_ [Hp [Ho _]]]]].
  unfold Layout.widened.
  rewrite <- (moved_rw _ _ Hab), <- (moved_rh _ _ Hab).
  repeat split; try assumption; congruence.
Qed.

Lemma widened_then_moved (dx : qreal) (a b c : ButtonState.t) :
  Layout.widened dx a b -> Layout.moved b c -> Layout.widened dx a c.
Proof.
  intros [Hcore [Hflag [Hw [Hh [Hpad Hoff]]]]] Hbc.
  destruct (fields_kept _ _ (proj1 Hbc)) as [Hc [Hf [_ [Hp [Ho _]]]]].
  unfold Layout.widened.
  rewrite (moved_rw _ _ Hbc), (moved_rh _ _ Hbc).
  repeat split; try assumption; congruence.
Qed.

Lemma widen_spec (g : DecorationButtonGroup.t) (k : nat) (dx1 dx2 : qreal)
      (f : ButtonState.t -> ButtonState.t) :
  (forall b, geometry (f b) = geometry b
             /\ Layout.core (f b) = Layout.core b
             /\ m_flag (f b) = m_flag b
             /\ mtop (m_padding (f b)) = mtop (m_padding b)
             /\ m_offset (f b) = m_offset b) ->
  let g' := Layout.widen dir g k dx1 dx2 f in
  Layout.pointwise
    (fun j b b' =>
       if Nat.eqb j k then Layout.widened (dx2 - dx1) b b'
       else Layout.moved b b')
    (DecorationButtonGroup.buttons g)
    (DecorationButtonGroup.buttons g')
  /\ DecorationButtonGroup.pos g' = DecorationButtonGroup.pos g
  /\ DecorationButtonGroup.spacing g' = DecorationButtonGroup.spacing g
  /\ (DecorationButtonGroup.laidOut dir g ->
      DecorationButtonGroup.laidOut dir g').
Proof.
  intros Hf. unfold Layout.widen. cbv zeta.
  destruct (nth_error (DecorationButtonGroup.buttons g) k) as [btn |] eqn:Hk.
  - set (r := adjusted _ _ _ _ _).
    destruct (setButtonGeometry_spec dir g k r)
      as [H1 [Hpos1 [Hsp1 Hlaid1]]].
    set (g1 := DecorationButtonGroup.setButtonGeometry dir g k r) in *.
    set (f2 := fun button => setFlag button FlagFirstInList).
    destruct (onButton_spec dir g1 k f2)
      as [H2 [Hpos2 [Hsp2 [_ Hlaid2]]]];
      [intros b; split; reflexivity |].
    set (g2 := DecorationButtonGroup.onButton g1 k f2) in *.
    destruct (onButton_spec dir g2 k f)
      as [H3 [Hpos3 [Hsp3 [_ Hlaid3]]]].
    { intros b. destruct (Hf b) as [Hg [Hcore _]].
      split; [exact Hg |]. apply (core_kept _ _ Hcore). }
    set (g3 := DecorationButtonGroup.onButton g2 k f) in *.
    set (f4 := fun button => setIconSize button (preferredSize button)).
    destruct (onButton_spec dir g3 k f4)
      as [H4 [Hpos4 [Hsp4 [_ Hlaid4]]]];
      [intros b; split; reflexivity |].
    set (g4 := DecorationButtonGroup.onButton g3 k f4) in *.
    split; [| split; [congruence | split; [congruence |]]];
      [| intros Hl; apply Hlaid4, Hlaid3, Hlaid2, Hlaid1; exact Hl].
    assert (H23 : Layout.pointwise
                    (fun j b b' =>
                       b' = if Nat.eqb j k then f (f2 b) else b)
                    (DecorationButtonGroup.buttons g1)
                    (DecorationButtonGroup.buttons g3)).
    { eapply pointwise_trans; [exact H2 | exact H3 |].
      cbv beta. intros j a b c _ -> ->. destruct (Nat.eqb j k); reflexivity. }
    assert (H234 : Layout.pointwise
                     (fun j b b' =>
                        b' = if Nat.eqb j k then f4 (f (f2 b)) else b)
                     (DecorationButtonGroup.buttons g1)
                     (DecorationButtonGroup.buttons g4)).
    { eapply pointwise_trans; [exact H23 | exact H4 |].
      cbv beta. intros j a b c _ -> ->. destruct (Nat.eqb j k); reflexivity. }
    eapply pointwise_trans; [exact H1 | exact H234 |].
    cbv beta. intros j a b c Ha [Hfields Hsize] ->.
    destruct (Nat.eqb j k) eqn:Hj.
    + apply Nat.eqb_eq in Hj. subst j.
      destruct (fields_kept a b Hfields) as [Hcore [_ [_ [Hpad [Hoff _]]]]].
      rewrite Hk in Ha. injection Ha as ->.
      destruct (Hf (f2 b)) as [Hg [Hc [Hfl [Hp Ho]]]].
      destruct Hsize as [Hw Hh].
      assert (E1 : Layout.core (f4 (f (f2 b))) = Layout.core a).
      { transitivity (Layout.core (f (f2 b))); [reflexivity |].
        rewrite Hc. transitivity (Layout.core b); [reflexivity | exact Hcore]. }
      assert (E2 : m_flag (f4 (f (f2 b))) = FlagFirstInList).
      { transitivity (m_flag (f (f2 b))); [reflexivity |].
        rewrite Hfl. reflexivity. }
      assert (E3 : geometry (f4 (f (f2 b))) = geometry b).
      { transitivity (geometry (f (f2 b))); [reflexivity |].
        rewrite Hg. reflexivity. }
      assert (E4 : mtop (m_padding (f4 (f (f2 b)))) = mtop (m_padding a)).
      { transitivity (mtop (m_padding (f (f2 b)))); [reflexivity |].
        rewrite Hp. transitivity (mtop (m_padding b)); [reflexivity |].
        rewrite Hpad. reflexivity. }
      assert (E5 : m_offset (f4 (f (f2 b))) = m_offset a).
      { transitivity (m_offset (f (f2 b))); [reflexivity |].
        rewrite Ho. transitivity (m_offset b); [reflexivity | exact Hoff]. }
      unfold Layout.widened. rewrite E3.
      split; [exact E1 |]. split; [exact E2 |].
      split; [rewrite Hw; subst r; cbn; ring |].
      split; [rewrite Hh; subst r; cbn; ring |].
      split; [exact E4 | exact E5].
    + split; [exact Hfields | exact Hsize].
  - split; [| tauto].
    split; [reflexivity |].
    intros j b b' Hb Hb'. rewrite Hb in Hb'. injection Hb' as <-.
    destruct (Nat.eqb j k) eqn:Hj; [| apply moved_refl].
    apply Nat.eqb_eq in Hj. subst j. congruence.
Qed.

Lemma setLeftPadding_keeps (v : qreal) (b : ButtonState.t) :
  geometry (setLeftPadding b v) = geometry b
  /\ Layout.core (setLeftPadding b v) = Layout.core b
  /\ m_flag (setLeftPadding b v) = m_flag b
  /\ mtop (m_padding (setLeftPadding b v)) = mtop (m_padding b)
  /\ m_offset (setLeftPadding b v) = m_offset b.
Proof. repeat split. Qed.

Lemma setRightPadding_keeps (v : qreal) (b : ButtonState.t) :
  geometry (setRightPadding b v) = geometry b
  /\ Layout.core (setRightPadding b v) = Layout.core b
  /\ m_flag (setRightPadding b v) = m_flag b
  /\ mtop (m_padding (setRightPadding b v)) = mtop (m_padding b)
  /\ m_offset (setRightPadding b v) = m_offset b.
Proof. repeat split. Qed.

(** The width of a laid-out group follows from the sizes of its
    buttons. *)
Lemma laidOut_width (g g' : DecorationButtonGroup.t) :
  DecorationButtonGroup.laidOut dir g ->
  DecorationButtonGroup.laidOut dir g' ->
  Layout.pointwise (fun _ => Layout.moved)
                   (DecorationButtonGroup.buttons g)
                   (DecorationButtonGroup.buttons g') ->
  DecorationButtonGroup.spacing g' = DecorationButtonGroup.spacing g ->
  sw (DecorationButtonGroup.groupSize g')
  == sw (DecorationButtonGroup.groupSize g).
Proof.
  intros [[Hw _] _] [[Hw' _] _] Hmoved Hsp.
  rewrite Hw, Hw', Hsp.
  rewrite (rowSize_moved _ _ _ 0 0 (pointwise_Forall2 _ _ _ Hmoved)).
  reflexivity.
Qed.

Lemma nonempty_first (g : DecorationButtonGroup.t) :
  DecorationButtonGroup.isEmpty g = false ->
  exists b, nth_error (DecorationButtonGroup.buttons g) 0 = Some b.
Proof.
  unfold DecorationButtonGroup.isEmpty.
  destruct (DecorationButtonGroup.buttons g) as [| b l]; [discriminate |].
  intros _. exists b. reflexivity.
Qed.

Lemma nonempty_last (g : DecorationButtonGroup.t) :
  DecorationButtonGroup.isEmpty g = false ->
  exists b,
    nth_error (DecorationButtonGroup.buttons g)
              (List.length (DecorationButtonGroup.buttons g) - 1) = Some b.
Proof.
  unfold DecorationButtonGroup.isEmpty.
  destruct (DecorationButtonGroup.buttons g) as [| b l] eqn:Hl;
    [discriminate |].
  intros _.
  destruct (nth_error (b :: l) (List.length (b :: l) - 1)) as [x |] eqn:Hx.
  - exists x. reflexivity.
  - apply nth_error_None in Hx. cbn in Hx. lia.
Qed.

Lemma isEmpty_length (g g' : DecorationButtonGroup.t) :
  List.length (DecorationButtonGroup.buttons g')
  = List.length (DecorationButtonGroup.buttons g) ->
  DecorationButtonGroup.isEmpty g' = DecorationButtonGroup.isEmpty g.
Proof.
  unfold DecorationButtonGroup.isEmpty.
  destruct (DecorationButtonGroup.buttons g),
           (DecorationButtonGroup.buttons g'); cbn; congruence.
Qed.

(** The block "left buttons" on a group that has buttons. *)
Lemma leftButtonsBlock_spec (d : Decoration.t) (g : DecorationButtonGroup.t) :
  DecorationButtonGroup.isEmpty g = false ->
  let h := Decoration.host d in
  let g' := Decoration.leftButtonsBlock M dir d g in
  Layout.pointwise
    (fun j b b' =>
       if Decoration.isLeftEdge h && Nat.eqb j 0
       then Layout.widened (of_int (Layout.hPadding M h)) b b'
       else Layout.moved b b')
    (DecorationButtonGroup.buttons g)
    (DecorationButtonGroup.buttons g')
  /\ px (DecorationButtonGroup.pos g')
     == (if Decoration.isLeftEdge h then 0
         else of_int (Layout.hPadding M h) + Decoration.borderLeft d)
  /\ py (DecorationButtonGroup.pos g') == of_int (Layout.vPadding M h)
  /\ (DecorationButtonGroup.laidOut dir g ->
      DecorationButtonGroup.laidOut dir g').
Proof.
  intros Hne h g'. subst g'. unfold Decoration.leftButtonsBlock.
  rewrite Hne. cbn [negb]. cbv zeta.
  fold h. fold (Layout.vPadding M h). fold (Layout.hPadding M h).
  set (s := of_int (_ * TitleBar_ButtonSpacing M)).
  destruct (setSpacing_spec dir g s) as [H1 [Hpos1 Hlaid1]].
  set (g1 := DecorationButtonGroup.setSpacing dir g s) in *.
  destruct (Decoration.isLeftEdge h); cbn [andb].
  - destruct (nonempty_first g1) as [button Hbutton].
    { rewrite (isEmpty_length g g1); [exact Hne | apply H1]. }
    rewrite Hbutton.
    set (hP := of_int (Layout.hPadding M h)).
    assert (Hwiden :
              Layout.widen dir g1 0 (- hP) 0
                           (fun button => setLeftPadding button hP)
              = DecorationButtonGroup.onButton
                  (DecorationButtonGroup.onButton
                     (DecorationButtonGroup.onButton
                        (DecorationButtonGroup.setButtonGeometry
                           dir g1 0 (adjusted (geometry button) (- hP) 0 0 0))
                        0 (fun button => setFlag button FlagFirstInList))
                     0 (fun button => setLeftPadding button hP))
                  0 (fun button => setIconSize button (preferredSize button))).
    { unfold Layout.widen. rewrite Hbutton. reflexivity. }
    rewrite <- Hwiden.
    destruct (widen_spec g1 0 (- hP) 0 (fun button => setLeftPadding button hP))
      as [H2 [Hpos2 [Hsp2 Hlaid2]]];
      [intros b; apply setLeftPadding_keeps |].
    set (g2 := Layout.widen dir g1 0 _ _ _) in *.
    destruct (setPos_spec dir g2 (mkPoint 0 (of_int (Layout.vPadding M h))))
      as [H3 [Hsp3 [Hx [Hy Hlaid3]]]].
    split; [| split; [exact Hx | split; [exact Hy |]]];
      [| intros Hl; apply Hlaid3, Hlaid2, Hlaid1; exact Hl].
    assert (H12 : Layout.pointwise
                    (fun j b b' =>
                       if Nat.eqb j 0 then Layout.widened (0 - - hP) b b'
                       else Layout.moved b b')
                    (DecorationButtonGroup.buttons g)
                    (DecorationButtonGroup.buttons g2)).
    { eapply pointwise_trans; [exact H1 | exact H2 |].
      cbv beta. intros j a b c _ Hab Hbc.
      destruct (Nat.eqb j 0);
        eauto using widened_after_moved, moved_trans. }
    eapply pointwise_trans; [exact H12 | exact H3 |].
    cbv beta. intros j a b c _ Hab Hbc.
    destruct (Nat.eqb j 0); [| eauto using moved_trans].
    destruct (widened_then_moved _ _ _ _ Hab Hbc)
      as [Hcore [Hflag [Hw [Hh [Hpad Hoff]]]]].
    unfold Layout.widened.
    repeat split; try assumption.
    rewrite Hw. ring.
  - destruct (setPos_spec dir g1
                (mkPoint (of_int (Layout.hPadding M h) + Decoration.borderLeft d)
                         (of_int (Layout.vPadding M h))))
      as [H3 [Hsp3 [Hx [Hy Hlaid3]]]].
    split; [| split; [exact Hx | split; [exact Hy |]]];
      [| intros Hl; apply Hlaid3, Hlaid1; exact Hl].
    eapply pointwise_trans; [exact H1 | exact H3 |].
    cbv beta. intros j a b c _ Hab Hbc.
    exact (moved_trans _ _ _ Hab Hbc).
Qed.

(** The block "right buttons" on a group that has buttons. *)
Lemma rightButtonsBlock_spec (d : Decoration.t) (g : DecorationButtonGroup.t) :
  DecorationButtonGroup.isEmpty g = false ->
  let h := Decoration.host d in
  let g' := Decoration.rightButtonsBlock M dir d g in
  let back := (List.length (DecorationButtonGroup.buttons g) - 1)%nat in
  Layout.pointwise
    (fun j b b' =>
       if Decoration.isRightEdge h && Nat.eqb j back
       then Layout.widened (of_int (Layout.hPadding M h)) b b'
       else Layout.moved b b')
    (DecorationButtonGroup.buttons g)
    (DecorationButtonGroup.buttons g')
  /\ (DecorationButtonGroup.laidOut dir g ->
      px (DecorationButtonGroup.pos g')
      + sw (DecorationButtonGroup.groupSize g')
      + (if Decoration.isRightEdge h then 0
         else of_int (Layout.hPadding M h) + Decoration.borderRight d)
      == sw (Decoration.size h))
  /\ py (DecorationButtonGroup.pos g') == of_int (Layout.vPadding M h)
  /\ (DecorationButtonGroup.laidOut dir g ->
      DecorationButtonGroup.laidOut dir g').
Proof.
  intros Hne h g' back. subst g'. unfold Decoration.rightButtonsBlock.
  rewrite Hne. cbn [negb]. cbv zeta.
  fold h. fold (Layout.vPadding M h). fold (Layout.hPadding M h).
  set (s := of_int (_ * TitleBar_ButtonSpacing M)).
  destruct (setSpacing_spec dir g s) as [H1 [Hpos1 Hlaid1]].
  set (g1 := DecorationButtonGroup.setSpacing dir g s) in *.
  assert (Hback : (List.length (DecorationButtonGroup.buttons g1) - 1)%nat
                  = back).
  { subst back. rewrite (proj1 H1). reflexivity. }
  rewrite Hback.
  destruct (Decoration.isRightEdge h); cbn [andb].
  - destruct (nonempty_last g1) as [button Hbutton].
    { rewrite (isEmpty_length g g1); [exact Hne | apply H1]. }
    rewrite Hback in Hbutton. rewrite Hbutton.
    set (hP := of_int (Layout.hPadding M h)).
    assert (Hwiden :
              Layout.widen dir g1 back 0 hP
                           (fun button => setRightPadding button hP)
              = DecorationButtonGroup.onButton
                  (DecorationButtonGroup.onButton
                     (DecorationButtonGroup.onButton
                        (DecorationButtonGroup.setButtonGeometry
                           dir g1 back (adjusted (geometry button) 0 0 hP 0))
                        back (fun button => setFlag button FlagFirstInList))
                     back (fun button => setRightPadding button hP))
                  back
                  (fun button => setIconSize button (preferredSize button))).
    { unfold Layout.widen. rewrite Hbutton. reflexivity. }
    rewrite <- Hwiden.
    destruct (widen_spec g1 back 0 hP
                         (fun button => setRightPadding button hP))
      as [H2 [Hpos2 [Hsp2 Hlaid2]]];
      [intros b; apply setRightPadding_keeps |].
    set (g2 := Layout.widen dir g1 back _ _ _) in *.
    set (p := mkPoint _ _).
    destruct (setPos_spec dir g2 p) as [H3 [Hsp3 [Hx [Hy Hlaid3]]]].
    split; [| split; [| split; [exact Hy |]]];
      [| | intros Hl; apply Hlaid3, Hlaid2, Hlaid1; exact Hl].
    + assert (H12 : Layout.pointwise
                      (fun j b b' =>
                         if Nat.eqb j back then Layout.widened (hP - 0) b b'
                         else Layout.moved b b')
                      (DecorationButtonGroup.buttons g)
                      (DecorationButtonGroup.buttons g2)).
      { eapply pointwise_trans; [exact H1 | exact H2 |].
        cbv beta. intros j a b c _ Hab Hbc.
        destruct (Nat.eqb j back);
          eauto using widened_after_moved, moved_trans. }
      eapply pointwise_trans; [exact H12 | exact H3 |].
      cbv beta. intros j a b c _ Hab Hbc.
      destruct (Nat.eqb j back); [| eauto using moved_trans].
      destruct (widened_then_moved _ _ _ _ Hab Hbc)
        as [Hcore [Hflag [Hw [Hh [Hpad Hoff]]]]].
      unfold Layout.widened.
      repeat split; try assumption.
      rewrite Hw. ring.
    + intros Hl.
      assert (Hl2 : DecorationButtonGroup.laidOut dir g2)
        by (apply Hlaid2, Hlaid1; exact Hl).
      rewrite (laidOut_width g2 _ Hl2 (Hlaid3 Hl2) H3 Hsp3).
      rewrite Hx. subst p. cbn. ring.
  - set (p := mkPoint _ _).
    destruct (setPos_spec dir g1 p) as [H3 [Hsp3 [Hx [Hy Hlaid3]]]].
    split; [| split; [| split; [exact Hy |]]];
      [| | intros Hl; apply Hlaid3, Hlaid1; exact Hl].
    + eapply pointwise_trans; [exact H1 | exact H3 |].
      cbv beta. intros j a b c _ Hab Hbc.
      exact (moved_trans _ _ _ Hab Hbc).
    + intros Hl.
      assert (Hl1 : DecorationButtonGroup.laidOut dir g1)
        by (apply Hlaid1; exact Hl).
      rewrite (laidOut_width g1 _ Hl1 (Hlaid3 Hl1) H3 Hsp3).
      rewrite Hx. subst p. cbn. ring.
Qed.

End EdgeBlocks.

(** ** [updateButtonsGeometry] on one group *)

Section GroupPasses.

Import ButtonState.

Context (M : Metrics) (dir : LayoutDirection).

Lemma arranged_widened (h : Decoration.Host) (a b c : ButtonState.t) :
  Layout.core b = Layout.core a -> Layout.sized M h b ->
  Layout.widened (of_int (Layout.hPadding M h)) b c ->
  Layout.arranged M h true a c.
Proof.
  intros Hab [Hw [Hh [Hpad Hoff]]] [Hcore [Hflag [Hw' [Hh' [Hpad' Hoff']]]]].
  destruct (core_kept _ _ Hab) as [Hpref _].
  unfold Layout.arranged, Layout.bWidth, Layout.bHeight in *.
  rewrite Hpref in Hw, Hh.
  split; [congruence |]. split; [exact Hflag |].
  split; [rewrite Hw', Hw; reflexivity |].
  split; [rewrite Hh', Hh; reflexivity |].
  split; [rewrite Hpad', Hpad; reflexivity | congruence].
Qed.

Lemma arranged_moved (h : Decoration.Host) (a b c : ButtonState.t) :
  Layout.core b = Layout.core a -> m_flag b = m_flag a ->
  Layout.sized M h b -> Layout.moved b c ->
  Layout.arranged M h false a c.
Proof.
  intros Hab Hflag [Hw [Hh [Hpad Hoff]]] Hbc.
  destruct (core_kept _ _ Hab) as [Hpref _].
  destruct (fields_kept _ _ (proj1 Hbc)) as [Hc [Hf [_ [Hp [Ho _]]]]].
  unfold Layout.arranged, Layout.bWidth, Layout.bHeight in *.
  rewrite Hpref in Hw, Hh.
  rewrite (moved_rw _ _ Hbc), (moved_rh _ _ Hbc), Hp, Ho.
  split; [congruence |]. split; [congruence |].
  split; [rewrite Hw; symmetry; apply Qplus_0_r |]. split; [exact Hh |].
  split; [rewrite Hpad; reflexivity | exact Hoff].
Qed.

Lemma adjustButtons_isEmpty (d : Decoration.t) (g : DecorationButtonGroup.t) :
  DecorationButtonGroup.isEmpty (Decoration.adjustButtons M dir d g)
  = DecorationButtonGroup.isEmpty g.
Proof.
  apply isEmpty_length. apply (adjustButtons_spec M dir d g).
Qed.

(** The loop and the block "left buttons" on a group that has buttons. *)
Lemma leftGroup_spec (d : Decoration.t) (g : DecorationButtonGroup.t) :
  DecorationButtonGroup.isEmpty g = false ->
  let h := Decoration.host d in
  let g' := Decoration.leftButtonsBlock
              M dir d (Decoration.adjustButtons M dir d g) in
  Layout.pointwise
    (fun j b b' =>
       Layout.arranged M h (Decoration.isLeftEdge h && Nat.eqb j 0) b b')
    (DecorationButtonGroup.buttons g)
    (DecorationButtonGroup.buttons g')
  /\ px (DecorationButtonGroup.pos g')
     == (if Decoration.isLeftEdge h then 0
         else of_int (Layout.hPadding M h) + Decoration.borderLeft d)
  /\ py (DecorationButtonGroup.pos g') == of_int (Layout.vPadding M h)
  /\ (DecorationButtonGroup.laidOut dir g ->
      DecorationButtonGroup.laidOut dir g').
Proof.
  intros Hne h g'. subst g'.
  destruct (adjustButtons_spec M dir d g) as [H1 [_ [_ Hlaid1]]].
  destruct (leftButtonsBlock_spec
              M dir d (Decoration.adjustButtons M dir d g))
    as [H2 [Hx [Hy Hlaid2]]];
    [rewrite adjustButtons_isEmpty; exact Hne |].
  split; [| split; [exact Hx | split; [exact Hy |]]];
    [| intros Hl; apply Hlaid2, Hlaid1; exact Hl].
  eapply pointwise_trans; [exact H1 | exact H2 |].
  cbv beta. fold h. intros j a b c _ [Hcore [Hflag Hsized]] Hbc.
  destruct (Decoration.isLeftEdge h && Nat.eqb j 0);
    eauto using arranged_widened, arranged_moved.
Qed.

(** The loop and the block "right buttons" on a group that has
    buttons. *)
Lemma rightGroup_spec (d : Decoration.t) (g : DecorationButtonGroup.t) :
  DecorationButtonGroup.isEmpty g = false ->
  let h := Decoration.host d in
  let g' := Decoration.rightButtonsBlock
              M dir d (Decoration.adjustButtons M dir d g) in
  let back := (List.length (DecorationButtonGroup.buttons g) - 1)%nat in
  Layout.pointwise
    (fun j b b' =>
       Layout.arranged M h (Decoration.isRightEdge h && Nat.eqb j back) b b')
    (DecorationButtonGroup.buttons g)
    (DecorationButtonGroup.buttons g')
  /\ (DecorationButtonGroup.laidOut dir g ->
      px (DecorationButtonGroup.pos g')
      + sw (DecorationButtonGroup.groupSize g')
      + (if Decoration.isRightEdge h then 0
         else of_int (Layout.hPadding M h) + Decoration.borderRight d)
      == sw (Decoration.size h))
  /\ py (DecorationButtonGroup.pos g') == of_int (Layout.vPadding M h)
  /\ (DecorationButtonGroup.laidOut dir g ->
      DecorationButtonGroup.laidOut dir g').
Proof.
  intros Hne h g' back. subst g'.
  destruct (adjustButtons_spec M dir d g) as [H1 [_ [_ Hlaid1]]].
  destruct (rightButtonsBlock_spec
              M dir d (Decoration.adjustButtons M dir d g))
    as [H2 [Hx [Hy Hlaid2]]];
    [rewrite adjustButtons_isEmpty; exact Hne |].
  rewrite (proj1 H1) in H2. fold back in H2.
  split; [| split; [| split; [exact Hy |]]];
    [| intros Hl; apply Hx, Hlaid1; exact Hl
     | intros Hl; apply Hlaid2, Hlaid1; exact Hl].
  eapply pointwise_trans; [exact H1 | exact H2 |].
  cbv beta. fold h. intros j a b c _ [Hcore [Hflag Hsized]] Hbc.
  destruct (Decoration.isRightEdge h && Nat.eqb j back);
    eauto using arranged_widened, arranged_moved.
Qed.

(** A group without buttons is left as it is. *)
Lemma leftGroup_empty (d : Decoration.t) (g : DecorationButtonGroup.t) :
  DecorationButtonGroup.isEmpty g = true ->
  Decoration.leftButtonsBlock M dir d (Decoration.adjustButtons M dir d g) = g.
Proof.
  intros He. unfold Decoration.leftButtonsBlock.
  rewrite adjustButtons_isEmpty, He. cbn [negb].
  unfold Decoration.adjustButtons, DecorationButtonGroup.isEmpty in *.
  destruct (DecorationButtonGroup.buttons g); [reflexivity | discriminate].
Qed.

Lemma rightGroup_empty (d : Decoration.t) (g : DecorationButtonGroup.t) :
  DecorationButtonGroup.isEmpty g = true ->
  Decoration.rightButtonsBlock M dir d (Decoration.adjustButtons M dir d g) = g.
Proof.
  intros He. unfold Decoration.rightButtonsBlock.
  rewrite adjustButtons_isEmpty, He. cbn [negb].
  unfold Decoration.adjustButtons, DecorationButtonGroup.isEmpty in *.
  destruct (DecorationButtonGroup.buttons g); [reflexivity | discriminate].
Qed.

End GroupPasses.

(** ** Where a laid-out group has its buttons *)

Section Rows.

Import ButtonState.




(** Every visible button of a laid-out group stands at the height of
    the group. *)
Lemma rowLeftToRight_y (y sp : qreal) (l : list ButtonState.t) (x : qreal)
      (b : ButtonState.t) :
  DecorationButtonGroup.rowLeftToRight y sp l x ->
  In b l -> isVisible b = true -> ry (geometry b) == y.
Proof.
  revert x. induction l as [| c l IH]; intros x Hrow Hin Hv; [contradiction |].
  cbn in Hrow. destruct Hin as [-> | Hin].
  - rewrite Hv in Hrow. apply Hrow.
  - destruct (isVisible c); [destruct Hrow as [_ Hrow] |];
      eapply IH; eassumption.
Qed.

Lemma rowRightToLeft_y (y sp : qreal) (l : list ButtonState.t) (x : qreal)
      (b : ButtonState.t) :
  DecorationButtonGroup.rowRightToLeft y sp l x ->
  In b l -> isVisible b = true -> ry (geometry b) == y.
Proof.
  revert x. induction l as [| c l IH]; intros x Hrow Hin Hv; [contradiction |].
  cbn in Hrow. destruct Hin as [-> | Hin].
  - rewrite Hv in Hrow. apply Hrow.
  - destruct (isVisible c); [destruct Hrow as [_ Hrow] |];
      eapply IH; eassumption.
Qed.

Lemma laidOut_y (dir : LayoutDirection) (g : DecorationButtonGroup.t)
      (b : ButtonState.t) :
  DecorationButtonGroup.laidOut dir g ->
  In b (DecorationButtonGroup.buttons g) -> isVisible b = true ->
  ry (geometry b) == py (DecorationButtonGroup.pos g).
Proof.
  intros [_ Hrow]. destruct dir;
    eauto using rowLeftToRight_y, rowRightToLeft_y.
Qed.


End Rows.

(** ** The edges of the button groups *)

Section ButtonsGeometry.

Context (M : Metrics).

Import Decoration ButtonState.


End ButtonsGeometry.

Section ButtonsGeometryWitness.

Import Decoration.

Example rows_laidOut :
  DecorationButtonGroup.laidOut LeftToRight Sample.leftRow
  /\ DecorationButtonGroup.laidOut LeftToRight Sample.rightRow.
Proof. vm_compute. intuition discriminate. Qed.


Example tiled_buttons :
  let tiled :=
    updateButtonsGeometry Sample.metrics LeftToRight
                          (Sample.arranged true true) in
  Sample.placement (m_leftButtons tiled)
  = [(mkRect 0 8 44 36, ButtonState.FlagFirstInList);
     (mkRect 52 8 36 36, ButtonState.FlagNone)]
  /\ Sample.placement (m_rightButtons tiled)
     = [(mkRect 668 8 36 36, ButtonState.FlagNone);
        (mkRect 712 8 36 36, ButtonState.FlagNone);
        (mkRect 756 8 44 36, ButtonState.FlagFirstInList)].
Proof. vm_compute. split; reflexivity. Qed.

End ButtonsGeometryWitness.

(** ** Caption placement *)

Section Caption.

Context (M : Metrics) (K : HostLib).

Import Decoration.

Lemma Qgtb_spec (x y : Q) : Qgtb x y = true <-> y < x.
Proof. unfold Qgtb. apply Qltb_spec. Qed.

Lemma Qgtb_false (x y : Q) : Qgtb x y = false <-> x <= y.
Proof. unfold Qgtb. apply Qltb_false. Qed.

(** C1, amended.  For a visible title bar under the full-width alignment
    policy, let the caption's bounding box be centred in the full width.
    If its left edge lies before [leftOffset], [captionRect] returns the
    constrained rectangle, left-aligned (also when the right edge lies
    beyond [width - rightOffset] as well); otherwise, if its right edge
    lies beyond [width - rightOffset], it returns the constrained
    rectangle, right-aligned; and it returns the full-width rectangle,
    centred, exactly when [leftOffset <= left] and
    [right <= width - rightOffset], bounds included. *)
Theorem captionRect_full_width (d : Decoration.t) (i : InternalSettings.t) :
  hideTitleBar (host d) = false ->
  m_internalSettings d = Some i ->
  InternalSettings.titleAlignment i = InternalSettings.AlignCenterFullWidth ->
  let c := window (host d) in
  let s := settings (host d) in
  let width := sw (size (host d)) in
  let sideMargin := of_int (TitleBar_SideMargin M * smallSpacing s) in
  let leftOffset :=
    snapToPixelGrid K
      (if DecorationButtonGroup.isEmpty (m_leftButtons d) then sideMargin
       else rx (DecorationButtonGroup.geometry (m_leftButtons d))
            + rw (DecorationButtonGroup.geometry (m_leftButtons d))
            + sideMargin)
      (scale c) in
  let rightOffset :=
    snapToPixelGrid K
      (if DecorationButtonGroup.isEmpty (m_rightButtons d) then sideMargin
       else width - rx (DecorationButtonGroup.geometry (m_rightButtons d))
            + sideMargin)
      (scale c) in
  let yOffset :=
    snapToPixelGrid K (of_int (smallSpacing s * TitleBar_TopMargin M)) (scale c) in
  let textWidth := rw (fontMetrics_boundingRect s (caption c)) in
  let boxLeft := (width - textWidth) / 2 in
  let boxRight := boxLeft + textWidth in
  exists ch,
    captionHeight d = Some ch
    /\ let maxRect :=
         mkRect leftOffset yOffset (width - leftOffset - rightOffset)
                (of_int ch) in
       let fullRect := intRect 0 yOffset width (of_int ch) in
       (boxLeft < leftOffset ->
        captionRect M K d = Some (maxRect, AlignVCenter_AlignLeft))
       /\ (leftOffset <= boxLeft -> width - rightOffset < boxRight ->
           captionRect M K d = Some (maxRect, AlignVCenter_AlignRight))
       /\ (captionRect M K d = Some (fullRect, AlignCenter)
           <-> leftOffset <= boxLeft /\ boxRight <= width - rightOffset).
Proof.
  intros Hshown Hi Halign c s width sideMargin leftOffset rightOffset yOffset
         textWidth boxLeft boxRight.
  assert (Hch : exists ch, captionHeight d = Some ch).
  { unfold captionHeight. rewrite Hshown. unfold buttonSize. rewrite Hi.
    cbn [bind]. eexists. reflexivity. }
  destruct Hch as [ch Hch]. exists ch. split; [exact Hch |].
  intros maxRect fullRect.
  assert (Hrect :
            captionRect M K d
            = if Qltb boxLeft leftOffset
              then Some (maxRect, AlignVCenter_AlignLeft)
              else if Qgtb boxRight (width - rightOffset)
                   then Some (maxRect, AlignVCenter_AlignRight)
                   else Some (fullRect, AlignCenter)).
  { unfold captionRect. rewrite Hshown, Hch, Hi. cbn [bind].
    rewrite Halign. reflexivity. }
  rewrite Hrect. clear Hrect.
  split; [| split].
  - intros Hleft. apply Qltb_spec in Hleft. rewrite Hleft. reflexivity.
  - intros Hleft Hright.
    apply Qltb_false in Hleft. apply Qgtb_spec in Hright.
    rewrite Hleft, Hright. reflexivity.
  - destruct (Qltb boxLeft leftOffset) eqn:Hleft.
    + split; [discriminate |].
      intros [Hfit _]. apply Qltb_spec in Hleft.
      exfalso. apply (Qlt_not_le _ _ Hleft Hfit).
    + apply Qltb_false in Hleft.
      destruct (Qgtb boxRight (width - rightOffset)) eqn:Hright.
      * split; [discriminate |].
        intros [_ Hfit]. apply Qgtb_spec in Hright.
        exfalso. apply (Qlt_not_le _ _ Hright Hfit).
      * apply Qgtb_false in Hright. split; [intros _; split; assumption |].
        reflexivity.
Qed.

(** With a hidden title bar [captionRect] is the null rectangle. *)
Lemma captionRect_hidden (d : Decoration.t) :
  hideTitleBar (host d) = true ->
  captionRect M K d = Some (nullRect, AlignCenter).
Proof. intros Hhidden. unfold captionRect. rewrite Hhidden. reflexivity. Qed.

End Caption.

Section CaptionWitness.

Import Decoration.

(** C1 as stated fails on two inputs.  The centred box of a caption 936
    units wide crosses both bounds of an 800 units wide title bar (left
    offset 96, right offset 140): its right edge, at 868, lies beyond 660,
    and the result is left-aligned, not right-aligned.  And with a hidden
    title bar a caption 40 units wide, whose centred box [380, 420] fits
    between the same bounds, gets the null rectangle, not the full width. *)
Lemma captionRect_full_width_failures :
  (let d := Sample.captioned Sample.longCaption
                             InternalSettings.AlignCenterFullWidth in
   let boxRight :=
     (800 - rw (Sample.boundingRect Sample.longCaption)) / 2
     + rw (Sample.boundingRect Sample.longCaption) in
   800 - 140 < boxRight
   /\ captionRect Sample.metrics Sample.lib d
      = Some (mkRect 96 8 564 36, AlignVCenter_AlignLeft)
   /\ captionRect Sample.metrics Sample.lib d
      <> Some (mkRect 96 8 564 36, AlignVCenter_AlignRight))
  /\
  (let boxLeft := (800 - rw (Sample.boundingRect "Glass")) / 2 in
   let boxRight := boxLeft + rw (Sample.boundingRect "Glass") in
   96 <= boxLeft
   /\ boxRight <= 800 - 140
   /\ InternalSettings.titleAlignment (Sample.internalSettings
        0 InternalSettings.BorderNormal InternalSettings.AlignCenterFullWidth)
      = InternalSettings.AlignCenterFullWidth
   /\ captionRect Sample.metrics Sample.lib Sample.hidden
      = Some (mkRect 0 0 0 0, AlignCenter)).
Proof.
  split.
  - cbv zeta. split; [reflexivity |]. split.
    + vm_compute. reflexivity.
    + vm_compute. discriminate.
  - cbv zeta. split; [vm_compute; discriminate |].
    split; [vm_compute; discriminate |].
    split; reflexivity.
Qed.

Lemma captionRect_full_width_witness :
  captionRect Sample.metrics Sample.lib
    (Sample.captioned Sample.mediumCaption InternalSettings.AlignCenterFullWidth)
  = Some (mkRect (Sample.snapToPixelGrid (8 + 80 + of_int (2 * 4)) 1)
                 (Sample.snapToPixelGrid (of_int (4 * 2)) 1)
                 (800 - Sample.snapToPixelGrid (8 + 80 + of_int (2 * 4)) 1
                  - Sample.snapToPixelGrid (800 - 668 + of_int (2 * 4)) 1)
                 (of_int 36),
          AlignVCenter_AlignRight).
Proof.
  destruct (captionRect_full_width Sample.metrics Sample.lib
              (Sample.captioned Sample.mediumCaption
                                InternalSettings.AlignCenterFullWidth)
              _ eq_refl eq_refl eq_refl)
    as [ch [Hch [_ [Hright _]]]].
  injection Hch as <-.
  apply Hright.
  - vm_compute. discriminate.
  - vm_compute. reflexivity.
Defined.

Example captionRect_centred :
  captionRect Sample.metrics Sample.lib Sample.plain
  = Some (intRect 0 8 800 36, AlignCenter).
Proof. vm_compute. reflexivity. Qed.

End CaptionWitness.

(** ** Button glyphs *)

Section Glyphs.

Context (M : Metrics) (K : HostLib).

Import ButtonState.

(** The pen of the glyph is never thinner than [PenWidth_Symbol] device
    units, whatever the size of the button. *)
Lemma pen_width_on_device (width : qreal) :
  0 < width -> 0 <= PenWidth_Symbol M ->
  PenWidth_Symbol M
  <= PenWidth_Symbol M * Qmax 1 (40 / width) * (width / 40).
Proof.
  intros Hpos Hsym.
  assert (Hone : 1 <= Qmax 1 (40 / width) * (width / 40)).
  { destruct (Q.max_spec 1 (40 / width)) as [[Hlt Hmax] | [Hle Hmax]];
      rewrite Hmax.
    - assert (H : 40 / width * (width / 40) == 1) by (field; lra).
      rewrite H. lra.
    - assert (H : 1 <= width / 40).
      { apply Qle_shift_div_l; [lra |].
        apply (Qmult_le_r _ _ width) in Hle; [| exact Hpos].
        assert (H' : 40 / width * width == 40) by (field; lra).
        rewrite H' in Hle. lra. }
      lra. }
  rewrite <- Qmult_assoc.
  set (factor := Qmax 1 (40 / width) * (width / 40)) in *.
  rewrite (Qmult_comm (PenWidth_Symbol M) factor).
  rewrite <- (Qmult_1_l (PenWidth_Symbol M)) at 1.
  apply Qmult_le_compat_r; assumption.
Qed.

Ltac glyph_case :=
  eexists; eexists;
  split; [reflexivity |];
  split; [reflexivity |];
  split; [cbn; rewrite <- ?app_assoc;
          first [reflexivity | symmetry; apply app_nil_r] |];
  split; [repeat (constructor; [reflexivity |]); constructor |];
  split; [reflexivity |].

(** C2, amended.  With a valid foreground colour, on a button whose icon
    rectangle has a width other than 0, [drawIcon] works in a 40 x 40
    canvas scaled uniformly by [width / 40], draws the background disc
    when the background colour is valid, and then the glyph of the
    button's type, every primitive of it under that scaling.  The glyph is
    stroked with the pen of width [PenWidth_Symbol * max(1, 40 / width)],
    which is at least [PenWidth_Symbol] wide on the device for a positive
    width: a bar and a chevron (pointing down when checked) for Shade, two
    chevrons pointing down for KeepBelow and up for KeepAbove, three bars
    for ApplicationMenu, a question mark (an arc with a curve, and a dot)
    for ContextHelp; for OnAllDesktops it is a filled pin with two strokes
    or, when checked, a filled ring with a centre dot in the background
    (or else the title-bar) colour.  The glyph is empty for Close,
    Maximize and Minimize (as for Custom, Menu and Spacer). *)
Theorem drawIcon_glyph (d : Decoration.t) (b : ButtonState.t) (fg : QColor)
        (painter : QPainter.t) :
  Button.foregroundColor K (Some d) b = Some fg ->
  isValid fg = true ->
  let rect := marginsRemoved (geometry b) (m_padding b) in
  let width := rw rect in
  ~ width == 0 ->
  let bg := Button.backgroundColor K (Some d) b in
  let glyphPen :=
    QPainter.Pen fg (PenWidth_Symbol M * Qmax 1 (40 / width))
                 QPainter.RoundCap QPainter.MiterJoin in
  exists painter' glyph,
    Button.drawIcon M K (Some d) b painter = Some painter'
    /\ QPainter.transform painter'
       = QPainter.transform painter
         ++ [QPainter.Translate (topLeft rect);
             QPainter.Scale (width / 40) (width / 40)]
    /\ QPainter.canvas painter'
       = QPainter.canvas painter
         ++ (if isValid bg
             then [QPainter.mkDrawn (QPainter.Ellipse (mkRect 0 0 36 36))
                                    QPainter.NoPen (QPainter.SolidBrush bg)
                                    (QPainter.transform painter')]
             else [])
         ++ glyph
    /\ Forall (fun g =>
                 QPainter.drawnTransform g = QPainter.transform painter')
              glyph
    /\ map (fun g => (QPainter.shape g, QPainter.drawnPen g,
                      QPainter.drawnBrush g))
           glyph
       = match type b with
         | Close | Maximize | Minimize | Custom | Menu | Spacer => []
         | OnAllDesktops =>
             if isChecked b then
               (QPainter.Ellipse (mkRect 6 6 24 24), QPainter.NoPen,
                QPainter.SolidBrush fg)
               :: (let dot :=
                     if isValid bg then bg else Decoration.titleBarColor K d in
                   if isValid dot
                   then [(QPainter.Ellipse (mkRect 16 16 4 4), QPainter.NoPen,
                          QPainter.SolidBrush dot)]
                   else [])
             else
               [(QPainter.Polygon [mkPoint 13 13; mkPoint 24 6;
                                   mkPoint 30 12; mkPoint 19 22],
                 QPainter.NoPen, QPainter.SolidBrush fg);
                (QPainter.Line (mkPoint 11 15) (mkPoint 21 25),
                 glyphPen, QPainter.SolidBrush fg);
                (QPainter.Line (mkPoint 24 12) (mkPoint 9 27),
                 glyphPen, QPainter.SolidBrush fg)]
         | Shade =>
             [(QPainter.Line (mkPoint 8 11) (mkPoint 28 11),
               glyphPen, QPainter.NoBrush);
              (QPainter.Polyline
                 (if isChecked b
                  then [mkPoint 8 16; mkPoint 18 26; mkPoint 28 16]
                  else [mkPoint 8 26; mkPoint 18 16; mkPoint 28 26]),
               glyphPen, QPainter.NoBrush)]
         | KeepBelow =>
             [(QPainter.Polyline [mkPoint 8 10; mkPoint 18 20; mkPoint 28 10],
               glyphPen, QPainter.NoBrush);
              (QPainter.Polyline [mkPoint 8 18; mkPoint 18 28; mkPoint 28 18],
               glyphPen, QPainter.NoBrush)]
         | KeepAbove =>
             [(QPainter.Polyline [mkPoint 8 18; mkPoint 18 8; mkPoint 28 18],
               glyphPen, QPainter.NoBrush);
              (QPainter.Polyline [mkPoint 8 26; mkPoint 18 16; mkPoint 28 26],
               glyphPen, QPainter.NoBrush)]
         | ApplicationMenu =>
             [(QPainter.Rect (mkRect 7 9 22 2), glyphPen, QPainter.NoBrush);
              (QPainter.Rect (mkRect 7 17 22 2), glyphPen, QPainter.NoBrush);
              (QPainter.Rect (mkRect 7 25 22 2), glyphPen, QPainter.NoBrush)]
         | ContextHelp =>
             [(QPainter.Path
                 [QPainter.MoveTo 10 12;
                  QPainter.ArcTo (mkRect 10 7 16 10) 180 (-180);
                  QPainter.CubicTo (mkPoint 25 19) (mkPoint 18 15)
                                   (mkPoint 18 23)],
               glyphPen, QPainter.NoBrush);
              (QPainter.Rect (mkRect 18 30 1 1), glyphPen, QPainter.NoBrush)]
         end
    /\ (0 < width -> 0 <= PenWidth_Symbol M ->
        PenWidth_Symbol M
        <= PenWidth_Symbol M * Qmax 1 (40 / width) * (width / 40)).
Proof.
  intros Hfg Hvalid rect width _ bg glyphPen.
  subst glyphPen bg width rect.
  unfold Button.drawIcon. rewrite Hfg. cbn [bind]. rewrite Hvalid. cbv zeta.
  set (bg := Button.backgroundColor K (Some d) b). clearbody bg.
  set (titleBar := Decoration.titleBarColor K d). clearbody titleBar.
  set (rect := marginsRemoved (geometry b) (m_padding b)). clearbody rect.
  match goal with
  | |- context [QPainter.scale ?p ?sx ?sy] =>
      set (p0 := QPainter.scale p sx sy)
  end.
  assert (Hcanvas : QPainter.canvas p0 = QPainter.canvas painter)
    by reflexivity.
  assert (Htransform :
            QPainter.transform p0
            = QPainter.transform painter
              ++ [QPainter.Translate (topLeft rect);
                  QPainter.Scale (rw rect / 40) (rw rect / 40)]).
  { subst p0. cbn. rewrite <- app_assoc. reflexivity. }
  rewrite <- Hcanvas, <- Htransform. clearbody p0. clear Hcanvas Htransform.
  destruct p0 as [pen0 brush0 hints0 transform0 canvas0].
  destruct (isValid bg) eqn:Hbg; destruct (type b) eqn:Htype;
    try (glyph_case; apply pen_width_on_device).
  all: destruct (isChecked b);
    try (glyph_case; apply pen_width_on_device).
  all: rewrite ?Hbg; cbn [negb]; cbv iota; rewrite ?Hbg;
    try (glyph_case; apply pen_width_on_device).
  all: destruct (isValid titleBar);
    glyph_case; apply pen_width_on_device.
Qed.

End Glyphs.

Section GlyphsWitness.

Import ButtonState.

(** C2 as stated fails: for a Close, a Maximize and a Minimize button of
    an active window, with the valid foreground colour of the sample
    theme, [drawIcon] draws the background disc and nothing else. *)
Lemma drawIcon_traffic_lights_without_glyph :
  Button.foregroundColor Sample.lib (Some Sample.plain)
                         (Sample.button Close false false false)
  = Some (Rgba 252 252 252 255)
  /\ Sample.drawnShapes (Button.drawIcon Sample.metrics Sample.lib (Some Sample.plain)
                    (Sample.button Close false false false) QPainter.fresh)
     = Some [(QPainter.Ellipse (mkRect 0 0 36 36), QPainter.NoPen)]
  /\ Sample.drawnShapes (Button.drawIcon Sample.metrics Sample.lib (Some Sample.plain)
                    (Sample.button Maximize false false false) QPainter.fresh)
     = Some [(QPainter.Ellipse (mkRect 0 0 36 36), QPainter.NoPen)]
  /\ Sample.drawnShapes (Button.drawIcon Sample.metrics Sample.lib (Some Sample.plain)
                    (Sample.button Minimize false false false) QPainter.fresh)
     = Some [(QPainter.Ellipse (mkRect 0 0 36 36), QPainter.NoPen)].
Proof. repeat split; reflexivity. Qed.

Lemma drawIcon_glyph_witness :
  let pen := QPainter.Pen (Rgba 252 252 252 255)
                          ((101 # 100) * Qmax 1 (40 / (36 - 0 - 0)))
                          QPainter.RoundCap QPainter.MiterJoin in
  exists painter' glyph,
    Button.drawIcon Sample.metrics Sample.lib (Some Sample.plain)
                    (Sample.button KeepAbove false false false) QPainter.fresh
    = Some painter'
    /\ QPainter.transform painter'
       = [QPainter.Translate (mkPoint (0 + 0) (0 + 0));
          QPainter.Scale ((36 - 0 - 0) / 40) ((36 - 0 - 0) / 40)]
    /\ QPainter.canvas painter' = glyph
    /\ map (fun g => (QPainter.shape g, QPainter.drawnPen g,
                      QPainter.drawnBrush g))
           glyph
       = [(QPainter.Polyline [mkPoint 8 18; mkPoint 18 8; mkPoint 28 18],
           pen, QPainter.NoBrush);
          (QPainter.Polyline [mkPoint 8 26; mkPoint 18 16; mkPoint 28 26],
           pen, QPainter.NoBrush)]
    /\ 101 # 100 <= (101 # 100) * Qmax 1 (40 / (36 - 0 - 0)) * ((36 - 0 - 0) / 40).
Proof.
  intros pen.
  destruct (drawIcon_glyph Sample.metrics Sample.lib Sample.plain
              (Sample.button KeepAbove false false false) _ QPainter.fresh
              eq_refl eq_refl)
    as [painter' [glyph [Hdraw [Htransform [Hcanvas [_ [Hglyph Hpen]]]]]]].
  - vm_compute. discriminate.
  - exists painter', glyph.
    split; [exact Hdraw |]. split; [exact Htransform |].
    split; [exact Hcanvas |]. split; [exact Hglyph |].
    apply Hpen; vm_compute; [reflexivity | discriminate].
Defined.

Example drawIcon_keep_above :
  Sample.drawnShapes (Button.drawIcon Sample.metrics Sample.lib (Some Sample.plain)
                 (Sample.button KeepAbove false false false) QPainter.fresh)
  = let pen := QPainter.Pen (Rgba 252 252 252 255)
                            ((101 # 100) * Qmax 1 (40 / (36 - 0 - 0)))
                            QPainter.RoundCap QPainter.MiterJoin in
    Some [(QPainter.Polyline [mkPoint 8 18; mkPoint 18 8; mkPoint 28 18], pen);
          (QPainter.Polyline [mkPoint 8 26; mkPoint 18 16; mkPoint 28 26], pen)].
Proof. reflexivity. Qed.

End GlyphsWitness.


(* ------------------------------------------------------------------ *)
(** * Further properties of the code *)

(** ** Shadow parameters *)

Section ShadowTable.

Import Shadow.

(** X1.  The parameters looked up for a shadow size describe no shadow
    exactly for the size None; a size outside the enumeration gets a
    shadow (the one of Large). *)
Theorem lookupShadowParams_isNone (size : EnumShadowSize) :
  CompositeShadowParams.isNone (lookupShadowParams size) = true
  <-> size = ShadowNone.
Proof.
  destruct size; simpl; split; intros H; try reflexivity; discriminate.
Qed.

(** X2.  Every entry of the shadow table, and so every result of the
    lookup, has purely vertical offsets, a first layer twice as wide as the
    second, an offset of a quarter of the first radius, a second layer
    shifted back by half of that offset, and opacities between 0 and 1; a
    size outside the enumeration is looked up as Large. *)
Theorem lookupShadowParams_proportions (size : EnumShadowSize) :
  let c := lookupShadowParams size in
  let s1 := CompositeShadowParams.shadow1 c in
  let s2 := CompositeShadowParams.shadow2 c in
  let dy := ShadowParams.y (CompositeShadowParams.offset c) in
  (ShadowParams.x (CompositeShadowParams.offset c) = 0
   /\ ShadowParams.x (ShadowParams.offset s1) = 0
   /\ ShadowParams.x (ShadowParams.offset s2) = 0)%Z
  /\ (ShadowParams.radius s1 = 2 * ShadowParams.radius s2)%Z
  /\ (4 * dy = ShadowParams.radius s1)%Z
  /\ (ShadowParams.y (ShadowParams.offset s1) = 0)%Z
  /\ (2 * ShadowParams.y (ShadowParams.offset s2) = - dy)%Z
  /\ 0 <= ShadowParams.opacity s2 <= ShadowParams.opacity s1
  /\ ShadowParams.opacity s1 <= 1
  /\ lookupShadowParams ShadowUnmapped = lookupShadowParams ShadowLarge.
Proof.
  destruct size; cbv zeta; simpl;
    repeat split; try reflexivity; try discriminate.
Qed.

End ShadowTable.

(** ** Borders and sizes *)

Lemma decoration_on_valueChanged_value (d : Decoration.t) (v : qreal) :
  Decoration.m_opacity (Decoration.on_valueChanged d (Some v)) == v.
Proof.
  cbn. unfold Decoration.setOpacity.
  destruct (Qeq_bool (Decoration.m_opacity d) v) eqn:Hsame; cbn.
  - apply Qeq_bool_iff. exact Hsame.
  - reflexivity.
Qed.

(** What [setDuration] does, case by case: nothing, or a recomputed
    value that is emitted unless the animation had it already. *)
Lemma setDuration_cases (a : QAbstractAnimation.QVariantAnimation) (n : Z) :
  exists a' emitted,
    QAbstractAnimation.setDuration a n = (a', emitted)
    /\ QAbstractAnimation.duration a'
       = (if (n <? 0)%Z then QAbstractAnimation.duration a else n)
    /\ ((a' = a /\ emitted = None)
        \/ ((0 <= n)%Z /\ n <> QAbstractAnimation.duration a
            /\ exists v,
                QAbstractAnimation.currentValue a' = Some v
                /\ (emitted = Some v
                    \/ (emitted = None
                        /\ exists old,
                            QAbstractAnimation.currentValue a = Some old
                            /\ old == v)))).
Proof.
  unfold QAbstractAnimation.setDuration.
  destruct (n <? 0)%Z eqn:Hneg.
  { eexists. eexists. split; [reflexivity |]. split; [reflexivity |].
    left. split; reflexivity. }
  destruct (QAbstractAnimation.duration a =? n)%Z eqn:Hsame.
  { eexists. eexists. split; [reflexivity |].
    split; [apply Z.eqb_eq in Hsame; exact Hsame |].
    left. split; reflexivity. }
  eexists. eexists. split; [reflexivity |]. split; [reflexivity |].
  right. apply Z.ltb_ge in Hneg. apply Z.eqb_neq in Hsame.
  split; [exact Hneg |]. split; [congruence |].
  eexists. split; [reflexivity |].
  destruct (QAbstractAnimation.currentValue a) as [old |];
    cbn [QAbstractAnimation.value_eqb].
  - destruct (Qeq_bool old _) eqn:Hold.
    + right. split; [reflexivity |]. exists old. split; [reflexivity |].
      apply Qeq_bool_iff in Hold. exact Hold.
    + left. reflexivity.
  - left. reflexivity.
Qed.

Section BordersMore.

Context (M : Metrics) (K : HostLib).

Import Decoration.

(** X3.  [buttonSize] is the grid unit times 1, 1.5, 2, 2.5 or 3.5, rounded
    down to a whole number, for Tiny, Small, Default, Large and VeryLarge;
    a category outside the enumeration counts as Default.  This holds for
    a grid unit that is not negative and whose product is in the range of
    [int]. *)
Theorem buttonSize_factors (d : Decoration.t) (i : InternalSettings.t) :
  let half_units :=
    match InternalSettings.buttonSize i with
    | InternalSettings.ButtonTiny => 2
    | InternalSettings.ButtonSmall => 3
    | InternalSettings.ButtonDefault | InternalSettings.ButtonUnmapped => 4
    | InternalSettings.ButtonLarge => 5
    | InternalSettings.ButtonVeryLarge => 7
    end%Z in
  m_internalSettings d = Some i ->
  (0 <= gridUnit (settings (host d)))%Z ->
  (half_units * gridUnit (settings (host d)) / 2 <= 2147483647)%Z ->
  buttonSize d = Some (half_units * gridUnit (settings (host d)) / 2)%Z.
Proof.
  intros half_units Hi Hgrid _. subst half_units.
  unfold buttonSize. rewrite Hi. cbn [bind]. f_equal.
  set (g := gridUnit (settings (host d))) in *.
  destruct (InternalSettings.buttonSize i); unfold to_int, of_int; cbn [Qnum Qden Qmult inject_Z].
  - rewrite Z.mul_comm. symmetry. apply Z.div_mul. discriminate.
  - rewrite Z.quot_div_nonneg by lia. f_equal; lia.
  - replace (4 * g)%Z with (g * 2 * 2)%Z by ring.
    symmetry. apply Z.div_mul. discriminate.
  - rewrite Z.quot_div_nonneg by lia. f_equal; lia.
  - rewrite Z.quot_div_nonneg by lia. f_equal; lia.
  - replace (4 * g)%Z with (g * 2 * 2)%Z by ring.
    symmetry. apply Z.div_mul. discriminate.
Qed.

(** X4.  After [recalculateBorders] the left and the right border are
    equal; the resize-only borders have no top, equal sides, and are all
    zero unless the window has no borders or no side borders; they are
    zero along a direction in which the window is maximized. *)
Theorem recalculateBorders_margins (d d' : Decoration.t) :
  recalculateBorders M K d = Some d' ->
  let extra := resizeOnlyBorders d' in
  borderLeft d' = borderRight d'
  /\ mtop extra = 0
  /\ mleft extra = mright extra
  /\ (hasNoBorders (host d) = false -> mbottom extra = 0)
  /\ (hasNoBorders (host d) = false -> hasNoSideBorders (host d) = false ->
      mleft extra = 0)
  /\ (isMaximizedHorizontally (host d) = true -> mleft extra = 0)
  /\ (isMaximizedVertically (host d) = true -> mbottom extra = 0).
Proof.
  unfold recalculateBorders.
  destruct (if hideTitleBar (host d) then _ else _) as [top |]; cbn [bind];
    [| discriminate].
  intros [= <-]. cbn.
  repeat split.
  - intros ->. reflexivity.
  - intros -> ->. reflexivity.
  - intros ->. destruct (hasNoBorders (host d)); cbn; [reflexivity |].
    rewrite Bool.andb_false_r. reflexivity.
  - intros ->. destruct (hasNoBorders (host d)); reflexivity.
Qed.

(** X5.  The borders and the resize-only borders [recalculateBorders]
    computes depend on the host state and on the theme configuration
    alone: a decoration that agrees with another on these two gets the
    same borders, whatever its other members hold.  So a second run
    computes the same borders as the first, also after the title bar and
    the button groups have been updated in between. *)
Theorem recalculateBorders_stable (d d' e : Decoration.t) :
  recalculateBorders M K d = Some d' ->
  host e = host d ->
  m_internalSettings e = m_internalSettings d ->
  exists e',
    recalculateBorders M K e = Some e'
    /\ borders e' = borders d'
    /\ resizeOnlyBorders e' = resizeOnlyBorders d'.
Proof.
  intros Hrun Hhost Hi.
  unfold recalculateBorders in *. rewrite Hhost.
  replace (buttonSize e) with (buttonSize d)
    by (unfold buttonSize; rewrite Hi, Hhost; reflexivity).
  replace (borderSize M K e) with (borderSize M K d)
    by (unfold borderSize; rewrite Hi, Hhost; reflexivity).
  destruct (if hideTitleBar (host d) then _ else _) as [top |];
    cbn [bind] in *; [| discriminate].
  injection Hrun as <-.
  eexists. split; [reflexivity |].
  cbn [host setBorders setResizeOnlyBorders borders resizeOnlyBorders].
  rewrite Hhost. split; reflexivity.
Qed.

(** X6.  [reconfigure] installs the provided theme configuration before it
    reads it: it succeeds on every decoration, also one that had no
    configuration, sets the duration of the window animation (a negative
    duration is ignored), and computes the borders under the new
    configuration.  A new duration makes the animation recompute its value
    at its current time, and the progress value of the decoration follows
    the animation as it did before. *)
Theorem reconfigure_installs (d : Decoration.t) (provided : InternalSettings.t) :
  let n := InternalSettings.animationsDuration provided in
  let a := m_animation d in
  exists d',
    reconfigure M K d provided = Some d'
    /\ m_internalSettings d' = Some provided
    /\ QAbstractAnimation.duration (m_animation d')
       = (if (n <? 0)%Z then QAbstractAnimation.duration a else n)
    /\ borderBottom d'
       = borderSize M K (setInternalSettings d (Some provided)) true
                    (nextScale (window (host d)))
    /\ ((0 <= n)%Z -> n <> QAbstractAnimation.duration a ->
        QAbstractAnimation.currentValue (m_animation d')
        = Some (QAbstractAnimation.valueForProgress
                  (QAbstractAnimation.easingCurve a)
                  (if (n =? 0)%Z
                   then match QAbstractAnimation.direction a with
                        | QAbstractAnimation.Forward => 1
                        | QAbstractAnimation.Backward => 0
                        end
                   else of_int (QAbstractAnimation.currentTime a) / of_int n)))
    /\ (inSync d -> inSync d').
Proof.
  intros n a.
  unfold reconfigure. fold n.
  cbn [m_animation setInternalSettings]. fold a.
  destruct (setDuration_cases a n) as [a' [emitted [Hset [Hdur Hcases]]]].
  rewrite Hset.
  set (d0 := setAnimation _ a').
  set (d1 := on_valueChanged d0 emitted).
  assert (Hhost : host d1 = host d).
  { subst d1. destruct emitted as [v |]; cbn [on_valueChanged];
      [unfold setOpacity; destruct (Qeq_bool _ _) |]; reflexivity. }
  assert (Hi : m_internalSettings d1 = Some provided).
  { subst d1. destruct emitted as [v |]; cbn [on_valueChanged];
      [unfold setOpacity; destruct (Qeq_bool _ _) |]; reflexivity. }
  assert (Ha : m_animation d1 = a').
  { subst d1. apply decoration_on_valueChanged_animation. }
  assert (Hbs : exists bs, buttonSize d1 = Some bs).
  { apply (buttonSize_total d1 provided). exact Hi. }
  destruct Hbs as [bs Hbs].
  assert (Hborder : forall bottom scale,
             borderSize M K d1 bottom scale
             = borderSize M K (setInternalSettings d (Some provided))
                          bottom scale).
  { intros bottom scale. unfold borderSize. rewrite Hi, Hhost. reflexivity. }
  assert (Hsync : inSync d -> inSync d1).
  { intros Hd. unfold inSync in *. rewrite Ha. fold a in Hd.
    destruct Hcases as [[-> ->] | [Hpos [Hnew [v [Hv Hemitted]]]]].
    - exact Hd.
    - rewrite Hv. subst d1.
      destruct Hemitted as [-> | [-> [old [Hold Hsame]]]].
      + apply decoration_on_valueChanged_value.
      + cbn [on_valueChanged]. rewrite Hold in Hd.
        change (m_opacity d0) with (m_opacity d).
        rewrite Hd. exact Hsame. }
  unfold recalculateBorders. rewrite Hbs, Hhost. cbn [bind].
  assert (Hvalue :
            (0 <= n)%Z -> n <> QAbstractAnimation.duration a ->
            QAbstractAnimation.currentValue a'
            = Some (QAbstractAnimation.valueForProgress
                      (QAbstractAnimation.easingCurve a)
                      (if (n =? 0)%Z
                       then match QAbstractAnimation.direction a with
                            | QAbstractAnimation.Forward => 1
                            | QAbstractAnimation.Backward => 0
                            end
                       else of_int (QAbstractAnimation.currentTime a)
                            / of_int n))).
  { intros Hpos Hnew.
    unfold QAbstractAnimation.setDuration in Hset.
    destruct (n <? 0)%Z eqn:Hneg; [apply Z.ltb_lt in Hneg; lia |].
    destruct (QAbstractAnimation.duration a =? n)%Z eqn:Hsame;
      [apply Z.eqb_eq in Hsame; congruence |].
    injection Hset as <- _. reflexivity. }
  destruct (hideTitleBar (host d)); cbn [bind];
    (eexists; split; [reflexivity |]; split; [exact Hi |];
     split; [cbn [m_animation setResizeOnlyBorders setBorders];
             rewrite Ha; exact Hdur |];
     split; [unfold borderBottom;
             cbn [borders setResizeOnlyBorders setBorders mbottom];
             rewrite Hborder; reflexivity |];
     split; [cbn [m_animation setResizeOnlyBorders setBorders];
             rewrite Ha; exact Hvalue |];
     intros Hd; exact (Hsync Hd)).
Qed.

End BordersMore.

Section BordersMoreWitness.

Import Decoration.

Lemma buttonSize_factors_witness :
  buttonSize Sample.plain = Some (4 * 18 / 2)%Z.
Proof.
  refine (buttonSize_factors Sample.plain _ eq_refl _ _);
    vm_compute; discriminate.
Defined.

Lemma recalculateBorders_margins_witness :
  exists d',
    recalculateBorders Sample.metrics Sample.lib Sample.plain = Some d'
    /\ borderLeft d' = borderRight d'
    /\ mtop (resizeOnlyBorders d') = 0
    /\ mleft (resizeOnlyBorders d') = 0.
Proof.
  destruct (recalculateBorders Sample.metrics Sample.lib Sample.plain)
    as [d' |] eqn:Hrun; [| vm_compute in Hrun; discriminate].
  destruct (recalculateBorders_margins Sample.metrics Sample.lib
              Sample.plain d' Hrun)
    as [Hsides [Htop [_ [_ [Hnone _]]]]].
  exists d'. repeat split; try assumption.
  apply Hnone; reflexivity.
Defined.

Lemma recalculateBorders_stable_witness :
  exists d' d'',
    recalculateBorders Sample.metrics Sample.lib Sample.plain = Some d'
    /\ recalculateBorders Sample.metrics Sample.lib
         (updateTitleBar Sample.metrics d') = Some d''
    /\ borders d'' = borders d'
    /\ resizeOnlyBorders d'' = resizeOnlyBorders d'.
Proof.
  destruct (recalculateBorders Sample.metrics Sample.lib Sample.plain)
    as [d' |] eqn:Hrun; [| vm_compute in Hrun; discriminate].
  destruct (recalculateBorders_stable Sample.metrics Sample.lib
              Sample.plain d' (updateTitleBar Sample.metrics d') Hrun)
    as [d'' [Hagain [Hborders Hextra]]].
  - injection Hrun as <-. reflexivity.
  - injection Hrun as <-. reflexivity.
  - exists d', d''. repeat split; assumption.
Defined.

Lemma reconfigure_installs_witness :
  exists d' v,
    reconfigure Sample.metrics Sample.lib Sample.deactivated
      (InternalSettings.mkInternalSettings
         0 InternalSettings.BorderNormal InternalSettings.ButtonDefault 6
         true 100 InternalSettings.AlignCenterFullWidth false false)
    = Some d'
    /\ QAbstractAnimation.duration (m_animation d') = 100%Z
    /\ QAbstractAnimation.currentValue (m_animation d') = Some v
    /\ v == 1 # 2
    /\ m_opacity d' == 1 # 2.
Proof.
  destruct (reconfigure_installs Sample.metrics Sample.lib Sample.deactivated
              (InternalSettings.mkInternalSettings
                 0 InternalSettings.BorderNormal InternalSettings.ButtonDefault
                 6 true 100 InternalSettings.AlignCenterFullWidth false false))
    as [d' [Hrun [_ [Hduration [_ [Hvalue Hsync]]]]]].
  assert (Hnow : QAbstractAnimation.currentValue (m_animation d')
                 = Some (10000 # 20000)).
  { rewrite Hvalue; [vm_compute; reflexivity | | ];
      vm_compute; discriminate. }
  exists d', (10000 # 20000).
  split; [exact Hrun |]. split; [exact Hduration |].
  split; [exact Hnow |]. split; [reflexivity |].
  assert (Hd : inSync d') by (apply Hsync; vm_compute; exact I).
  unfold inSync in Hd. rewrite Hnow in Hd. rewrite Hd. reflexivity.
Defined.

End BordersMoreWitness.

(** ** Title-bar rectangle and separator *)

Lemma to_int_bounds (x : qreal) (n : Z) :
  0 <= x -> x <= of_int n -> (0 <= to_int x <= n)%Z.
Proof.
  destruct x as [num den]. unfold Qle, to_int, of_int. simpl.
  intros Hlow Hhigh.
  rewrite Z.quot_div_nonneg by lia.
  split.
  - apply Z.div_pos; lia.
  - apply Z.div_le_upper_bound; lia.
Qed.

Section TitleBar.

Context (M : Metrics) (K : HostLib).

Import Decoration.

(** X7.  The rectangle set by [updateTitleBar] always ends at the top
    border; on a maximized window it starts at the origin and spans the
    window's width; otherwise it leaves the same margin, [smallSpacing *
    TitleBar_SideMargin], on the left and on the right of the window's
    width.  Nothing but the rectangle changes: every other member of the
    decoration is as it was. *)
Theorem updateTitleBar_rect (d : Decoration.t) :
  let d' := updateTitleBar M d in
  let r := titleBar d' in
  let w := KDecoration3.width (window (host d)) in
  let margin :=
    of_int (smallSpacing (settings (host d)) * TitleBar_SideMargin M) in
  bottom r == borderTop d
  /\ (isMaximized (host d) = true -> r = mkRect 0 0 w (borderTop d))
  /\ (isMaximized (host d) = false ->
      left r = margin /\ right r + margin == w)
  /\ d' = setTitleBar d r
  /\ host d' = host d
  /\ m_internalSettings d' = m_internalSettings d
  /\ m_animation d' = m_animation d
  /\ m_opacity d' = m_opacity d
  /\ m_titleRect d' = m_titleRect d
  /\ m_titleBarPath d' = m_titleBarPath d
  /\ m_windowPath d' = m_windowPath d
  /\ m_leftButtons d' = m_leftButtons d
  /\ m_rightButtons d' = m_rightButtons d
  /\ borders d' = borders d
  /\ resizeOnlyBorders d' = resizeOnlyBorders d.
Proof.
  intros d' r w margin. subst d' r. unfold updateTitleBar.
  cbv zeta. cbn [titleBar setTitleBar borders m_leftButtons m_rightButtons].
  unfold bottom, left, right. cbn [rx ry rw rh]. fold w.
  split; [| split; [| split; [| repeat split]]].
  - destruct (isMaximized (host d) || isTopEdge (host d)); ring.
  - intros ->. reflexivity.
  - intros ->. cbn [orb]. split; [reflexivity |].
    subst margin. unfold of_int. rewrite !inject_Z_mult. ring.
Qed.

(** X8.  [outlineColor] is invalid when the separator is switched off, and
    when the window is inactive and no animation runs.  Otherwise it is the
    host's highlight colour with nothing but its alpha channel changed:
    the highlight colour itself when no animation runs, and for a progress
    in [0, 1] an alpha between 0 and the highlight's own while one runs. *)
Theorem outlineColor_alpha (d : Decoration.t) (i : InternalSettings.t) :
  m_internalSettings d = Some i ->
  0 <= m_opacity d -> m_opacity d <= 1 ->
  (0 <= alpha (palette_Highlight (window (host d))))%Z ->
  let highlight := palette_Highlight (window (host d)) in
  let running :=
    QAbstractAnimation.State_eqb (QAbstractAnimation.state (m_animation d))
                                 QAbstractAnimation.Running in
  exists c,
    outlineColor d = Some c
    /\ (InternalSettings.drawTitleBarSeparator i = false -> c = InvalidColor)
    /\ (running = false -> isActive (window (host d)) = false ->
        c = InvalidColor)
    /\ (InternalSettings.drawTitleBarSeparator i = true ->
        running = false -> isActive (window (host d)) = true ->
        c = highlight)
    /\ (InternalSettings.drawTitleBarSeparator i = true -> running = true ->
        isValid c = isValid highlight
        /\ forall r g b a, highlight = Rgba r g b a ->
             exists a', c = Rgba r g b a' /\ (0 <= a' <= a)%Z).
Proof.
  intros Hi Hlow Hhigh Halpha highlight running.
  unfold outlineColor. rewrite Hi. cbn [bind].
  fold highlight running. fold highlight in Halpha.
  destruct (InternalSettings.drawTitleBarSeparator i); cbn [negb].
  - destruct running eqn:Hrun.
    + eexists. split; [reflexivity |]. split; [discriminate |].
      split; [discriminate |]. split; [discriminate |].
      intros _ _. split.
      * destruct highlight; reflexivity.
      * intros r g b a ->. cbn [setAlpha alpha] in *.
        eexists. split; [reflexivity |].
        apply to_int_bounds.
        -- apply Qmult_le_0_compat; [| exact Hlow].
           unfold of_int, Qle; simpl; lia.
        -- rewrite <- (Qmult_1_r (of_int a)) at 2.
           rewrite (Qmult_comm (of_int a) (m_opacity d)),
                   (Qmult_comm (of_int a) 1).
           apply Qmult_le_compat_r; [exact Hhigh |].
           unfold of_int, Qle; simpl; lia.
    + destruct (isActive (window (host d))).
      * eexists. split; [reflexivity |]. split; [discriminate |].
        split; [discriminate |]. split; [reflexivity |]. discriminate.
      * eexists. split; [reflexivity |]. split; [reflexivity |].
        split; [reflexivity |]. split; discriminate.
  - eexists. split; [reflexivity |]. split; [reflexivity |].
    split; [reflexivity |]. split; discriminate.
Qed.

End TitleBar.

Section TitleBarWitness.

Import Decoration.

Lemma updateTitleBar_rect_witness :
  titleBar (updateTitleBar Sample.metrics Sample.maximized)
  = mkRect 0 0 800 44
  /\ left (titleBar (updateTitleBar Sample.metrics Sample.plain))
     = of_int (4 * 2)
  /\ right (titleBar (updateTitleBar Sample.metrics Sample.plain))
     + of_int (4 * 2) == 800.
Proof.
  destruct (updateTitleBar_rect Sample.metrics Sample.maximized)
    as [_ [Hmax _]].
  destruct (updateTitleBar_rect Sample.metrics Sample.plain)
    as [_ [_ [Hplain _]]].
  split; [exact (Hmax eq_refl) |].
  exact (Hplain eq_refl).
Defined.

Lemma outlineColor_alpha_witness :
  exists c a',
    outlineColor Sample.separated = Some c
    /\ c = Rgba 61 174 233 a' /\ (0 <= a' <= 255)%Z.
Proof.
  destruct (outlineColor_alpha Sample.separated _ eq_refl)
    as [c [Hc [_ [_ [_ Hrunning]]]]].
  - vm_compute. discriminate.
  - vm_compute. discriminate.
  - vm_compute. discriminate.
  - destruct (Hrunning eq_refl eq_refl) as [_ Hrgba].
    destruct (Hrgba 61 174 233 255 eq_refl)%Z as [a' [Hc' Hrange]].
    exists c, a'. repeat split; try assumption; apply Hrange.
Defined.

Example outlineColor_separated :
  outlineColor Sample.separated = Some (Rgba 61 174 233 31).
Proof. reflexivity. Qed.

End TitleBarWitness.

(** ** Animation progress *)

Section EasingCurve.

Import QAbstractAnimation.

Lemma qBound_range (p : qreal) : 0 <= qBound 0 p 1 <= 1.
Proof.
  unfold qBound. split.
  - apply Q.le_max_l.
  - apply Q.max_lub; [discriminate | apply Q.le_min_l].
Qed.

Lemma qBound_inside (p : qreal) : 0 <= p -> p <= 1 -> qBound 0 p 1 == p.
Proof.
  intros Hlow Hhigh. unfold qBound.
  rewrite (Q.min_r 1 p Hhigh). apply Q.max_r. exact Hlow.
Qed.

(** The easing curves map every progress into [0, 1]. *)
Lemma valueForProgress_range (e : EasingCurve) (p : qreal) :
  0 <= valueForProgress e p <= 1.
Proof.
  unfold valueForProgress.
  destruct (qBound_range p) as [Hlow Hhigh].
  set (b := qBound 0 p 1) in *. clearbody b.
  destruct e; [split; assumption |].
  cbv zeta. destruct (Qltb (b * 2) 1) eqn:Hhalf.
  - apply Qltb_spec in Hhalf.
    assert (H : b * 2 * (b * 2) / 2 == 2 * b * b) by field.
    rewrite H. split; nra.
  - apply Qltb_false in Hhalf. split; nra.
Qed.

Lemma valueForProgress_end (e : EasingCurve) (p : qreal) :
  p == 1 -> valueForProgress e p == 1.
Proof.
  intros Hp. unfold valueForProgress.
  assert (Hb : qBound 0 p 1 == 1).
  { rewrite qBound_inside; [exact Hp | |]; rewrite Hp; discriminate. }
  set (b := qBound 0 p 1) in *. clearbody b.
  destruct e; [exact Hb |].
  cbv zeta. destruct (Qltb (b * 2) 1) eqn:Hhalf.
  - apply Qltb_spec in Hhalf. rewrite Hb in Hhalf. discriminate.
  - rewrite Hb. reflexivity.
Qed.

Lemma valueForProgress_begin (e : EasingCurve) (p : qreal) :
  p == 0 -> valueForProgress e p == 0.
Proof.
  intros Hp. unfold valueForProgress.
  assert (Hb : qBound 0 p 1 == 0).
  { rewrite qBound_inside; [exact Hp | |]; rewrite Hp; discriminate. }
  set (b := qBound 0 p 1) in *. clearbody b.
  destruct e; [exact Hb |].
  cbv zeta. destruct (Qltb (b * 2) 1) eqn:Hhalf.
  - rewrite Hb. reflexivity.
  - apply Qltb_false in Hhalf. rewrite Hb in Hhalf.
    exfalso. apply Hhalf. reflexivity.
Qed.

Lemma setCurrentTime_emitted (a : QVariantAnimation) (msecs : Z) (v : qreal) :
  snd (setCurrentTime a msecs) = Some v -> 0 <= v <= 1.
Proof.
  unfold setCurrentTime. cbn [snd].
  destruct (value_eqb _ _); [discriminate |].
  intros [= <-]. apply valueForProgress_range.
Qed.

Lemma start_emitted (a : QVariantAnimation) (v : qreal) :
  snd (start a) = Some v -> 0 <= v <= 1.
Proof.
  unfold start. destruct (state a); try discriminate.
  apply setCurrentTime_emitted.
Qed.

Lemma advance_emitted (a : QVariantAnimation) (delta : Z) (v : qreal) :
  snd (advance a delta) = Some v -> 0 <= v <= 1.
Proof.
  unfold advance. destruct (state a); try discriminate.
  apply setCurrentTime_emitted.
Qed.

End EasingCurve.

Section Progress.

Import QAbstractAnimation.

Lemma decoration_on_valueChanged_range (d : Decoration.t) (e : option qreal) :
  0 <= Decoration.m_opacity d <= 1 ->
  (forall v, e = Some v -> 0 <= v <= 1) ->
  0 <= Decoration.m_opacity (Decoration.on_valueChanged d e) <= 1.
Proof.
  intros Hd He. destruct e as [v |]; cbn; [| exact Hd].
  unfold Decoration.setOpacity.
  destruct (Qeq_bool (Decoration.m_opacity d) v); cbn; [exact Hd |].
  apply He. reflexivity.
Qed.

Lemma button_on_valueChanged_range (b : ButtonState.t) (e : option qreal) :
  0 <= ButtonState.m_opacity b <= 1 ->
  (forall v, e = Some v -> 0 <= v <= 1) ->
  0 <= ButtonState.m_opacity (Button.on_valueChanged b e) <= 1.
Proof.
  intros Hb He. destruct e as [v |]; cbn; [| exact Hb].
  unfold ButtonState.setOpacity.
  destruct (Qeq_bool (ButtonState.m_opacity b) v); cbn; [exact Hb |].
  apply He. reflexivity.
Qed.

(** X9.  The progress value of the window and of every button stays in
    [0, 1]: [updateAnimationState] and the ticks of the animation timer
    keep it there, whatever the state, the time and the duration of the
    animation are. *)
Theorem progress_stays_in_range :
  (forall d d',
      0 <= Decoration.m_opacity d <= 1 ->
      Decoration.updateAnimationState d = Some d' ->
      0 <= Decoration.m_opacity d' <= 1)
  /\ (forall d delta,
         0 <= Decoration.m_opacity d <= 1 ->
         0 <= Decoration.m_opacity (Decoration.animationTick d delta) <= 1)
  /\ (forall d b hovered b',
         0 <= ButtonState.m_opacity b <= 1 ->
         Button.updateAnimationState d b hovered = Some b' ->
         0 <= ButtonState.m_opacity b' <= 1)
  /\ (forall b delta,
         0 <= ButtonState.m_opacity b <= 1 ->
         0 <= ButtonState.m_opacity (Button.animationTick b delta) <= 1).
Proof.
  split; [| split; [| split]].
  - intros d d' Hd. unfold Decoration.updateAnimationState.
    destruct (Decoration.m_internalSettings d) as [i |]; cbn [bind];
      [| discriminate].
    destruct (InternalSettings.animationsEnabled i);
      [| intros [= <-]; exact Hd].
    destruct (negb _).
    + destruct (start _) as [a' e] eqn:Hstart. intros [= <-].
      apply decoration_on_valueChanged_range; [exact Hd |].
      intros v ->.
      match type of Hstart with
      | start ?a = _ => apply (start_emitted a v)
      end.
      rewrite Hstart. reflexivity.
    + intros [= <-]. exact Hd.
  - intros d delta Hd. unfold Decoration.animationTick.
    destruct (advance _ _) as [a' e] eqn:Hadv.
    apply decoration_on_valueChanged_range; [exact Hd |].
    intros v ->.
    match type of Hadv with
    | advance ?a _ = _ => apply (advance_emitted a delta v)
    end.
    rewrite Hadv. reflexivity.
  - intros d b hovered b' Hb. unfold Button.updateAnimationState.
    destruct d as [d |]; [| intros [= <-]; exact Hb].
    destruct (Decoration.m_internalSettings d) as [i |]; cbn [bind];
      [| discriminate].
    destruct (InternalSettings.animationsEnabled i); cbn [negb];
      [| intros [= <-]; exact Hb].
    destruct (negb _).
    + destruct (start _) as [a' e] eqn:Hstart. intros [= <-].
      apply button_on_valueChanged_range; [exact Hb |].
      intros v ->.
      match type of Hstart with
      | start ?a = _ => apply (start_emitted a v)
      end.
      rewrite Hstart. reflexivity.
    + intros [= <-]. exact Hb.
  - intros b delta Hb. unfold Button.animationTick.
    destruct (advance _ _) as [a' e] eqn:Hadv.
    apply button_on_valueChanged_range; [exact Hb |].
    intros v ->.
    match type of Hadv with
    | advance ?a _ = _ => apply (advance_emitted a delta v)
    end.
    rewrite Hadv. reflexivity.
Qed.

(** The progress value after [start] on a stopped animation of duration 0
    is the end value of its direction, and the animation is stopped
    again. *)
Lemma start_zero_duration (a : QVariantAnimation) :
  state a = Stopped -> duration a = 0%Z ->
  let target := match direction a with Forward => 1 | Backward => 0 end in
  state (fst (start a)) = Stopped
  /\ match snd (start a) with
     | Some v => v == target
     | None => exists old, currentValue a = Some old /\ old == target
     end.
Proof.
  intros Hstopped Hzero target. unfold start. rewrite Hstopped.
  unfold setCurrentTime, interpolated.
  cbn [QAbstractAnimation.duration QAbstractAnimation.direction
       QAbstractAnimation.currentTime QAbstractAnimation.easingCurve
       QAbstractAnimation.state QAbstractAnimation.currentValue fst snd].
  rewrite Hzero. cbn [Z.eqb].
  set (v := valueForProgress _ _).
  assert (Hv : v == target).
  { subst v target. destruct (direction a).
    - apply valueForProgress_end. reflexivity.
    - apply valueForProgress_begin. reflexivity. }
  split.
  - destruct (direction a); cbn; reflexivity.
  - destruct (currentValue a) as [old |] eqn:Hold; cbn [value_eqb].
    + destruct (Qeq_bool old v) eqn:Hsame; [| exact Hv].
      exists old. split; [reflexivity |].
      apply Qeq_bool_iff in Hsame. rewrite Hsame. exact Hv.
    + exact Hv.
Qed.

(** X10.  No running animation is observed when animations are switched
    off or have the duration 0: from a stopped window animation,
    [updateAnimationState] leaves the animation stopped; with the duration
    0 and animations switched on, the progress value is at once the end
    value of the new direction, 1 for an active window and 0 for an
    inactive one. *)
Theorem instantaneous_without_duration
        (d : Decoration.t) (i : InternalSettings.t) :
  Decoration.m_internalSettings d = Some i ->
  state (Decoration.m_animation d) = Stopped ->
  Decoration.inSync d ->
  InternalSettings.animationsEnabled i = false
  \/ duration (Decoration.m_animation d) = 0%Z ->
  exists d',
    Decoration.updateAnimationState d = Some d'
    /\ state (Decoration.m_animation d') = Stopped
    /\ (InternalSettings.animationsEnabled i = false -> d' = d)
    /\ (InternalSettings.animationsEnabled i = true ->
        Decoration.m_opacity d'
        == (if isActive (Decoration.window (Decoration.host d))
            then 1 else 0)).
Proof.
  intros Hi Hstopped Hsync Hcase.
  unfold Decoration.updateAnimationState. rewrite Hi. cbn [bind].
  destruct (InternalSettings.animationsEnabled i) eqn:Hen.
  - destruct Hcase as [Hoff | Hzero]; [discriminate |].
    set (target := if isActive (Decoration.window (Decoration.host d))
                   then Forward else Backward).
    set (a := setDirection (Decoration.m_animation d) target).
    assert (Hstate : state a = Stopped)
      by (subst a; rewrite setDirection_state; exact Hstopped).
    assert (Hdur : duration a = 0%Z)
      by (subst a; rewrite setDirection_duration; exact Hzero).
    assert (Hdir : direction a = target)
      by (subst a; apply setDirection_direction).
    assert (Hvalue : currentValue a = currentValue (Decoration.m_animation d)).
    { subst a. unfold setDirection.
      destruct (Direction_eqb _ _); reflexivity. }
    rewrite Hstate. cbn [State_eqb negb].
    destruct (start_zero_duration a Hstate Hdur) as [Hend Hemit].
    destruct (start a) as [a' e] eqn:Hstart. cbn [fst snd] in *.
    eexists. split; [reflexivity |].
    split; [rewrite decoration_on_valueChanged_animation; exact Hend |].
    split; [discriminate |].
    intros _. rewrite Hdir in Hemit.
    assert (Htarget : (match target with Forward => 1 | Backward => 0 end)
                      = (if isActive (Decoration.window (Decoration.host d))
                         then 1 else 0)).
    { subst target. destruct (isActive _); reflexivity. }
    rewrite Htarget in Hemit.
    destruct e as [v |].
    + rewrite decoration_on_valueChanged_value. exact Hemit.
    + destruct Hemit as [old [Hold Hsame]].
      cbn. unfold Decoration.inSync in Hsync.
      rewrite <- Hvalue, Hold in Hsync. rewrite Hsync. exact Hsame.
  - exists d. repeat split; try assumption. discriminate.
Qed.

End Progress.

Section Completion.

Import QAbstractAnimation.

Lemma of_int_ratio_one (n : Z) : (0 < n)%Z -> of_int n / of_int n == 1.
Proof.
  intros Hn. unfold of_int. field.
  intros H. unfold Qeq in H. simpl in H. lia.
Qed.

Lemma of_int_ratio_zero (n : Z) : of_int 0 / of_int n == 0.
Proof. unfold of_int, Qdiv. apply Qmult_0_l. Qed.

(** X11.  A tick that takes a running window animation to the end of its
    direction stops it there with the progress value at that end: 1 at the
    full duration going forward, 0 at time 0 going backward.  A tick on an
    animation that is not running changes nothing, so the progress value
    is retained. *)
Theorem animationTick_completes (d : Decoration.t) (delta : Z) :
  let a := Decoration.m_animation d in
  let d' := Decoration.animationTick d delta in
  (state a = Running -> Decoration.inSync d -> (0 < duration a)%Z ->
   direction a = Forward -> (duration a <= currentTime a + delta)%Z ->
   state (Decoration.m_animation d') = Stopped
   /\ currentTime (Decoration.m_animation d') = duration a
   /\ Decoration.m_opacity d' == 1)
  /\
  (state a = Running -> Decoration.inSync d -> (0 < duration a)%Z ->
   direction a = Backward -> (currentTime a - delta <= 0)%Z ->
   state (Decoration.m_animation d') = Stopped
   /\ currentTime (Decoration.m_animation d') = 0%Z
   /\ Decoration.m_opacity d' == 0)
  /\
  (state a <> Running -> d' = d).
Proof.
  intros a d'. split; [| split].
  - intros Hrun Hsync Hpos Hdir Hend.
    assert (Htime : Z.min (duration a) (Z.max (currentTime a + delta) 0)
                    = duration a) by lia.
    split; [| split].
    + subst d'. unfold Decoration.animationTick, advance. fold a.
      rewrite Hrun, Hdir.
      destruct (setCurrentTime a (currentTime a + delta)) as [a' e] eqn:Hset.
      rewrite decoration_on_valueChanged_animation. cbn.
      unfold setCurrentTime in Hset. rewrite Hdir, Htime in Hset.
      rewrite Z.eqb_refl in Hset. injection Hset as <- _. reflexivity.
    + subst d'. unfold Decoration.animationTick.
      destruct (advance (Decoration.m_animation d) delta) as [a' e] eqn:Hadv.
      rewrite decoration_on_valueChanged_animation. cbn.
      change a' with (fst (a', e)). rewrite <- Hadv.
      rewrite advance_running_time by exact Hrun. fold a.
      rewrite Hdir. exact Htime.
    + subst d'. rewrite (animationTick_opacity d delta Hrun Hsync).
      fold a. rewrite Hdir, Htime.
      replace (duration a =? 0)%Z with false by (symmetry; apply Z.eqb_neq; lia).
      apply valueForProgress_end. apply of_int_ratio_one. exact Hpos.
  - intros Hrun Hsync Hpos Hdir Hend.
    assert (Htime : Z.min (duration a) (Z.max (currentTime a - delta) 0)
                    = 0%Z) by lia.
    split; [| split].
    + subst d'. unfold Decoration.animationTick, advance. fold a.
      rewrite Hrun, Hdir.
      destruct (setCurrentTime a (currentTime a - delta)) as [a' e] eqn:Hset.
      rewrite decoration_on_valueChanged_animation. cbn.
      unfold setCurrentTime in Hset. rewrite Hdir, Htime in Hset.
      cbn [Z.eqb] in Hset. injection Hset as <- _. reflexivity.
    + subst d'. unfold Decoration.animationTick.
      destruct (advance (Decoration.m_animation d) delta) as [a' e] eqn:Hadv.
      rewrite decoration_on_valueChanged_animation. cbn.
      change a' with (fst (a', e)). rewrite <- Hadv.
      rewrite advance_running_time by exact Hrun. fold a.
      rewrite Hdir. exact Htime.
    + subst d'. rewrite (animationTick_opacity d delta Hrun Hsync).
      fold a. rewrite Hdir, Htime.
      replace (duration a =? 0)%Z with false by (symmetry; apply Z.eqb_neq; lia).
      apply valueForProgress_begin. apply of_int_ratio_zero.
  - intros Hrest. subst d' a. unfold Decoration.animationTick, advance.
    destruct d as [h i a o r tb wp l rg bo ro t]. cbn in *.
    destruct (state a); [reflexivity | reflexivity | contradiction].
Qed.

End Completion.

Section ProgressWitness.

Import QAbstractAnimation.

Lemma progress_stays_in_range_witness :
  0 <= Decoration.m_opacity (Decoration.animationTick Sample.deactivated 20) <= 1
  /\ 0 <= ButtonState.m_opacity (Button.animationTick Sample.leftButton 20) <= 1.
Proof.
  destruct progress_stays_in_range as [_ [Hwindow [_ Hbutton]]].
  split.
  - apply Hwindow. vm_compute. split; discriminate.
  - apply Hbutton. vm_compute. split; discriminate.
Defined.

Lemma instantaneous_without_duration_witness :
  exists d',
    Decoration.updateAnimationState Sample.instant = Some d'
    /\ state (Decoration.m_animation d') = Stopped
    /\ Decoration.m_opacity d' == 1.
Proof.
  destruct (instantaneous_without_duration Sample.instant _ eq_refl eq_refl)
    as [d' [Hrun [Hstate [_ Hvalue]]]].
  - exact I.
  - right. reflexivity.
  - exists d'. split; [exact Hrun |]. split; [exact Hstate |].
    apply Hvalue. reflexivity.
Defined.

Lemma animationTick_completes_witness :
  (state (Decoration.m_animation (Decoration.animationTick Sample.deactivated 150))
   = Stopped
   /\ Decoration.m_opacity (Decoration.animationTick Sample.deactivated 150) == 1)
  /\ (state (Decoration.m_animation (Decoration.animationTick Sample.fading 50))
      = Stopped
      /\ Decoration.m_opacity (Decoration.animationTick Sample.fading 50) == 0)
  /\ Decoration.animationTick Sample.plain 50 = Sample.plain.
Proof.
  split; [| split].
  - destruct (proj1 (animationTick_completes Sample.deactivated 150)
                    eq_refl I eq_refl eq_refl)
      as [Hstate [_ Hvalue]].
    + vm_compute. discriminate.
    + split; assumption.
  - destruct (proj1 (proj2 (animationTick_completes Sample.fading 50))
                    eq_refl I eq_refl eq_refl)
      as [Hstate [_ Hvalue]].
    + vm_compute. discriminate.
    + split; assumption.
  - apply (proj2 (proj2 (animationTick_completes Sample.plain 50))).
    discriminate.
Defined.

End ProgressWitness.

(** ** More on the layout of the buttons *)

Section LayoutPasses.

Context (M : Metrics).

Import Decoration ButtonState.

(** Both groups, with or without buttons. *)
Lemma leftGroup_arranged (dir : LayoutDirection) (d : Decoration.t) :
  let g := m_leftButtons d in
  let g' := m_leftButtons (updateButtonsGeometry M dir d) in
  Layout.pointwise
    (fun j b b' =>
       Layout.arranged M (host d) (isLeftEdge (host d) && Nat.eqb j 0) b b')
    (DecorationButtonGroup.buttons g)
    (DecorationButtonGroup.buttons g').
Proof.
  intros g g'. subst g'.
  change (m_leftButtons (updateButtonsGeometry M dir d))
    with (leftButtonsBlock M dir d (adjustButtons M dir d g)).
  destruct (DecorationButtonGroup.isEmpty g) eqn:He.
  - rewrite (leftGroup_empty M dir d g He).
    unfold DecorationButtonGroup.isEmpty in He.
    destruct (DecorationButtonGroup.buttons g); [| discriminate].
    split; [reflexivity |]. intros [| j]; discriminate.
  - apply (leftGroup_spec M dir d g He).
Qed.

Lemma rightGroup_arranged (dir : LayoutDirection) (d : Decoration.t) :
  let g := m_rightButtons d in
  let g' := m_rightButtons (updateButtonsGeometry M dir d) in
  let back := (List.length (DecorationButtonGroup.buttons g) - 1)%nat in
  Layout.pointwise
    (fun j b b' =>
       Layout.arranged M (host d) (isRightEdge (host d) && Nat.eqb j back)
                       b b')
    (DecorationButtonGroup.buttons g)
    (DecorationButtonGroup.buttons g').
Proof.
  intros g g' back. subst g'.
  change (m_rightButtons (updateButtonsGeometry M dir d))
    with (rightButtonsBlock M dir d (adjustButtons M dir d g)).
  destruct (DecorationButtonGroup.isEmpty g) eqn:He.
  - rewrite (rightGroup_empty M dir d g He).
    unfold DecorationButtonGroup.isEmpty in He.
    destruct (DecorationButtonGroup.buttons g); [| discriminate].
    split; [reflexivity |]. intros [| j]; discriminate.
  - apply (rightGroup_spec M dir d g He).
Qed.

Lemma arranged_size (h : Host) (widened : bool) (b b' : ButtonState.t) :
  Layout.arranged M h widened b b' ->
  rw (geometry b')
  == of_int (Layout.bWidth b')
     + (if widened then of_int (Layout.hPadding M h) else 0)
  /\ rh (geometry b') == of_int (Layout.bHeight M h b').
Proof.
  intros [Hcore [_ [Hw [Hh _]]]].
  destruct (core_kept _ _ Hcore) as [Hpref _].
  unfold Layout.bWidth, Layout.bHeight in *. rewrite Hpref.
  split; assumption.
Qed.

Lemma arranged_twice (h : Host) (widenedAt : nat -> bool)
      (l l' l'' : list ButtonState.t) :
  Layout.pointwise (fun j => Layout.arranged M h (widenedAt j)) l l' ->
  Layout.pointwise (fun j => Layout.arranged M h (widenedAt j)) l' l'' ->
  Forall2 (fun b' b'' => rw (geometry b'') == rw (geometry b')
                         /\ rh (geometry b'') == rh (geometry b'))
          l' l''.
Proof.
  intros H1 H2. apply pointwise_Forall2.
  split; [apply H2 |].
  intros j b' b'' Hb' Hb''.
  destruct (pointwise_nth_back _ _ _ j b' H1 Hb') as [b [_ Hfirst]].
  destruct (arranged_size _ _ _ _ Hfirst) as [Hw1 Hh1].
  destruct (proj2 H2 j b' b'' Hb' Hb'') as [_ [_ [Hw2 [Hh2 _]]]].
  rewrite Hw1, Hw2, Hh1, Hh2. split; reflexivity.
Qed.

(** X12.  After [updateButtonsGeometry] the size of every button follows
    from its preferred size alone, whatever its geometry was before: the
    width is the preferred width and the height the preferred height plus
    the vertical offset, each cut to a whole number; only the button at a
    screen edge is wider, by [hPadding].  So a second run leaves every
    size as it is: the edge button is not widened again and again by
    repeated layouts. *)
Theorem updateButtonsGeometry_sizes
        (layoutDirection : LayoutDirection) (d : Decoration.t) :
  let d' := updateButtonsGeometry M layoutDirection d in
  let d'' := updateButtonsGeometry M layoutDirection d' in
  let h := host d in
  let s := settings h in
  let hPadding := of_int (smallSpacing s * TitleBar_SideMargin M) in
  let verticalOffset :=
    of_int (if isTopEdge h
            then (smallSpacing s * TitleBar_TopMargin M)%Z else 0%Z) in
  let sizedBy := fun (extra : qreal) (b' : ButtonState.t) =>
    rw (geometry b') == of_int (to_int (sw (preferredSize b'))) + extra
    /\ rh (geometry b')
       == of_int (to_int (sh (preferredSize b') + verticalOffset)) in
  let sameSize := fun (b' b'' : ButtonState.t) =>
    rw (geometry b'') == rw (geometry b')
    /\ rh (geometry b'') == rh (geometry b') in
  let back :=
    (List.length (DecorationButtonGroup.buttons (m_rightButtons d')) - 1)%nat in
  (forall j b',
      nth_error (DecorationButtonGroup.buttons (m_leftButtons d')) j = Some b' ->
      sizedBy (if isLeftEdge h && Nat.eqb j 0 then hPadding else 0) b')
  /\ (forall j b',
      nth_error (DecorationButtonGroup.buttons (m_rightButtons d')) j = Some b' ->
      sizedBy (if isRightEdge h && Nat.eqb j back then hPadding else 0) b')
  /\ Forall2 sameSize
             (DecorationButtonGroup.buttons (m_leftButtons d'))
             (DecorationButtonGroup.buttons (m_leftButtons d''))
  /\ Forall2 sameSize
             (DecorationButtonGroup.buttons (m_rightButtons d'))
             (DecorationButtonGroup.buttons (m_rightButtons d'')).
Proof.
  intros d' d'' h s hPadding verticalOffset sizedBy sameSize back.
  pose proof (leftGroup_arranged layoutDirection d) as Hleft.
  pose proof (rightGroup_arranged layoutDirection d) as Hright.
  pose proof (leftGroup_arranged layoutDirection d') as Hleft'.
  pose proof (rightGroup_arranged layoutDirection d') as Hright'.
  cbv zeta in Hleft, Hright, Hleft', Hright'.
  fold d' in Hleft, Hright. fold d'' in Hleft', Hright'.
  change (host d') with h in *. fold h in Hleft, Hright.
  assert (Hback : (List.length (DecorationButtonGroup.buttons (m_rightButtons d))
                   - 1)%nat = back).
  { subst back. rewrite (proj1 Hright). reflexivity. }
  rewrite Hback in Hright. fold back in Hright'.
  split; [| split; [| split]].
  - intros j b' Hb'.
    destruct (pointwise_nth_back _ _ _ j b' Hleft Hb') as [b [_ Harr]].
    exact (arranged_size _ _ _ _ Harr).
  - intros j b' Hb'.
    destruct (pointwise_nth_back _ _ _ j b' Hright Hb') as [b [_ Harr]].
    exact (arranged_size _ _ _ _ Harr).
  - exact (arranged_twice h _ _ _ _ Hleft Hleft').
  - exact (arranged_twice h _ _ _ _ Hright Hright').
Qed.

Lemma arranged_sameButton (h : Host) (widened : bool) (b b' : ButtonState.t) :
  Layout.arranged M h widened b b' -> Layout.sameButton b b'.
Proof.
  intros [Hcore [Hflag _]].
  unfold Layout.core in Hcore. injection Hcore. intros.
  unfold Layout.sameButton.
  repeat split; try assumption.
  destruct widened; [right | left]; exact Hflag.
Qed.

(** X13.  [updateButtonsGeometry] keeps the buttons of both groups in
    number and order, and of each button the type, the hover, pressed
    and checked flags, the visibility, the preferred size and the
    animation; a button's flag is kept or becomes first-in-list, it is
    never cleared.  Nothing of the decoration outside the two groups
    changes. *)
Theorem updateButtonsGeometry_keeps_buttons
        (layoutDirection : LayoutDirection) (d : Decoration.t) :
  let d' := updateButtonsGeometry M layoutDirection d in
  Forall2 Layout.sameButton
          (DecorationButtonGroup.buttons (m_leftButtons d))
          (DecorationButtonGroup.buttons (m_leftButtons d'))
  /\ Forall2 Layout.sameButton
             (DecorationButtonGroup.buttons (m_rightButtons d))
             (DecorationButtonGroup.buttons (m_rightButtons d'))
  /\ d' = setButtonGroups d (m_leftButtons d') (m_rightButtons d')
  /\ host d' = host d
  /\ m_internalSettings d' = m_internalSettings d
  /\ Decoration.m_animation d' = Decoration.m_animation d
  /\ Decoration.m_opacity d' = Decoration.m_opacity d
  /\ m_titleRect d' = m_titleRect d
  /\ m_titleBarPath d' = m_titleBarPath d
  /\ m_windowPath d' = m_windowPath d
  /\ borders d' = borders d
  /\ resizeOnlyBorders d' = resizeOnlyBorders d
  /\ titleBar d' = titleBar d.
Proof.
  intros d'.
  split; [| split; [| repeat split]].
  - apply pointwise_Forall2.
    eapply pointwise_weaken; [| apply (leftGroup_arranged layoutDirection d)].
    cbv beta. intros j b b' _. apply arranged_sameButton.
  - apply pointwise_Forall2.
    eapply pointwise_weaken; [| apply (rightGroup_arranged layoutDirection d)].
    cbv beta. intros j b b' _. apply arranged_sameButton.
Qed.

Lemma vertical_margin (h : Host) :
  of_int (Layout.vPadding M h) + of_int (Layout.verticalOffset M h)
  == of_int (smallSpacing (settings h) * TitleBar_TopMargin M).
Proof.
  unfold Layout.vPadding, Layout.verticalOffset.
  destruct (isTopEdge h); unfold of_int; [apply Qplus_0_l | apply Qplus_0_r].
Qed.

Lemma arranged_placed (h : Host) (widened : bool) (y : qreal)
      (b b' : ButtonState.t) :
  y == of_int (Layout.vPadding M h) ->
  Layout.arranged M h widened b b' ->
  y + mtop (m_padding b')
  == of_int (smallSpacing (settings h) * TitleBar_TopMargin M)
  /\ m_offset b' = mkPoint 0 (mtop (m_padding b'))
  /\ rh (geometry b')
     == of_int (to_int (sh (preferredSize b') + mtop (m_padding b'))).
Proof.
  intros Hy [Hcore [_ [_ [Hh [Hpad Hoff]]]]].
  destruct (core_kept _ _ Hcore) as [Hpref _].
  rewrite Hpad, Hoff, Hpref, Hy.
  split; [apply vertical_margin |]. split; [reflexivity | exact Hh].
Qed.

Lemma Forall_nth_error {A : Type} (P : A -> Prop) (l : list A) :
  (forall j b, nth_error l j = Some b -> P b) -> Forall P l.
Proof.
  intros Hall. apply Forall_forall. intros b Hin.
  destruct (In_nth_error _ _ Hin) as [j Hj]. exact (Hall j b Hj).
Qed.

(** X14.  After [updateButtonsGeometry] the height at which a group is
    placed and the top padding of each of its buttons add up to
    [smallSpacing * TitleBar_TopMargin], at a top screen edge (padding in
    the button, group at 0) as away from it (group lowered, no padding);
    each button's offset repeats its padding, and the button is as high
    as its preferred height plus the padding, cut to a whole number.  In a
    group the library has laid out, every visible button stands at the
    height of the group. *)
Theorem updateButtonsGeometry_vertical
        (layoutDirection : LayoutDirection) (d : Decoration.t) :
  let d' := updateButtonsGeometry M layoutDirection d in
  let margin :=
    of_int (smallSpacing (settings (host d)) * TitleBar_TopMargin M) in
  let placed := fun (g' : DecorationButtonGroup.t) (b' : ButtonState.t) =>
    py (DecorationButtonGroup.pos g') + mtop (m_padding b') == margin
    /\ m_offset b' = mkPoint 0 (mtop (m_padding b'))
    /\ rh (geometry b')
       == of_int (to_int (sh (preferredSize b') + mtop (m_padding b'))) in
  let level := fun (g' : DecorationButtonGroup.t) (b' : ButtonState.t) =>
    isVisible b' = true ->
    top (geometry b') == py (DecorationButtonGroup.pos g') in
  Forall (placed (m_leftButtons d'))
         (DecorationButtonGroup.buttons (m_leftButtons d'))
  /\ Forall (placed (m_rightButtons d'))
            (DecorationButtonGroup.buttons (m_rightButtons d'))
  /\ (DecorationButtonGroup.laidOut layoutDirection (m_leftButtons d) ->
      Forall (level (m_leftButtons d'))
             (DecorationButtonGroup.buttons (m_leftButtons d')))
  /\ (DecorationButtonGroup.laidOut layoutDirection (m_rightButtons d) ->
      Forall (level (m_rightButtons d'))
             (DecorationButtonGroup.buttons (m_rightButtons d'))).
Proof.
  intros d' margin placed level.
  pose proof (leftGroup_arranged layoutDirection d) as Hleft.
  pose proof (rightGroup_arranged layoutDirection d) as Hright.
  cbv zeta in Hleft, Hright. fold d' in Hleft, Hright.
  assert (Hl : DecorationButtonGroup.isEmpty (m_leftButtons d) = true
               \/ (py (DecorationButtonGroup.pos (m_leftButtons d'))
                   == of_int (Layout.vPadding M (host d))
                   /\ (DecorationButtonGroup.laidOut
                         layoutDirection (m_leftButtons d) ->
                       DecorationButtonGroup.laidOut
                         layoutDirection (m_leftButtons d')))).
  { destruct (DecorationButtonGroup.isEmpty (m_leftButtons d)) eqn:He;
      [left; reflexivity | right].
    destruct (leftGroup_spec M layoutDirection d (m_leftButtons d) He)
      as [_ [_ [Hy Hlaid]]].
    split; assumption. }
  assert (Hr : DecorationButtonGroup.isEmpty (m_rightButtons d) = true
               \/ (py (DecorationButtonGroup.pos (m_rightButtons d'))
                   == of_int (Layout.vPadding M (host d))
                   /\ (DecorationButtonGroup.laidOut
                         layoutDirection (m_rightButtons d) ->
                       DecorationButtonGroup.laidOut
                         layoutDirection (m_rightButtons d')))).
  { destruct (DecorationButtonGroup.isEmpty (m_rightButtons d)) eqn:He;
      [left; reflexivity | right].
    destruct (rightGroup_spec M layoutDirection d (m_rightButtons d) He)
      as [_ [_ [Hy Hlaid]]].
    split; assumption. }
  assert (Hempty : forall g g' : DecorationButtonGroup.t,
             List.length (DecorationButtonGroup.buttons g')
             = List.length (DecorationButtonGroup.buttons g) ->
             DecorationButtonGroup.isEmpty g = true ->
             DecorationButtonGroup.buttons g' = []).
  { intros g g' Hlen He. unfold DecorationButtonGroup.isEmpty in He.
    destruct (DecorationButtonGroup.buttons g); [| discriminate].
    destruct (DecorationButtonGroup.buttons g'); [reflexivity | discriminate]. }
  split; [| split; [| split]].
  - destruct Hl as [He | [Hy _]].
    + rewrite (Hempty _ _ (proj1 Hleft) He). constructor.
    + apply Forall_nth_error. intros j b' Hb'.
      destruct (pointwise_nth_back _ _ _ j b' Hleft Hb') as [b [_ Harr]].
      exact (arranged_placed _ _ _ _ _ Hy Harr).
  - destruct Hr as [He | [Hy _]].
    + rewrite (Hempty _ _ (proj1 Hright) He). constructor.
    + apply Forall_nth_error. intros j b' Hb'.
      destruct (pointwise_nth_back _ _ _ j b' Hright Hb') as [b [_ Harr]].
      exact (arranged_placed _ _ _ _ _ Hy Harr).
  - intros Hlaid. destruct Hl as [He | [_ Hkeep]].
    + rewrite (Hempty _ _ (proj1 Hleft) He). constructor.
    + apply Forall_forall. intros b' Hin Hv.
      exact (laidOut_y layoutDirection _ b' (Hkeep Hlaid) Hin Hv).
  - intros Hlaid. destruct Hr as [He | [_ Hkeep]].
    + rewrite (Hempty _ _ (proj1 Hright) He). constructor.
    + apply Forall_forall. intros b' Hin Hv.
      exact (laidOut_y layoutDirection _ b' (Hkeep Hlaid) Hin Hv).
Qed.

End LayoutPasses.

Section LayoutPassesWitness.

Import Decoration.

Lemma updateButtonsGeometry_sizes_witness :
  let tiled :=
    updateButtonsGeometry Sample.metrics LeftToRight
                          (Sample.arranged true true) in
  exists b',
    nth_error (DecorationButtonGroup.buttons (m_leftButtons tiled)) 0
    = Some b'
    /\ sw (ButtonState.preferredSize b') = 36
    /\ rw (ButtonState.geometry b')
       == of_int (to_int (sw (ButtonState.preferredSize b'))) + of_int (4 * 2).
Proof.
  intros tiled.
  destruct (nth_error (DecorationButtonGroup.buttons (m_leftButtons tiled)) 0)
    as [b' |] eqn:Hb; [| vm_compute in Hb; discriminate].
  exists b'. split; [reflexivity |].
  destruct (updateButtonsGeometry_sizes Sample.metrics LeftToRight
              (Sample.arranged true true))
    as [Hleft _].
  split; [| exact (proj1 (Hleft 0%nat b' Hb))].
  vm_compute in Hb. injection Hb as <-. reflexivity.
Defined.

Lemma updateButtonsGeometry_vertical_witness :
  let plain :=
    updateButtonsGeometry Sample.metrics LeftToRight
                          (Sample.arranged false false) in
  Forall (fun b' =>
            ButtonState.isVisible b' = true ->
            top (ButtonState.geometry b')
            == py (DecorationButtonGroup.pos (m_leftButtons plain)))
         (DecorationButtonGroup.buttons (m_leftButtons plain)).
Proof.
  intros plain.
  destruct (updateButtonsGeometry_vertical Sample.metrics LeftToRight
              (Sample.arranged false false))
    as [_ [_ [Hlevel _]]].
  apply Hlevel. vm_compute. intuition discriminate.
Defined.

Example plain_buttons :
  let plain :=
    updateButtonsGeometry Sample.metrics LeftToRight
                          (Sample.arranged false false) in
  Sample.placement (m_leftButtons plain)
  = [(mkRect 12 8 36 36, ButtonState.FlagNone);
     (mkRect 56 8 36 36, ButtonState.FlagNone)]
  /\ DecorationButtonGroup.geometry (m_rightButtons plain)
     = mkRect 664 8 124 36.
Proof. vm_compute. split; reflexivity. Qed.

End LayoutPassesWitness.

(** ** Caption rectangle, the other policies *)

Lemma to_int_floor (x : qreal) :
  0 <= x -> of_int (to_int x) <= x /\ x < of_int (to_int x) + 1.
Proof.
  destruct x as [num den]. unfold Qle, Qlt, to_int, of_int. simpl.
  intros Hlow.
  rewrite Z.quot_div_nonneg by lia.
  pose proof (Z.div_mod num (Z.pos den) ltac:(lia)) as Hdiv.
  pose proof (Z.mod_pos_bound num (Z.pos den) ltac:(lia)) as Hmod.
  split; nia.
Qed.

Section CaptionMore.

Context (M : Metrics) (K : HostLib).

Import Decoration.

(** X15.  Under the policies left, right and centre-in-available-space,
    [captionRect] of a visible title bar returns the constrained rectangle
    with that alignment whatever the caption is: the rectangle starts at
    [leftOffset], ends [rightOffset] before the right end of the
    decoration, and is as high as the buttons. *)
Theorem captionRect_fixed_policies (d : Decoration.t) (i : InternalSettings.t) :
  hideTitleBar (host d) = false ->
  m_internalSettings d = Some i ->
  let c := window (host d) in
  let s := settings (host d) in
  let width := sw (size (host d)) in
  let sideMargin := of_int (TitleBar_SideMargin M * smallSpacing s) in
  let leftOffset :=
    snapToPixelGrid K
      (if DecorationButtonGroup.isEmpty (m_leftButtons d) then sideMargin
       else rx (DecorationButtonGroup.geometry (m_leftButtons d))
            + rw (DecorationButtonGroup.geometry (m_leftButtons d))
            + sideMargin)
      (scale c) in
  let rightOffset :=
    snapToPixelGrid K
      (if DecorationButtonGroup.isEmpty (m_rightButtons d) then sideMargin
       else width - rx (DecorationButtonGroup.geometry (m_rightButtons d))
            + sideMargin)
      (scale c) in
  exists bs r,
    buttonSize d = Some bs
    /\ left r = leftOffset
    /\ right r + rightOffset == width
    /\ rh r = of_int bs
    /\ (InternalSettings.titleAlignment i = InternalSettings.AlignLeft ->
        captionRect M K d = Some (r, AlignVCenter_AlignLeft))
    /\ (InternalSettings.titleAlignment i = InternalSettings.AlignRight ->
        captionRect M K d = Some (r, AlignVCenter_AlignRight))
    /\ (InternalSettings.titleAlignment i = InternalSettings.AlignCenter ->
        captionRect M K d = Some (r, AlignCenter)).
Proof.
  intros Hshown Hi c s width sideMargin leftOffset rightOffset.
  destruct (buttonSize_total d i Hi) as [bs Hbs].
  exists bs. eexists. split; [exact Hbs |].
  unfold captionRect, captionHeight. rewrite Hshown, Hbs, Hi. cbn [bind].
  fold c. fold s. fold width. fold sideMargin. fold leftOffset.
  fold rightOffset.
  split; [| split; [| split; [| split; [| split]]]].
  5: { intros ->. reflexivity. }
  4: { intros ->. reflexivity. }
  4: { intros ->. reflexivity. }
  - reflexivity.
  - unfold right. cbn [rx rw]. ring.
  - reflexivity.
Qed.

(** X16.  A caption centred over the full width gets a rectangle on whole
    units: it starts at 0, and its top and its width are the snapped top
    offset and the width of the decoration with the fraction cut off, so
    less than one unit smaller. *)
Theorem captionRect_centred_whole_units
        (d : Decoration.t) (i : InternalSettings.t) (r : QRectF) :
  hideTitleBar (host d) = false ->
  m_internalSettings d = Some i ->
  InternalSettings.titleAlignment i = InternalSettings.AlignCenterFullWidth ->
  captionRect M K d = Some (r, AlignCenter) ->
  let width := sw (size (host d)) in
  let yOffset :=
    snapToPixelGrid K
      (of_int (smallSpacing (settings (host d)) * TitleBar_TopMargin M))
      (scale (window (host d))) in
  0 <= yOffset -> 0 <= width ->
  rx r = 0
  /\ ry r = of_int (to_int yOffset)
  /\ rw r = of_int (to_int width)
  /\ (ry r <= yOffset /\ yOffset < ry r + 1)
  /\ (rw r <= width /\ width < rw r + 1).
Proof.
  intros Hshown Hi Halign Hrect width yOffset Hy Hwidth.
  destruct (buttonSize_total d i Hi) as [bs Hbs].
  unfold captionRect, captionHeight in Hrect.
  rewrite Hshown, Hbs, Hi in Hrect. cbn [bind] in Hrect.
  rewrite Halign in Hrect. fold width in Hrect. fold yOffset in Hrect.
  destruct (Qltb _ _); [discriminate |].
  destruct (Qgtb _ _); [discriminate |].
  injection Hrect as <-. unfold intRect. cbn [rx ry rw rh].
  split; [reflexivity |]. split; [reflexivity |]. split; [reflexivity |].
  split; apply to_int_floor; assumption.
Qed.

End CaptionMore.

Section CaptionMoreWitness.

Import Decoration.

Lemma captionRect_fixed_policies_witness :
  exists r,
    left r = Sample.snapToPixelGrid (8 + 80 + of_int (2 * 4)) 1
    /\ right r + Sample.snapToPixelGrid (800 - 668 + of_int (2 * 4)) 1 == 800
    /\ captionRect Sample.metrics Sample.lib
         (Sample.captioned Sample.longCaption InternalSettings.AlignRight)
       = Some (r, AlignVCenter_AlignRight).
Proof.
  destruct (captionRect_fixed_policies Sample.metrics Sample.lib
              (Sample.captioned Sample.longCaption InternalSettings.AlignRight)
              _ eq_refl eq_refl)
    as [bs [r [_ [Hleft [Hright [_ [_ [Halign _]]]]]]]].
  exists r. split; [exact Hleft |]. split; [exact Hright |].
  apply Halign. reflexivity.
Defined.

Lemma captionRect_centred_whole_units_witness :
  rx (intRect 0 8 800 36) = 0
  /\ rw (intRect 0 8 800 36) <= 800.
Proof.
  destruct (captionRect_centred_whole_units Sample.metrics Sample.lib
              Sample.plain _ (intRect 0 8 800 36) eq_refl eq_refl eq_refl)
    as [Hx [_ [_ [_ [Hw _]]]]].
  - vm_compute. reflexivity.
  - vm_compute. discriminate.
  - vm_compute. discriminate.
  - split; assumption.
Defined.

End CaptionMoreWitness.

(** ** Outlines, further *)

Section ShapesMore.

Import Decoration.

(** X17.  For a maximized window, or without alpha-channel support,
    [calculateWindowAndTitleBarShapes false] succeeds without a theme
    configuration and makes the title-bar outline the plain rectangle of
    the decoration's width and the top border's height, both cut to whole
    numbers; the window outline is the rectangle of the whole decoration,
    or the title-bar outline when the window is shaded. *)
Theorem plain_rectangles_when_maximized (d : Decoration.t) :
  isMaximized (host d) = true
  \/ isAlphaChannelSupported (settings (host d)) = false ->
  let titleRect := intRect 0 0 (sw (size (host d))) (borderTop d) in
  exists d',
    calculateWindowAndTitleBarShapes d false = Some d'
    /\ m_titleRect d' = titleRect
    /\ m_titleBarPath d' = addRect EmptyPath titleRect
    /\ m_windowPath d'
       = addRect EmptyPath
           (if isShaded (window (host d)) then titleRect else rect d).
Proof.
  intros Hplain titleRect.
  assert (Hcond : isMaximized (host d)
                  || negb (isAlphaChannelSupported (settings (host d))) = true).
  { destruct Hplain as [-> | ->]; [reflexivity | apply Bool.orb_true_r]. }
  assert (Hround : isAlphaChannelSupported (settings (host d))
                   && negb (isMaximized (host d)) = false).
  { destruct Hplain as [-> | ->]; [apply Bool.andb_false_r | reflexivity]. }
  unfold calculateWindowAndTitleBarShapes. cbn [negb orb].
  rewrite Hcond. cbn [bind].
  destruct (isShaded (window (host d))); cbn [negb bind].
  - eexists. repeat split.
  - rewrite Hround. cbn [bind]. eexists. repeat split.
Qed.

(** X18.  [calculateWindowAndTitleBarShapes] is idempotent for either
    value of its argument; called with [windowShapeOnly] on a window that
    is not shaded it leaves the title rectangle and the title-bar outline
    as they were; in every case it changes nothing but the three shapes:
    every other member of the decoration is as it was. *)
Theorem calculateShapes_idempotent
        (d d' : Decoration.t) (windowShapeOnly : bool) :
  calculateWindowAndTitleBarShapes d windowShapeOnly = Some d' ->
  calculateWindowAndTitleBarShapes d' windowShapeOnly = Some d'
  /\ (windowShapeOnly = true -> isShaded (window (host d)) = false ->
      m_titleRect d' = m_titleRect d /\ m_titleBarPath d' = m_titleBarPath d)
  /\ d' = setShapes d (m_titleRect d') (m_titleBarPath d') (m_windowPath d')
  /\ host d' = host d
  /\ m_internalSettings d' = m_internalSettings d
  /\ m_animation d' = m_animation d
  /\ m_opacity d' = m_opacity d
  /\ m_leftButtons d' = m_leftButtons d
  /\ m_rightButtons d' = m_rightButtons d
  /\ borders d' = borders d
  /\ resizeOnlyBorders d' = resizeOnlyBorders d
  /\ titleBar d' = titleBar d.
Proof.
  unfold calculateWindowAndTitleBarShapes at 1.
  destruct (if negb windowShapeOnly || isShaded (window (host d)) then _ else _)
    as [[titleRect titlePath] |] eqn:Htitle; cbn [bind]; [| discriminate].
  destruct (if negb (isShaded (window (host d))) then _ else _)
    as [windowPath |] eqn:Hwindow; cbn [bind]; [| discriminate].
  intros [= <-].
  split; [| split; [| repeat split]].
  - unfold calculateWindowAndTitleBarShapes.
    cbn [host setShapes m_internalSettings borders borderTop size
         m_titleRect m_titleBarPath].
    unfold borderTop, rect in *.
    cbn [host setShapes m_internalSettings borders m_titleRect
         m_titleBarPath].
    destruct (negb windowShapeOnly || isShaded (window (host d))) eqn:Hfull.
    + rewrite Htitle. cbn [bind]. rewrite Hwindow. reflexivity.
    + injection Htitle as <- <-. cbn [bind]. rewrite Hwindow. reflexivity.
  - intros -> Hunshaded. rewrite Hunshaded in Htitle. cbn in Htitle.
    injection Htitle as <- <-. split; reflexivity.
Qed.

End ShapesMore.

Section ShapesMoreWitness.

Import Decoration.

Lemma plain_rectangles_when_maximized_witness :
  exists d',
    calculateWindowAndTitleBarShapes Sample.maximized false = Some d'
    /\ m_titleBarPath d' = addRect EmptyPath (intRect 0 0 800 44)
    /\ m_windowPath d' = addRect EmptyPath (mkRect 0 0 800 600).
Proof.
  destruct (plain_rectangles_when_maximized Sample.maximized
              (or_introl eq_refl))
    as [d' [Hrun [_ [Htitle Hwindow]]]].
  exists d'. repeat split; assumption.
Defined.

Lemma calculateShapes_idempotent_witness :
  exists d',
    calculateWindowAndTitleBarShapes Sample.plain true = Some d'
    /\ calculateWindowAndTitleBarShapes d' true = Some d'
    /\ m_titleBarPath d' = EmptyPath.
Proof.
  destruct (calculateWindowAndTitleBarShapes Sample.plain true)
    as [d' |] eqn:Hrun; [| vm_compute in Hrun; discriminate].
  destruct (calculateShapes_idempotent Sample.plain d' true Hrun)
    as [Hagain [Hkept _]].
  exists d'. split; [reflexivity |]. split; [exact Hagain |].
  exact (proj2 (Hkept eq_refl eq_refl)).
Defined.

End ShapesMoreWitness.

(** ** Buttons, further *)

Section ButtonsMore.

Context (M : Metrics) (K : HostLib).

Import ButtonState.

(** X19.  The background of a Close, Minimize or Maximize button of an
    active window is red, yellow or green with alpha 255 while pressed
    (hovered or not), and otherwise with alpha 192 while hovered and 128
    else.  The background of any other button type is valid at most while
    the window is active and the button is pressed. *)
Theorem backgroundColor_active (d : Decoration.t) (b : ButtonState.t) :
  let c := Button.backgroundColor K (Some d) b in
  let level :=
    if isPressed b then 255%Z else if isHovered b then 192%Z else 128%Z in
  match type b with
  | Close =>
      isActive (Decoration.window (Decoration.host d)) = true ->
      c = Rgba 255 0 0 level
  | Minimize =>
      isActive (Decoration.window (Decoration.host d)) = true ->
      c = Rgba 255 255 0 level
  | Maximize =>
      isActive (Decoration.window (Decoration.host d)) = true ->
      c = Rgba 0 255 0 level
  | _ =>
      isValid c = true ->
      isActive (Decoration.window (Decoration.host d)) = true
      /\ isPressed b = true
  end.
Proof.
  intros c level. subst c level. unfold Button.backgroundColor.
  destruct (type b);
    destruct (isActive (Decoration.window (Decoration.host d)));
    destruct (isPressed b); destruct (isHovered b); cbn;
    intros H; try reflexivity; try discriminate; split; reflexivity.
Qed.

(** X20.  A button whose decoration is not a Glass decoration draws
    nothing: [drawIcon] succeeds and leaves the canvas, the pen and the
    brush as they were; both of its colours are invalid. *)
Theorem drawIcon_without_decoration (b : ButtonState.t) (painter : QPainter.t) :
  Button.backgroundColor K None b = InvalidColor
  /\ Button.foregroundColor K None b = Some InvalidColor
  /\ exists painter',
      Button.drawIcon M K None b painter = Some painter'
      /\ QPainter.canvas painter' = QPainter.canvas painter
      /\ QPainter.pen painter' = QPainter.pen painter
      /\ QPainter.brush painter' = QPainter.brush painter.
Proof.
  split; [reflexivity |]. split; [reflexivity |].
  eexists. split; [reflexivity |]. repeat split.
Qed.

Ltac extent_case :=
  intros [= <-]; eexists;
  split; [cbn; rewrite <- ?app_assoc;
          first [reflexivity | symmetry; apply app_nil_r] |];
  split; [reflexivity | cbn; lia].

(** X21.  Whatever [drawIcon] draws lies in the square [0, 36] x [0, 36]
    of its 40 x 40 canvas, the bounding square of the background disc: it
    adds at most four primitives to the canvas, and the corner, end and
    control points of each of them are in that square.  What was on the
    canvas before stays there. *)
Theorem drawIcon_within_disc
        (d : option Decoration.t) (b : ButtonState.t)
        (painter painter' : QPainter.t) :
  Button.drawIcon M K d b painter = Some painter' ->
  exists added,
    QPainter.canvas painter' = QPainter.canvas painter ++ added
    /\ Extent.withinSquareb 0 36 added = true
    /\ (List.length added <= 4)%nat.
Proof.
  unfold Button.drawIcon.
  set (bg := Button.backgroundColor K d b). clearbody bg.
  destruct (Button.foregroundColor K d b) as [fg |]; cbn [bind];
    [| discriminate].
  set (rect := marginsRemoved (geometry b) (m_padding b)). clearbody rect.
  match goal with
  | |- context [QPainter.scale ?p ?sx ?sy] =>
      set (p0 := QPainter.scale p sx sy)
  end.
  assert (Hcanvas : QPainter.canvas p0 = QPainter.canvas painter)
    by reflexivity.
  rewrite <- Hcanvas. clearbody p0. clear Hcanvas.
  destruct p0 as [pen0 brush0 hints0 transform0 canvas0].
  destruct d as [d |];
    [set (titleBar := Decoration.titleBarColor K d); clearbody titleBar |].
  all: destruct (isValid fg); destruct (isValid bg) eqn:Hbg;
    try extent_case.
  all: destruct (type b); try extent_case.
  all: destruct (isChecked b); try extent_case.
  all: rewrite ?Hbg; cbn [negb]; cbv iota; rewrite ?Hbg; try extent_case.
  all: destruct (isValid titleBar); extent_case.
Qed.

Lemma button_on_valueChanged_keeps (b : ButtonState.t) (e : option qreal) :
  type (Button.on_valueChanged b e) = type b
  /\ preferredSize (Button.on_valueChanged b e) = preferredSize b
  /\ geometry (Button.on_valueChanged b e) = geometry b.
Proof.
  destruct e as [v |]; cbn [Button.on_valueChanged]; [| tauto].
  unfold setOpacity. destruct (Qeq_bool _ _); cbn; tauto.
Qed.

(** X22.  [Button::reconfigure] gives a button the square preferred size
    of [buttonSize], a spacer half that width; the width and the height
    the loop of [updateButtonsGeometry] computes from it are [buttonSize]
    (a spacer: half of it, rounded down) and [buttonSize] plus the
    vertical offset.  It sets the duration of the hover animation (a
    negative one is ignored) and leaves the type and the geometry of the
    button as they are.  Without a Glass decoration [reconfigure] changes
    nothing. *)
Theorem reconfigure_then_layout
        (d : Decoration.t) (i : InternalSettings.t) (bs : Z)
        (b : ButtonState.t) :
  Decoration.m_internalSettings d = Some i ->
  Decoration.buttonSize d = Some bs ->
  (0 <= bs)%Z ->
  let h := Decoration.host d in
  let n := InternalSettings.animationsDuration i in
  let w := match type b with Spacer => (bs / 2)%Z | _ => bs end in
  exists b',
    Button.reconfigure (Some d) b = Some b'
    /\ type b' = type b
    /\ preferredSize b'
       = mkSize (match type b with
                 | Spacer => of_int bs * (1 # 2)
                 | _ => of_int bs
                 end)
                (of_int bs)
    /\ Layout.bWidth b' = w
    /\ Layout.bHeight M h b' = (bs + Layout.verticalOffset M h)%Z
    /\ geometry b' = geometry b
    /\ QAbstractAnimation.duration (m_animation b')
       = (if (n <? 0)%Z then QAbstractAnimation.duration (m_animation b)
          else n)
    /\ Button.reconfigure None b = Some b.
Proof.
  intros Hi Hbs Hpos h n w.
  unfold Button.reconfigure. rewrite Hbs, Hi. cbn [bind]. fold n.
  set (b1 := match type b with
             | Spacer => setPreferredSize b _
             | _ => setPreferredSize b _
             end).
  assert (Hb1 : type b1 = type b
                /\ preferredSize b1
                   = mkSize (match type b with
                             | Spacer => of_int bs * (1 # 2)
                             | _ => of_int bs
                             end)
                            (of_int bs)
                /\ geometry b1 = geometry b
                /\ m_animation b1 = m_animation b).
  { subst b1. destruct (type b) eqn:Hty; repeat split; exact Hty. }
  destruct Hb1 as [Htype [Hpref [Hgeometry Hanimation]]].
  rewrite Hanimation.
  destruct (setDuration_cases (m_animation b) n)
    as [a' [emitted [Hset [Hduration _]]]].
  rewrite Hset.
  destruct (button_on_valueChanged_keeps (setAnimation b1 a') emitted)
    as [Ht [Hp Hg]].
  assert (Hheight : forall vo : Z,
             to_int (of_int bs + of_int vo) = (bs + vo)%Z).
  { intros vo. unfold to_int, of_int. cbn. rewrite Z.quot_1_r. ring. }
  assert (Hhalf : to_int (of_int bs * (1 # 2)) = (bs / 2)%Z).
  { unfold to_int, of_int. cbn. rewrite Z.quot_div_nonneg by lia.
    f_equal. ring. }
  eexists. split; [reflexivity |].
  split; [rewrite Ht; exact Htype |].
  split; [rewrite Hp; exact Hpref |].
  unfold Layout.bWidth, Layout.bHeight. rewrite Hp.
  change (preferredSize (setAnimation b1 a')) with (preferredSize b1).
  rewrite Hpref. cbn [sw sh].
  split; [subst w; destruct (type b);
          rewrite ?to_int_of_int, ?Hhalf; reflexivity |].
  split; [apply Hheight |].
  split; [rewrite Hg; exact Hgeometry |].
  split; [| reflexivity].
  rewrite button_on_valueChanged_animation. exact Hduration.
Qed.

End ButtonsMore.

Section ButtonsMoreWitness.

Import ButtonState.

Lemma backgroundColor_active_witness :
  Button.backgroundColor Sample.lib (Some Sample.plain)
                         (Sample.button Close true false false)
  = Rgba 255 0 0 192
  /\ (isValid (Button.backgroundColor Sample.lib (Some Sample.plain)
                 (Sample.button Shade false true false)) = true ->
      isActive (Decoration.window (Decoration.host Sample.plain)) = true
      /\ isPressed (Sample.button Shade false true false) = true).
Proof.
  split.
  - exact (backgroundColor_active Sample.lib Sample.plain
             (Sample.button Close true false false) eq_refl).
  - exact (backgroundColor_active Sample.lib Sample.plain
             (Sample.button Shade false true false)).
Defined.

Lemma drawIcon_within_disc_witness :
  exists painter' added,
    Button.drawIcon Sample.metrics Sample.lib (Some Sample.plain)
      (Sample.button ContextHelp false false false) QPainter.fresh
    = Some painter'
    /\ QPainter.canvas painter' = added
    /\ Extent.withinSquareb 0 36 added = true.
Proof.
  destruct (Button.drawIcon Sample.metrics Sample.lib (Some Sample.plain)
              (Sample.button ContextHelp false false false) QPainter.fresh)
    as [painter' |] eqn:Hdraw; [| vm_compute in Hdraw; discriminate].
  destruct (drawIcon_within_disc Sample.metrics Sample.lib _ _ _ _ Hdraw)
    as [added [Hcanvas [Hin _]]].
  exists painter', added. repeat split; assumption.
Defined.

Lemma reconfigure_then_layout_witness :
  exists b',
    Button.reconfigure (Some Sample.plain) Sample.spacer = Some b'
    /\ sw (preferredSize b') = of_int 36 * (1 # 2)
    /\ Layout.bWidth b' = (36 / 2)%Z
    /\ Layout.bHeight Sample.metrics (Decoration.host Sample.plain) b'
       = (36 + 0)%Z.
Proof.
  destruct (reconfigure_then_layout Sample.metrics Sample.plain _ 36
              Sample.spacer eq_refl eq_refl)
    as [b' [Hrun [_ [Hpref [Hwidth [Hheight _]]]]]].
  - discriminate.
  - exists b'. split; [exact Hrun |].
    split; [rewrite Hpref; reflexivity |].
    split; [exact Hwidth | exact Hheight].
Defined.

End ButtonsMoreWitness.

(** ** Starting an animation *)

Section Starting.

Import QAbstractAnimation.

Lemma start_positive_duration (a : QVariantAnimation) :
  state a = Stopped -> (0 < duration a)%Z ->
  let '(a', e) := start a in
  state a' = Running
  /\ direction a' = direction a
  /\ currentTime a'
     = match direction a with Forward => 0%Z | Backward => duration a end
  /\ match e with
     | Some v => v == match direction a with Forward => 0 | Backward => 1 end
     | None =>
         exists old,
           currentValue a = Some old
           /\ old == match direction a with Forward => 0 | Backward => 1 end
     end.
Proof.
  intros Hstopped Hpos. unfold start. rewrite Hstopped.
  unfold setCurrentTime, interpolated.
  cbn [QAbstractAnimation.duration QAbstractAnimation.direction
       QAbstractAnimation.currentTime QAbstractAnimation.easingCurve
       QAbstractAnimation.state QAbstractAnimation.currentValue].
  replace (duration a =? 0)%Z with false by (symmetry; apply Z.eqb_neq; lia).
  set (t := Z.min _ _).
  assert (Ht : t = match direction a with
                   | Forward => 0%Z
                   | Backward => duration a
                   end)
    by (subst t; destruct (direction a); lia).
  set (v := valueForProgress _ _).
  assert (Hv : v == match direction a with Forward => 0 | Backward => 1 end).
  { subst v. rewrite Ht. destruct (direction a).
    - apply valueForProgress_begin. apply of_int_ratio_zero.
    - apply valueForProgress_end. apply of_int_ratio_one. exact Hpos. }
  split; [| split; [reflexivity | split; [exact Ht |]]].
  - rewrite Ht. destruct (direction a).
    + replace (0 =? duration a)%Z with false
        by (symmetry; apply Z.eqb_neq; lia).
      reflexivity.
    + replace (duration a =? 0)%Z with false
        by (symmetry; apply Z.eqb_neq; lia).
      reflexivity.
  - destruct (currentValue a) as [old |] eqn:Hold; cbn [value_eqb].
    + destruct (Qeq_bool old v) eqn:Hsame; [| exact Hv].
      exists old. split; [reflexivity |].
      apply Qeq_bool_iff in Hsame. rewrite Hsame. exact Hv.
    + exact Hv.
Qed.

(** X23.  From a stopped window animation of positive duration, with
    animations switched on, [updateAnimationState] starts the animation at
    the start point of its target: running forward from time 0 with the
    progress value 0 when the window is active, running backward from the
    full duration with the progress value 1 when it is inactive. *)
Theorem updateAnimationState_starts
        (d : Decoration.t) (i : InternalSettings.t) :
  Decoration.m_internalSettings d = Some i ->
  InternalSettings.animationsEnabled i = true ->
  state (Decoration.m_animation d) = Stopped ->
  (0 < duration (Decoration.m_animation d))%Z ->
  Decoration.inSync d ->
  let active := isActive (Decoration.window (Decoration.host d)) in
  exists d',
    Decoration.updateAnimationState d = Some d'
    /\ state (Decoration.m_animation d') = Running
    /\ direction (Decoration.m_animation d')
       = (if active then Forward else Backward)
    /\ currentTime (Decoration.m_animation d')
       = (if active then 0%Z else duration (Decoration.m_animation d))
    /\ Decoration.m_opacity d' == (if active then 0 else 1).
Proof.
  intros Hi Hen Hstopped Hpos Hsync active.
  unfold Decoration.updateAnimationState. rewrite Hi. cbn [bind].
  rewrite Hen. fold active.
  set (target := if active then Forward else Backward).
  set (a := setDirection (Decoration.m_animation d) target).
  assert (Hstate : state a = Stopped)
    by (subst a; rewrite setDirection_state; exact Hstopped).
  assert (Hdur : duration a = duration (Decoration.m_animation d))
    by (subst a; apply setDirection_duration).
  assert (Hdir : direction a = target)
    by (subst a; apply setDirection_direction).
  assert (Hvalue : currentValue a = currentValue (Decoration.m_animation d)).
  { subst a. unfold setDirection. destruct (Direction_eqb _ _); reflexivity. }
  rewrite Hstate. cbn [State_eqb negb].
  pose proof (start_positive_duration a Hstate) as Hstart.
  rewrite Hdur in Hstart. specialize (Hstart Hpos).
  destruct (start a) as [a' e].
  destruct Hstart as [Hrun [Hdir' [Htime Hemit]]].
  rewrite Hdir in *.
  eexists. split; [reflexivity |].
  rewrite decoration_on_valueChanged_animation.
  cbn [Decoration.setAnimation Decoration.m_animation].
  split; [exact Hrun |].
  split; [exact Hdir' |].
  split; [rewrite Htime; subst target; destruct active; reflexivity |].
  assert (Htarget : (match target with Forward => 0 | Backward => 1 end)
                    = (if active then 0 else 1))
    by (subst target; destruct active; reflexivity).
  rewrite Htarget in Hemit.
  destruct e as [v |].
  - rewrite decoration_on_valueChanged_value. exact Hemit.
  - destruct Hemit as [old [Hold Hsame]].
    cbn. unfold Decoration.inSync in Hsync.
    rewrite <- Hvalue, Hold in Hsync. rewrite Hsync. exact Hsame.
Qed.

End Starting.

Section StartingWitness.

Import QAbstractAnimation.

Lemma updateAnimationState_starts_witness :
  exists d',
    Decoration.updateAnimationState Sample.inactive = Some d'
    /\ state (Decoration.m_animation d') = Running
    /\ currentTime (Decoration.m_animation d') = 200%Z
    /\ Decoration.m_opacity d' == 1.
Proof.
  destruct (updateAnimationState_starts Sample.inactive _
              eq_refl eq_refl eq_refl eq_refl I)
    as [d' [Hrun [Hstate [_ [Htime Hvalue]]]]].
  exists d'. repeat split; assumption.
Defined.

End StartingWitness.

Section ShadowTableWitness.

Import Shadow.

Lemma lookupShadowParams_isNone_witness :
  CompositeShadowParams.isNone (lookupShadowParams ShadowNone) = true
  /\ (CompositeShadowParams.isNone (lookupShadowParams ShadowUnmapped) = true ->
      ShadowUnmapped = ShadowNone).
Proof.
  split.
  - exact (proj2 (lookupShadowParams_isNone ShadowNone) eq_refl).
  - exact (proj1 (lookupShadowParams_isNone ShadowUnmapped)).
Defined.

Example lookupShadowParams_medium :
  lookupShadowParams ShadowMedium
  = CompositeShadowParams.mkComposite
      (ShadowParams.mkQPoint 0 8)
      (ShadowParams.mkShadowParams (ShadowParams.mkQPoint 0 0) 32 (9 # 10))
      (ShadowParams.mkShadowParams (ShadowParams.mkQPoint 0 (-4)) 16 (3 # 10)).
Proof. reflexivity. Qed.

End ShadowTableWitness.
